(** * day-hoc-AI: the quiz, flashcard and progression logic of [App.tsx]

    A shallow embedding of the client-side logic of the KidGenius and
    QuizMaster views, with the properties the specification states about it.

    Conventions of the embedding.
    - A JavaScript string is a Rocq [string] holding its UTF-8 bytes.
    - A JavaScript object used as a dictionary is a finite map ([gmap]); the
      members inherited from [Object.prototype] are outside the model.
    - [undefined] is [None]; an exception is the [Throw] case of [outcome].
    - A number that only counts (an index, the score of KidGenius, a sum of
      twenties) is an integer; the score of QuizMaster, a sum of quotients,
      is a binary64 [float], as every JavaScript number is.
    - A React state setter is explicit state passing: a handler maps the
      state it reads to the state of the next render, and an asynchronous
      function maps the state at its call to the state once it has settled.
    - [Math.random()] is an oracle: the n-th draw is [random n].
    - [JSON.parse] and the generative-AI service belong to the platform: a
      text comes with what [JSON.parse] makes of it, and the answer of the
      service is an input. A request to the service is recorded by the values
      its prompt interpolates. *)

From Stdlib Require Import ZArith Floats.
From stdpp Require Import base decidable option list strings gmap pretty.

Local Open Scope string_scope.
Local Open Scope Z_scope.

(** ** Exceptions *)

Inductive exception : Type :=
  | TypeError
  | SyntaxError
  | InvalidCharacterError
  | Error (message : string).

Inductive outcome (A : Type) : Type :=
  | Ok (a : A)
  | Throw (e : exception).
Arguments Ok {A} a.
Arguments Throw {A} e.

#[global] Instance outcome_ret : MRet outcome := fun A a => Ok a.
#[global] Instance outcome_bind : MBind outcome := fun A B k m =>
  match m with
  | Ok a => k a
  | Throw e => Throw e
  end.

(** The double quote and the line feed, as one-character strings. *)
Definition dquote : string := String (Ascii.ascii_of_nat 34) EmptyString.
Definition newline : string := String (Ascii.ascii_of_nat 10) EmptyString.

(** [a || b] on strings: the empty string and [undefined] are falsy. *)
Definition or_else (v : option string) (d : string) : string :=
  match v with
  | Some s => if decide (s = "") then d else s
  | None => d
  end.

(** ** Values read back from JSON text *)

(** What [JSON.parse] returns. Numbers are restricted to integers, which
    is what indices and scores are; an object lists its distinct keys. *)
#[warnings="-register-all"]
Inductive json : Type :=
  | JNull
  | JBool (b : bool)
  | JNum (n : Z)
  | JStr (s : string)
  | JArr (items : list json)
  | JObj (fields : list (string * json)).

(** A string together with what [JSON.parse] makes of it. [JSON.parse] is
    the platform's: its result on a text is part of the input. *)
Record text : Type := Text {
  chars : string;
  parsed : outcome json
}.

Definition JSON_parse (t : text) : outcome json := parsed t.

(** A string is truthy when it is not empty. *)
Definition nonempty (t : text) : bool := negb (bool_decide (chars t = "")).

Fixpoint assoc (key : string) (fields : list (string * json)) : option json :=
  match fields with
  | [] => None
  | (k, v) :: rest => if decide (k = key) then Some v else assoc key rest
  end.

(** [String(v)], as a template literal interpolates a value. *)
Fixpoint display (v : json) : string :=
  match v with
  | JNull => "null"
  | JBool true => "true"
  | JBool false => "false"
  | JNum n => pretty n
  | JStr s => s
  | JArr items =>
      (fix join (l : list json) : string :=
         match l with
         | [] => ""
         | [x] => match x with JNull => "" | _ => display x end
         | x :: rest =>
             (match x with JNull => "" | _ => display x end) +:+ "," +:+ join rest
         end) items
  | JObj _ => "[object Object]"
  end.

Definition display_opt (v : option json) : string :=
  match v with
  | Some x => display x
  | None => "undefined"
  end.

(** The own property [key] of a value. An array has its length and its
    elements, named by the decimal text of their position; an object has its
    fields; a string has its length and its characters (exact on ASCII
    text); a number or a boolean has none. The methods a prototype adds are
    outside the model. *)
Definition array_property (items : list json) (key : string) : option json :=
  if decide (key = "length") then Some (JNum (Z.of_nat (length items)))
  else
    find (fun k => bool_decide (pretty k = key)) (seq 0 (length items))
    ≫= (fun k => items !! k).

Definition string_property (s : string) (key : string) : option json :=
  if decide (key = "length") then Some (JNum (Z.of_nat (String.length s)))
  else
    find (fun k => bool_decide (pretty k = key)) (seq 0 (String.length s))
    ≫= (fun k => Some (JStr (String.substring k 1 s))).

Definition property (v : json) (key : string) : option json :=
  match v with
  | JArr items => array_property items key
  | JObj fields => assoc key fields
  | JStr s => string_property s key
  | _ => None
  end.

(** [v.key]: reading a property of [undefined] or [null] throws. *)
Definition member (v : option json) (key : string) : outcome (option json) :=
  match v with
  | None | Some JNull => Throw TypeError
  | Some x => Ok (property x key)
  end.

(** [a[i]]: the property of [a] named [String(i)]. *)
Definition index (a : option json) (i : option json) : outcome (option json) :=
  member a (display_opt i).

(** Truthiness: [undefined], [null], [false], [0] and the empty string are
    falsy. *)
Definition truthy (v : option json) : bool :=
  match v with
  | None | Some JNull | Some (JBool false) => false
  | Some (JNum n) => negb (n =? 0)
  | Some (JStr s) => negb (bool_decide (s = ""))
  | Some _ => true
  end.

(** [n === v] for a number [n] that may be [undefined]. *)
Definition strict_eq (n : option Z) (v : option json) : bool :=
  match n, v with
  | None, None => true
  | Some x, Some (JNum y) => x =? y
  | _, _ => false
  end.

(** [Array.isArray(v)], with the items when it is one. *)
Definition as_array (v : json) : option (list json) :=
  match v with
  | JArr items => Some items
  | _ => None
  end.

(** ** The progression policy of KidGenius ([App.tsx], lines 732-812) *)

Module Unlock.

Inductive Stage : Type := setup | quiz | result.

#[global] Instance Stage_eq_dec : EqDecision Stage.
Proof. solve_decision. Defined.

Record Settings : Type := {
  grade : string;
  subject : string;
  difficulty : string;
  topic : string
}.

(** [const difficultyOrder = { 'Dễ': 1, 'Trung bình': 2, 'Khó': 3 }];
    a key that is not there reads as [undefined]. *)
Definition difficultyOrder (key : string) : option Z :=
  if decide (key = "Dễ") then Some 1
  else if decide (key = "Trung bình") then Some 2
  else if decide (key = "Khó") then Some 3
  else None.

(** [Object.keys(difficultyOrder)], in insertion order. *)
Definition difficultyOrder_keys : list string := ["Dễ"; "Trung bình"; "Khó"].

(** [a < b] and [a > b] on numbers that may be [undefined]: a comparison
    with [undefined] is false. *)
Definition lt (a b : option Z) : bool :=
  match a, b with
  | Some x, Some y => x <? y
  | _, _ => false
  end.
Definition gt (a b : option Z) : bool := lt b a.

(** [unlockedLevels]: grade -> subject -> highest unlocked difficulty. *)
Abbreviation Progress := (gmap string (gmap string string)).

(** [unlockedLevels[grade]?.[subject] || 'Dễ'] (line 1222). *)
Definition highestUnlocked (p : Progress) (g s : string) : string :=
  or_else (p !! g ≫= (fun m => m !! s)) "Dễ".

(** The function passed to [setUnlockedLevels] (lines 795-809). The first
    component is the returned [newProgress]; the second is what
    [localStorage.setItem] received, if it was called.
    [JSON.parse(JSON.stringify(prev))] is a deep copy, the identity on
    values. *)
Definition updater (currentGrade currentSubject : string)
    (nextDifficulty : option string) (prev : Progress)
    : Progress * option Progress :=
  let newProgress := prev in
  let newProgress :=
    match newProgress !! currentGrade with
    | None => <[currentGrade := ∅]> newProgress
    | Some _ => newProgress
    end in
  let currentUnlockedLevel :=
    or_else (newProgress !! currentGrade ≫= (fun m => m !! currentSubject)) "Dễ" in
  let currentUnlockedLevelIndex := difficultyOrder currentUnlockedLevel in
  match nextDifficulty with
  | Some next =>
      if negb (bool_decide (next = ""))
         && gt (difficultyOrder next) currentUnlockedLevelIndex
      then
        let newProgress :=
          <[currentGrade :=
              <[currentSubject := next]> (default ∅ (newProgress !! currentGrade))]>
            newProgress in
        (newProgress, Some newProgress)
      else (newProgress, None)
  | None => (newProgress, None)
  end.

(** The state the effect reads and writes. [savedProgress] is the value
    under [kidGeniusProgress_<uid>] in [localStorage]. *)
Record State : Type := {
  stage : Stage;
  score : Z;
  settings : Settings;
  unlockedLevels : Progress;
  savedProgress : option Progress
}.

Definition setUnlockedLevels (f : Progress -> Progress * option Progress)
    (st : State) : State :=
  let r := f (unlockedLevels st) in
  {| stage := stage st; score := score st; settings := settings st;
     unlockedLevels := r.1;
     savedProgress := match r.2 with Some v => Some v | None => savedProgress st end |}.

(** [Object.keys(difficultyOrder).find(key => difficultyOrder[key] ===
    currentLevelIndex + 1)] (line 793). *)
Definition findNext (currentLevelIndex : option Z) : option string :=
  find (fun key =>
          bool_decide (difficultyOrder key = (fun i => i + 1) <$> currentLevelIndex))
       difficultyOrder_keys.

(** The [useEffect] of lines 785-812. *)
Definition unlock_effect (st : State) : State :=
  if bool_decide (stage st = result) && (70 <=? score st) then
    let currentGrade := grade (settings st) in
    let currentSubject := subject (settings st) in
    let currentDifficulty := difficulty (settings st) in
    let currentLevelIndex := difficultyOrder currentDifficulty in
    if lt currentLevelIndex (Some 3) then
      let nextDifficulty := findNext currentLevelIndex in
      setUnlockedLevels (updater currentGrade currentSubject nextDifficulty) st
    else st
  else st.

(** The policy as a function of [(grade, subject, difficultyJustPlayed,
    score)]: the effect run on a finished quiz. *)
Definition policy (g s d : string) (sc : Z) (p : Progress) : Progress :=
  unlockedLevels
    (unlock_effect
       {| stage := result; score := sc;
          settings := {| grade := g; subject := s; difficulty := d; topic := "" |};
          unlockedLevels := p; savedProgress := None |}).

End Unlock.

(** ** The quiz of KidGenius ([App.tsx], lines 699-1077) *)

Module KidGenius.

(** What the awaited call to [ai.models.generateContent] came to: it threw,
    or it returned a response whose [text] is a string or [undefined]. The
    [parsed] field of the text says what [JSON.parse] makes of
    [response.text.trim()]. *)
Inductive Reply : Type :=
  | Rejected (e : exception)
  | Replied (response_text : option text).

(** The [error] state: the empty string, or a fixed prefix followed by the
    message of the exception caught. *)
Inductive ErrorShown : Type :=
  | NoError
  | Failed (prefix : string) (cause : exception).

Record HistoryEntry : Type := {
  date : string;
  h_score : Z;
  h_difficulty : string;
  h_topic : string;
  h_questions : list json;
  h_userAnswers : gmap nat Z;
  h_aiTutorFeedback : json
}.

(** The state of the component; [null] is [JNull]. [savedHistory] is the
    value under [kidGeniusHistory_<uid>_<grade>_<subject>] in
    [localStorage]. *)
Record State : Type := {
  stage : Unlock.Stage;
  settings : Unlock.Settings;
  questions : list json;
  userAnswers : gmap nat Z;
  currentQuestionIndex : nat;
  score : Z;
  selectedAnswer : option (Z * bool);
  showFeedback : bool;
  isLoading : bool;
  error : ErrorShown;
  isFromPath : bool;
  aiTutorFeedback : json;
  isFeedbackLoading : bool;
  quizHistory : list HistoryEntry;
  savedHistory : option (list HistoryEntry)
}.

(** The state of the first render (lines 701-730), with the default
    settings. *)
Definition initial : State :=
  {| stage := Unlock.setup;
     settings := {| Unlock.grade := "Lớp 6"; Unlock.subject := "Toán";
                    Unlock.difficulty := "Dễ"; Unlock.topic := "" |};
     questions := [];
     userAnswers := ∅;
     currentQuestionIndex := 0;
     score := 0;
     selectedAnswer := None;
     showFeedback := false;
     isLoading := false;
     error := NoError;
     isFromPath := false;
     aiTutorFeedback := JNull;
     isFeedbackLoading := false;
     quizHistory := [];
     savedHistory := None |}.

(** [quizSchema] and the [responseSchema] of the request (lines 844-864):
    an array of objects with a string [question], an array of strings
    [options], a number [correctAnswerIndex] and a string [explanation]. *)
Definition is_string (v : option json) : bool :=
  match v with
  | Some (JStr _) => true
  | _ => false
  end.

Definition is_number (v : option json) : bool :=
  match v with
  | Some (JNum _) => true
  | _ => false
  end.

Definition is_string_array (v : option json) : bool :=
  match v with
  | Some (JArr items) => forallb (fun x => is_string (Some x)) items
  | _ => false
  end.

Definition matches_quizSchema (item : json) : bool :=
  match item with
  | JObj fields =>
      is_string (assoc "question" fields)
      && is_string_array (assoc "options" fields)
      && is_number (assoc "correctAnswerIndex" fields)
      && is_string (assoc "explanation" fields)
  | _ => false
  end.

Definition matches_responseSchema (v : json) : bool :=
  match v with
  | JArr items => forallb matches_quizSchema items
  | _ => false
  end.

(** The invariant of a multiple-choice question: [correctAnswerIndex] is an
    index into [options]. *)
Definition validAnswerIndex (question : json) : bool :=
  match question with
  | JObj fields =>
      match assoc "options" fields, assoc "correctAnswerIndex" fields with
      | Some (JArr options), Some (JNum n) =>
          (0 <=? n) && (n <? Z.of_nat (length options))
      | _, _ => false
      end
  | _ => false
  end.

(** [!apiKey] for [apiKey : string | null]. *)
Definition missing (apiKey : option string) : bool :=
  match apiKey with
  | Some k => bool_decide (k = "")
  | None => true
  end.

(** The [try] block of [generateKidGeniusQuiz] up to the validation of
    lines 867-870: the questions it goes on with, or the exception. *)
Definition generatedQuestions (apiKey : option string) (reply : Reply)
    : outcome (list json) :=
  if missing apiKey then Throw (Error "API Key is not set.")
  else
    match reply with
    | Rejected e => Throw e
    | Replied None => Throw TypeError
    | Replied (Some t) =>
        v ← JSON_parse t;
        match as_array v with
        | Some items =>
            if (length items =? 0)%nat
            then Throw (Error "AI không trả về câu hỏi hợp lệ.")
            else Ok items
        | None => Throw (Error "AI không trả về câu hỏi hợp lệ.")
        end
    end.

(** [generateKidGeniusQuiz(fromPath)] (lines 820-888), from the state at the
    call to the state once the promise has settled. *)
Definition generateKidGeniusQuiz (apiKey : option string) (fromPath : bool)
    (reply : Reply) (st : State) : State :=
  match generatedQuestions apiKey reply with
  | Ok qs =>
      {| stage := Unlock.quiz;
         settings := settings st;
         questions := qs;
         userAnswers := ∅;
         currentQuestionIndex := 0;
         score := 0;
         selectedAnswer := None;
         showFeedback := false;
         isLoading := false;
         error := NoError;
         isFromPath := fromPath;
         aiTutorFeedback := JNull;
         isFeedbackLoading := isFeedbackLoading st;
         quizHistory := quizHistory st;
         savedHistory := savedHistory st |}
  | Throw e =>
      {| stage := stage st;
         settings := settings st;
         questions := questions st;
         userAnswers := userAnswers st;
         currentQuestionIndex := currentQuestionIndex st;
         score := score st;
         selectedAnswer := selectedAnswer st;
         showFeedback := showFeedback st;
         isLoading := false;
         error := Failed "Không thể tạo câu hỏi. Vui lòng thử lại. Lỗi: " e;
         isFromPath := fromPath;
         aiTutorFeedback := aiTutorFeedback st;
         isFeedbackLoading := isFeedbackLoading st;
         quizHistory := quizHistory st;
         savedHistory := savedHistory st |}
  end.

(** [handleAnswerSelect(optionIndex)] (lines 1035-1047). *)
Definition handleAnswerSelect (optionIndex : Z) (st : State) : outcome State :=
  if showFeedback st then Ok st
  else
    let currentQuestion := questions st !! currentQuestionIndex st in
    correctAnswerIndex ← member currentQuestion "correctAnswerIndex";
    let isCorrect := strict_eq (Some optionIndex) correctAnswerIndex in
    Ok {| stage := stage st;
          settings := settings st;
          questions := questions st;
          userAnswers := <[currentQuestionIndex st := optionIndex]> (userAnswers st);
          currentQuestionIndex := currentQuestionIndex st;
          score := if isCorrect then score st + 20 else score st;
          selectedAnswer := Some (optionIndex, isCorrect);
          showFeedback := true;
          isLoading := isLoading st;
          error := error st;
          isFromPath := isFromPath st;
          aiTutorFeedback := aiTutorFeedback st;
          isFeedbackLoading := isFeedbackLoading st;
          quizHistory := quizHistory st;
          savedHistory := savedHistory st |}.

(** The arguments [handleNext] hands to [generateAITutorFeedback]. *)
Record Finished : Type := {
  finalScore : Z;
  finalQuestions : list json;
  finalUserAnswers : gmap nat Z
}.

(** [handleNext()] (lines 1049-1059): the next state and, after the last
    question, the feedback run it starts. *)
Definition handleNext (st : State) : State * option Finished :=
  let more :=
    Z.of_nat (currentQuestionIndex st) <? Z.of_nat (length (questions st)) - 1 in
  ({| stage := if more then stage st else Unlock.result;
      settings := settings st;
      questions := questions st;
      userAnswers := userAnswers st;
      currentQuestionIndex :=
        if more then (currentQuestionIndex st + 1)%nat else currentQuestionIndex st;
      score := score st;
      selectedAnswer := None;
      showFeedback := false;
      isLoading := isLoading st;
      error := error st;
      isFromPath := isFromPath st;
      aiTutorFeedback := aiTutorFeedback st;
      isFeedbackLoading := isFeedbackLoading st;
      quizHistory := quizHistory st;
      savedHistory := savedHistory st |},
   if more then None
   else Some {| finalScore := score st;
                finalQuestions := questions st;
                finalUserAnswers := userAnswers st |}).

(** One question of an attempt: an option is chosen, then "next" is
    pressed. An attempt answers the questions in turn. [answerAndNext] and
    [attempt] give the state the two handlers set, and no more: the run of
    [generateAITutorFeedback] that [handleNext] hands to [runWithApiKey]
    after the last question is not in them, so the feedback and the history
    of their result are those of the state before that run. *)
Definition answerAndNext (optionIndex : Z) (st : State) : outcome State :=
  st' ← handleAnswerSelect optionIndex st;
  Ok (handleNext st').1.

Fixpoint attempt (choices : list Z) (st : State) : outcome State :=
  match choices with
  | [] => Ok st
  | c :: rest => st' ← answerAndNext c st; attempt rest st'
  end.

(** The same with what [handleNext] starts: the state the handlers set and
    the feedback runs handed to [runWithApiKey] on the way, in order. Each
    of them, once it has run, sets the feedback and appends an entry to the
    history ([generateAITutorFeedback], below). *)
Definition answerAndNextRun (optionIndex : Z) (st : State)
    : outcome (State * option Finished) :=
  st' ← handleAnswerSelect optionIndex st;
  Ok (handleNext st').

Fixpoint attemptRuns (choices : list Z) (st : State)
    : outcome (State * list Finished) :=
  match choices with
  | [] => Ok (st, [])
  | c :: rest =>
      r ← answerAndNextRun c st;
      r' ← attemptRuns rest r.1;
      Ok (r'.1, (option_list r.2 ++ r'.2)%list)
  end.

(** What a failed generation leaves: the attempt is as it was and the error
    is shown. *)
Definition failedWith (st st' : State) : Prop :=
  stage st' = stage st
  /\ questions st' = questions st
  /\ userAnswers st' = userAnswers st
  /\ currentQuestionIndex st' = currentQuestionIndex st
  /\ score st' = score st
  /\ selectedAnswer st' = selectedAnswer st
  /\ isLoading st' = false
  /\ exists e, error st' = Failed "Không thể tạo câu hỏi. Vui lòng thử lại. Lỗi: " e.

(** The reply whose text is [[{}]]: an array of one object with none of
    the fields the schema requires. *)
Definition emptyObjectReply : Reply :=
  Replied (Some (Text "[{}]" (Ok (JArr [JObj []])))).

(** A question that matches the schema and whose answer index points past
    its two options. *)
Definition strayIndex : json :=
  JObj [("question", JStr "1 + 1 = ?");
        ("options", JArr [JStr "1"; JStr "2"]);
        ("correctAnswerIndex", JNum 5);
        ("explanation", JStr "1 + 1 = 2")].

Definition strayIndexReply : Reply :=
  Replied (Some (Text "[...]" (Ok (JArr [strayIndex])))).

(** An item as the schema describes it. *)
Definition quizItem (question : string) (options : list string)
    (correctAnswerIndex : Z) (explanation : string) : json :=
  JObj [("question", JStr question);
        ("options", JArr (map JStr options));
        ("correctAnswerIndex", JNum correctAnswerIndex);
        ("explanation", JStr explanation)].

(** A reply with three questions, where five were asked for. *)
Definition threeQuestions : list json :=
  [quizItem "1 + 1 = ?" ["1"; "2"; "3"; "4"] 1 "1 + 1 = 2";
   quizItem "2 + 2 = ?" ["4"; "5"; "6"; "7"] 0 "2 + 2 = 4";
   quizItem "3 + 3 = ?" ["4"; "5"; "6"; "7"] 2 "3 + 3 = 6"].

Definition threeQuestionsReply : Reply :=
  Replied (Some (Text "[...]" (Ok (JArr threeQuestions)))).

(** A reply with the five questions asked for, an attempt that answers
    them all, and one that misses the second. *)
Definition fiveQuestions : list json :=
  [quizItem "1 + 1 = ?" ["1"; "2"; "3"; "4"] 1 "1 + 1 = 2";
   quizItem "2 + 2 = ?" ["4"; "5"; "6"; "7"] 0 "2 + 2 = 4";
   quizItem "3 + 3 = ?" ["4"; "5"; "6"; "7"] 2 "3 + 3 = 6";
   quizItem "4 + 4 = ?" ["6"; "7"; "8"; "9"] 2 "4 + 4 = 8";
   quizItem "5 + 5 = ?" ["7"; "8"; "9"; "10"] 3 "5 + 5 = 10"].

(** [optionIndex] is the right answer to [q]. *)
Definition rightAnswer (q : json) (optionIndex : Z) : Prop :=
  member (Some q) "correctAnswerIndex" = Ok (Some (JNum optionIndex)).

(** [runWithApiKey(callback)] ([ApiContext.tsx], lines 40-59) for a callback
    that catches its own exceptions, as [generateAITutorFeedback] does: the
    callback runs only when a key is set. *)
Definition runWithApiKey {A : Type} (apiKey : option string) (callback : A)
    : outcome A :=
  if missing apiKey then Throw (Error "API key is required.")
  else Ok callback.

(** The callback of [finalQuestions.map] (lines 954-965): the description
    of a wrong answer, or [null] for a right one. *)
Definition wrongAnswerInfo (finalUserAnswers : gmap nat Z) (q : json) (i : nat)
    : outcome (option string) :=
  let userAnswerIndex := finalUserAnswers !! i in
  correctAnswerIndex ← member (Some q) "correctAnswerIndex";
  let isCorrect := strict_eq userAnswerIndex correctAnswerIndex in
  options ← member (Some q) "options";
  studentChoice ←
    match userAnswerIndex with
    | Some n =>
        chosen ← index options (Some (JNum n));
        Ok (if truthy chosen then dquote +:+ display_opt chosen +:+ dquote
            else "Không trả lời")
    | None => Ok "Không trả lời"
    end;
  if negb isCorrect then
    question ← member (Some q) "question";
    right ← index options correctAnswerIndex;
    explanation ← member (Some q) "explanation";
    Ok (Some ("Câu hỏi: " +:+ dquote +:+ display_opt question +:+ dquote +:+ newline
              +:+ "- Học sinh chọn: " +:+ studentChoice +:+ newline
              +:+ "- Đáp án đúng: " +:+ dquote +:+ display_opt right +:+ dquote +:+ newline
              +:+ "- Giải thích: " +:+ display_opt explanation))
  else Ok None.

(** A question the quiz screen can show: the render of lines 1318-1320
    reads [currentQuestion.question] and calls [currentQuestion.options.map],
    which throws unless the question is an object whose [options] is an
    array. Every question of a completed attempt has been shown. *)
Definition renderable (q : json) : bool :=
  match q with
  | JObj fields =>
      match assoc "options" fields with
      | Some (JArr _) => true
      | _ => false
      end
  | _ => false
  end.

(** [finalUserAnswers[i] === q.correctAnswerIndex]: the answer recorded for
    the question at position [i] is the right one. *)
Definition answeredRight (finalUserAnswers : gmap nat Z) (q : json) (i : nat) : bool :=
  match member (Some q) "correctAnswerIndex" with
  | Ok correctAnswerIndex => strict_eq (finalUserAnswers !! i) correctAnswerIndex
  | Throw _ => false
  end.

(** [finalQuestions.map(...)], from the question at position [i] on. *)
Fixpoint wrongAnswersFrom (finalUserAnswers : gmap nat Z) (i : nat)
    (qs : list json) : outcome (list (option string)) :=
  match qs with
  | [] => Ok []
  | q :: rest =>
      x ← wrongAnswerInfo finalUserAnswers q i;
      xs ← wrongAnswersFrom finalUserAnswers (S i) rest;
      Ok (x :: xs)
  end.

(** [.filter(Boolean)]: [null] and the empty string go. *)
Definition filterBoolean (l : list (option string)) : list string :=
  omap (fun x => match x with
                 | Some s => if decide (s = "") then None else Some s
                 | None => None
                 end) l.

Definition wrongAnswersInfo (finalQuestions : list json)
    (finalUserAnswers : gmap nat Z) : outcome (list string) :=
  l ← wrongAnswersFrom finalUserAnswers 0 finalQuestions;
  Ok (filterBoolean l).

(** A request sent to the service: the values the prompt interpolates (the
    fixed text of the prompt is left out). *)
Record Request : Type := {
  rq_score : Z;
  rq_wrongAnswers : list string
}.

Definition celebration : json :=
  JObj [("title", JStr "Xuất sắc! 100 Điểm!");
        ("content", JStr "Chúc mừng em đã đạt điểm 100/100 trong bài kiểm tra! Đây là một thành tích rất xuất sắc và đáng tự hào, thể hiện sự nỗ lực và kiến thức vững vàng của em. Em đã làm rất tốt rồi!")].

Definition apology : json :=
  JObj [("title", JStr "Lỗi");
        ("content", JStr "Không thể tạo nhận xét của gia sư AI lúc này.")].

(** The [try] block of [generateAITutorFeedback] (lines 953-1008): what it
    ends with, and the requests it sent to the service. *)
Definition feedbackTry (apiKey : option string) (reply : Reply) (f : Finished)
    : outcome json * list Request :=
  match wrongAnswersInfo (finalQuestions f) (finalUserAnswers f) with
  | Throw e => (Throw e, [])
  | Ok wrong =>
      if (length wrong =? 0)%nat && (100 <=? finalScore f) then (Ok celebration, [])
      else if missing apiKey then (Throw (Error "API Key is not set."), [])
      else
        let rq := {| rq_score := finalScore f; rq_wrongAnswers := wrong |} in
        (match reply with
         | Rejected e => Throw e
         | Replied None => Throw TypeError
         | Replied (Some t) => JSON_parse t
         end, [rq])
  end.

Definition perfectAttempt : Finished :=
  {| finalScore := 100;
     finalQuestions := fiveQuestions;
     finalUserAnswers := {[ 0%nat := 1; 1%nat := 0; 2%nat := 2; 3%nat := 2; 4%nat := 3 ]} |}.

Definition flawedAttempt : Finished :=
  {| finalScore := 80;
     finalQuestions := fiveQuestions;
     finalUserAnswers := {[ 0%nat := 1; 1%nat := 3; 2%nat := 2; 3%nat := 2; 4%nat := 3 ]} |}.

(** What [handleNext] hands over when the three questions of
    [threeQuestions] have been answered right. *)
Definition threeRightAttempt : Finished :=
  {| finalScore := 60;
     finalQuestions := threeQuestions;
     finalUserAnswers := <[2%nat := 2]> (<[1%nat := 0]> (<[0%nat := 1]> ∅)) |}.

(** [generateAITutorFeedback(finalScore, finalQuestions, finalUserAnswers)]
    (lines 948-1032); [now] is [new Date().toISOString()]. *)
Definition generateAITutorFeedback (apiKey : option string) (now : string)
    (reply : Reply) (f : Finished) (st : State) : State * list Request :=
  let r := feedbackTry apiKey reply f in
  let feedbackData := match r.1 with Ok v => v | Throw _ => apology end in
  let newHistoryEntry :=
    {| date := now;
       h_score := finalScore f;
       h_difficulty := Unlock.difficulty (settings st);
       h_topic := or_else (Some (Unlock.topic (settings st))) (Unlock.subject (settings st));
       h_questions := finalQuestions f;
       h_userAnswers := finalUserAnswers f;
       h_aiTutorFeedback := feedbackData |} in
  let updatedHistory := (quizHistory st ++ [newHistoryEntry])%list in
  ({| stage := stage st;
      settings := settings st;
      questions := questions st;
      userAnswers := userAnswers st;
      currentQuestionIndex := currentQuestionIndex st;
      score := score st;
      selectedAnswer := selectedAnswer st;
      showFeedback := showFeedback st;
      isLoading := isLoading st;
      error := error st;
      isFromPath := isFromPath st;
      aiTutorFeedback := feedbackData;
      isFeedbackLoading := false;
      quizHistory := updatedHistory;
      savedHistory := Some updatedHistory |},
   r.2).

(** The click on "Quay lại" during the quiz (lines 1303-1307);
    [confirmed] is the answer to [confirm]. *)
Definition abandonQuiz (confirmed : bool) (st : State) : State :=
  if confirmed then
    {| stage := Unlock.setup;
       settings := settings st;
       questions := questions st;
       userAnswers := userAnswers st;
       currentQuestionIndex := currentQuestionIndex st;
       score := score st;
       selectedAnswer := selectedAnswer st;
       showFeedback := showFeedback st;
       isLoading := isLoading st;
       error := error st;
       isFromPath := isFromPath st;
       aiTutorFeedback := aiTutorFeedback st;
       isFeedbackLoading := isFeedbackLoading st;
       quizHistory := quizHistory st;
       savedHistory := savedHistory st |}
  else st.

(** The state [generateLearningPath] works on. [savedPath] is the value
    under [kidGeniusPath_<uid>_<grade>_<subject>] in [localStorage]. *)
Record PathState : Type := {
  learningPath : json;
  pathError : ErrorShown;
  pathLoading : bool;
  savedPath : option (list json)
}.

(** The [try] block of [generateLearningPath] up to the validation of
    lines 931-934. *)
Definition generatedPath (apiKey : option string) (reply : Reply)
    : outcome (list json) :=
  if missing apiKey then Throw (Error "API Key is not set.")
  else
    match reply with
    | Rejected e => Throw e
    | Replied None => Throw TypeError
    | Replied (Some t) =>
        v ← JSON_parse t;
        match as_array v with
        | Some items =>
            if negb (length items =? 4)%nat
            then Throw (Error "AI không trả về lộ trình hợp lệ.")
            else Ok items
        | None => Throw (Error "AI không trả về lộ trình hợp lệ.")
        end
    end.

(** [generateLearningPath()] (lines 890-946). *)
Definition generateLearningPath (apiKey : option string) (reply : Reply)
    (st : PathState) : PathState :=
  match generatedPath apiKey reply with
  | Ok pathData =>
      {| learningPath := JArr pathData;
         pathError := NoError;
         pathLoading := false;
         savedPath := Some pathData |}
  | Throw e =>
      {| learningPath := learningPath st;
         pathError := Failed "Không thể tạo lộ trình. Vui lòng thử lại. Lỗi: " e;
         pathLoading := false;
         savedPath := savedPath st |}
  end.

End KidGenius.

(** ** The map of the learning path ([App.tsx], lines 1079-1218) *)

Module LearningPathMap.
Import KidGenius.

(** [items.join(sep)]: [null] is written as the empty string, any other
    item as [String(item)]. *)
Definition join (sep : string) (items : list json) : string :=
  String.concat sep
    (map (fun x => match x with JNull => "" | _ => display x end) items).

(** [week.topics.join(', ')]: only an array has a [join]. *)
Definition topicsText (week : json) : outcome string :=
  topics ← member (Some week) "topics";
  match topics with
  | Some (JArr items) => Ok (join ", " items)
  | _ => Throw TypeError
  end.

(** [path.find(w => w.week === maxUnlockedWeek)] (line 1088). *)
Fixpoint findWeek (maxUnlockedWeek : Z) (path : list json) : outcome (option json) :=
  match path with
  | [] => Ok None
  | w :: rest =>
      week ← member (Some w) "week";
      if strict_eq (Some maxUnlockedWeek) week then Ok (Some w)
      else findWeek maxUnlockedWeek rest
  end.

(** [history.filter(h => h.topic === currentWeekToCheck.topics.join(', '))]
    (line 1091). The callback reads the topics, once for each entry: with an
    empty history they are not read. *)
Definition weekHistory (history : list HistoryEntry) (week : json)
    : outcome (list HistoryEntry) :=
  match history with
  | [] => Ok []
  | _ =>
      topic ← topicsText week;
      Ok (filter (fun h => h_topic h = topic) history)
  end.

(** The set [passedDifficulties] of lines 1093-1097. *)
Definition passedDifficulties (weekHistory : list HistoryEntry) : gset string :=
  list_to_set (map h_difficulty (filter (fun h => 70 <= h_score h) weekHistory)).

Definition hasPassedAllDifficulties (weekHistory : list HistoryEntry) : bool :=
  let passed := passedDifficulties weekHistory in
  bool_decide ("Dễ" ∈ passed)
  && bool_decide ("Trung bình" ∈ passed)
  && bool_decide ("Khó" ∈ passed).

(** The [while] loop of lines 1087-1108, from the value [maxUnlockedWeek]
    has reached. Every turn that goes on adds one to it, so the loop makes
    at most [path.length] turns; [fuel] bounds the turns, and [None] would be
    a loop that wants more. *)
Fixpoint unlockedFrom (fuel : nat) (path : list json) (history : list HistoryEntry)
    (maxUnlockedWeek : Z) : option (outcome Z) :=
  if Z.of_nat (length path) <? maxUnlockedWeek then Some (Ok maxUnlockedWeek)
  else
    match fuel with
    | O => None
    | S fuel' =>
        match findWeek maxUnlockedWeek path with
        | Throw e => Some (Throw e)
        | Ok None => Some (Ok maxUnlockedWeek)
        | Ok (Some currentWeekToCheck) =>
            if negb (truthy (Some currentWeekToCheck)) then Some (Ok maxUnlockedWeek)
            else
              match weekHistory history currentWeekToCheck with
              | Throw e => Some (Throw e)
              | Ok entries =>
                  if hasPassedAllDifficulties entries
                  then unlockedFrom fuel' path history (maxUnlockedWeek + 1)
                  else Some (Ok maxUnlockedWeek)
              end
        end
    end.

(** [maxUnlockedWeek] as lines 1085-1109 compute it, for a path that is
    [null] or an array, which is what [generateLearningPath] stores. *)
Definition maxUnlockedWeek (path : option (list json)) (history : list HistoryEntry)
    : option (outcome Z) :=
  match path with
  | Some items => unlockedFrom (length items) items history 1
  | None => Some (Ok 1)
  end.

(** [Math.max(1, ...xs)] for numbers that may be [undefined]: with an
    [undefined] among them the result is NaN, here [None]. *)
Definition Math_max_1 (xs : list (option Z)) : option Z :=
  foldl (fun acc x =>
           match acc, x with
           | Some a, Some b => Some (Z.max a b)
           | _, _ => None
           end)
        (Some 1) xs.

(** [getUnlockedDifficultyIndex(week)] (lines 1111-1121); the result is a
    number, NaN being [None]. *)
Definition getUnlockedDifficultyIndex (history : list HistoryEntry)
    (week : option json) : outcome (option Z) :=
  match week with
  | Some w =>
      if negb (truthy week) then Ok (Some 1)
      else
        weekTopic ← topicsText w;
        let passedQuizzes :=
          filter (fun h => h_topic h = weekTopic /\ 70 <= h_score h) history in
        if (0 <? length passedQuizzes)%nat then
          let highestPassedDifficulty :=
            Math_max_1 (map (fun h => Unlock.difficultyOrder (h_difficulty h)) passedQuizzes) in
          Ok ((fun x => Z.min (x + 1) 3) <$> highestPassedDifficulty)
        else Ok (Some 1)
  | None => Ok (Some 1)
  end.

(** [difficultyIndex > unlockedDifficultyIndexForModal] (line 1194): a
    comparison with NaN is false. *)
Definition difficultyLocked (d : string) (unlockedDifficultyIndex : option Z) : bool :=
  Unlock.gt (Unlock.difficultyOrder d) unlockedDifficultyIndex.

(** A week as the schema of the path describes it, as far as the map reads
    it: an object whose [topics] is an array. *)
Definition weekShaped (w : json) : bool :=
  match w with
  | JObj fields =>
      match assoc "topics" fields with
      | Some (JArr _) => true
      | _ => false
      end
  | _ => false
  end.

(** A path of two weeks and the entry a finished quiz leaves in the
    history, for the examples. *)
Definition samplePath : list json :=
  [JObj [("week", JNum 1); ("title", JStr "Số tự nhiên");
         ("topics", JArr [JStr "Tập hợp"; JStr "Phép cộng"]);
         ("objective", JStr "Ôn tập")];
   JObj [("week", JNum 2); ("title", JStr "Phân số");
         ("topics", JArr [JStr "Phân số"]);
         ("objective", JStr "Làm quen")]].

Definition passedQuiz (topic difficulty : string) (score : Z) : HistoryEntry :=
  {| date := "2024-01-01T00:00:00.000Z";
     h_score := score;
     h_difficulty := difficulty;
     h_topic := topic;
     h_questions := [];
     h_userAnswers := ∅;
     h_aiTutorFeedback := JNull |}.

Definition firstWeekPassed : list HistoryEntry :=
  [passedQuiz "Tập hợp, Phép cộng" "Dễ" 80;
   passedQuiz "Tập hợp, Phép cộng" "Trung bình" 100;
   passedQuiz "Tập hợp, Phép cộng" "Khó" 70].

End LearningPathMap.

(** ** Starting a quiz from the learning path ([App.tsx], lines 820-888,
    1061-1077) *)

Module PathQuiz.
Import KidGenius.

(** The request [generateKidGeniusQuiz] sends: the values its prompt
    interpolates (lines 829-832). *)
Record QuizRequest : Type := {
  rq_grade : string;
  rq_subject : string;
  rq_topic : string;
  rq_difficulty : string
}.

Definition quizRequest (settings : Unlock.Settings) : QuizRequest :=
  {| rq_grade := Unlock.grade settings;
     rq_subject := Unlock.subject settings;
     rq_topic := or_else (Some (Unlock.topic settings)) "Kiến thức tổng hợp của môn học";
     rq_difficulty := Unlock.difficulty settings |}.

Definition withSettings (settings : Unlock.Settings) (st : State) : State :=
  {| stage := stage st;
     settings := settings;
     questions := questions st;
     userAnswers := userAnswers st;
     currentQuestionIndex := currentQuestionIndex st;
     score := score st;
     selectedAnswer := selectedAnswer st;
     showFeedback := showFeedback st;
     isLoading := isLoading st;
     error := error st;
     isFromPath := isFromPath st;
     aiTutorFeedback := aiTutorFeedback st;
     isFeedbackLoading := isFeedbackLoading st;
     quizHistory := quizHistory st;
     savedHistory := savedHistory st |}.

(** [startQuizFromPath(weekTopics, difficulty)] (lines 1070-1077), from the
    state of the render in which it is called to the state once the quiz has
    been generated, with the requests sent. [setSettings] queues the new
    settings for the next render; [generateKidGeniusQuiz] is the function of
    this render and reads [settings] as this render has them, so the prompt
    carries the settings of before the call. Without a key [runWithApiKey]
    does not run it. *)
Definition startQuizFromPath (weekTopics : list json) (difficulty : string)
    (apiKey : option string) (reply : Reply) (st : State)
    : State * list QuizRequest :=
  let next :=
    withSettings
      {| Unlock.grade := Unlock.grade (settings st);
         Unlock.subject := Unlock.subject (settings st);
         Unlock.difficulty := difficulty;
         Unlock.topic := LearningPathMap.join ", " weekTopics |}
      st in
  if missing apiKey then (next, [])
  else (generateKidGeniusQuiz apiKey true reply next, [quizRequest (settings st)]).

End PathQuiz.

(** ** The API key ([ApiContext.tsx], lines 12-62; the same code is in
    [App.tsx], lines 218-268) *)

Module Api.

(** The state of [ApiProvider]. [storedKey] is the value under
    [google-api-key] in [localStorage], and [alerts] the messages shown by
    [alert]. *)
Record State : Type := {
  apiKey : option string;
  showKeyModal : bool;
  storedKey : option string;
  alerts : list string
}.

(** The provider of a page that has just been loaded, before its effect. *)
Definition loaded (stored : option string) : State :=
  {| apiKey := None; showKeyModal := false; storedKey := stored; alerts := [] |}.

(** The mount effect (lines 16-23). *)
Definition mountEffect (st : State) : State :=
  if negb (KidGenius.missing (storedKey st)) then
    {| apiKey := storedKey st; showKeyModal := showKeyModal st;
       storedKey := storedKey st; alerts := alerts st |}
  else
    {| apiKey := apiKey st; showKeyModal := true;
       storedKey := storedKey st; alerts := alerts st |}.

(** [clearApiKey()] (lines 34-38). *)
Definition clearApiKey (st : State) : State :=
  {| apiKey := None; showKeyModal := true; storedKey := None; alerts := alerts st |}.

(** What a call of [runWithApiKey] comes to: what the promise it returns
    settles with, the state of the provider, and the world the callback acts
    on. *)
Record Run (A W : Type) : Type := {
  settled : outcome A;
  provider : State;
  world : W
}.
Arguments settled {A W} r.
Arguments provider {A W} r.
Arguments world {A W} r.

(** [hay.includes(needle)]. *)
Definition includes (hay needle : string) : bool :=
  bool_decide (is_Some (String.index 0 needle hay)).

Section Platform.

(** [String.prototype.trim] and [String.prototype.toLowerCase] are the
    platform's, and so is the [message] of what a callback throws
    ([undefined] when it has none). *)
Variable trim : string -> string.
Variable toLowerCase : string -> string.
Variable message : exception -> option string.

(** [saveApiKey(key)] (lines 25-32). *)
Definition saveApiKey (key : string) (st : State) : State :=
  if negb (bool_decide (key = "")) && negb (bool_decide (trim key = "")) then
    let sanitizedKey := trim key in
    {| apiKey := Some sanitizedKey; showKeyModal := false;
       storedKey := Some sanitizedKey; alerts := alerts st |}
  else st.

(** The test of lines 50-53 on the message of the error caught. *)
Definition keyRejected (err : exception) : bool :=
  let errorMessage := or_else (toLowerCase <$> message err) "" in
  includes errorMessage "api key not valid"
  || includes errorMessage "permission denied"
  || includes errorMessage "api key is invalid"
  || includes errorMessage "requested entity was not found".

(** [runWithApiKey(callback)] (lines 40-62). The callback acts on a world
    [W] of its own (the state of the component that passed it) and settles
    with a value or an exception; the result is what the returned promise
    settles with, the state of the provider and the world. *)
Definition runWithApiKey {A W : Type} (callback : W -> outcome A * W)
    (st : State) (w : W) : Run A W :=
  if KidGenius.missing (apiKey st) then
    {| settled := Throw (Error "API key is required.");
       provider :=
         {| apiKey := apiKey st; showKeyModal := true; storedKey := storedKey st;
            alerts := (alerts st
                       ++ ["Vui lòng nhập Google AI API key của bạn để tiếp tục."])%list |};
       world := w |}
  else
    let r := callback w in
    match r.1 with
    | Ok a => {| settled := Ok a; provider := st; world := r.2 |}
    | Throw err =>
        if keyRejected err then
          {| settled := Throw err;
             provider :=
               clearApiKey
                 {| apiKey := apiKey st; showKeyModal := showKeyModal st;
                    storedKey := storedKey st;
                    alerts := (alerts st
                               ++ ["API key của bạn không hợp lệ hoặc thiếu quyền. Vui lòng nhập một key hợp lệ."])%list |};
             world := r.2 |}
        else {| settled := Throw err; provider := st; world := r.2 |}
    end.

End Platform.

(** A [trim] and a [toLowerCase] for text in which the white space is the
    space and the letters are ASCII, and the message of an [Error]. *)
Fixpoint trimStart (s : string) : string :=
  match s with
  | String c rest => if Ascii.eqb c (Ascii.ascii_of_nat 32) then trimStart rest else s
  | EmptyString => EmptyString
  end.

Definition trimSpaces (s : string) : string :=
  String.rev (trimStart (String.rev (trimStart s))).

Definition lowerAscii (c : Ascii.ascii) : Ascii.ascii :=
  let n := Ascii.N_of_ascii c in
  if ((65 <=? n) && (n <=? 90))%N then Ascii.ascii_of_N (n + 32) else c.

Fixpoint toLowerAscii (s : string) : string :=
  match s with
  | String c rest => String (lowerAscii c) (toLowerAscii rest)
  | EmptyString => EmptyString
  end.

Definition messageOfError (e : exception) : option string :=
  match e with
  | Error m => Some m
  | _ => None
  end.

(** A provider with a key, and a callback whose request the service turns
    down for its key. *)
Definition signedIn : State :=
  {| apiKey := Some "AIza-demo"; showKeyModal := false;
     storedKey := Some "AIza-demo"; alerts := [] |}.

Definition rejectingCallback (w : nat) : outcome unit * nat :=
  (Throw (Error "API key not valid. Please pass a valid API key."), S w).

End Api.

(** ** Flashcards and the quiz of QuizMaster ([App.tsx], lines 1761-2519) *)

Module QuizMaster.

(** [type CardStatus = 'new' | 'mastered' | 'needs review'] (line 1855). *)
Inductive CardStatus : Type := new | mastered | needs_review.

#[global] Instance CardStatus_eq_dec : EqDecision CardStatus.
Proof. solve_decision. Defined.

Record Card : Type := {
  front : string;
  back : string;
  status : CardStatus
}.

(** A multiple-choice question as [makeMCFromCards] builds it. *)
Record Question : Type := {
  id : Z;
  type : string;
  q : string;
  opts : list string;
  a : Z;
  explanation : string
}.

(** [updateCardStatus(indexToUpdate, newStatus)] (lines 2354-2360): the
    function handed to [setCards]. *)
Definition updateCardStatus (indexToUpdate : Z) (newStatus : CardStatus)
    (currentCards : list Card) : list Card :=
  imap (fun index card =>
          if Z.of_nat index =? indexToUpdate
          then {| front := front card; back := back card; status := newStatus |}
          else card)
       currentCards.

(** [Array.prototype.sort(compare)] as a stable insertion sort: an element
    stays before the ones that followed it unless [compare] puts one of them
    first. For a consistent [compare] every stable sort gives this list. *)
Fixpoint insert_by {A : Type} (compare : A -> A -> float) (x : A) (l : list A) : list A :=
  match l with
  | [] => [x]
  | y :: rest =>
      if (compare y x <? 0)%float then y :: insert_by compare x rest
      else x :: y :: rest
  end.

Definition sort_by {A : Type} (compare : A -> A -> float) (l : list A) : list A :=
  foldr (insert_by compare) [] l.

(** [arr.indexOf(x)]: the first position of [x], or -1. *)
Fixpoint indexOf (x : string) (arr : list string) : Z :=
  match arr with
  | [] => -1
  | y :: rest =>
      if decide (y = x) then 0
      else let i := indexOf x rest in if i <? 0 then -1 else i + 1
  end.

Section Random.

(** [Math.random()]: [random n] is the n-th number drawn. A computation that
    draws numbers takes the count of the draws made so far and returns the
    new count. *)
Variable random : nat -> float.

(** [shuffle(arr)] (line 1762). *)
Definition shuffle {A : Type} (arr : list A) (n : nat) : list A * nat :=
  (map snd
     (sort_by (fun a b => (a.1 - b.1)%float)
        (imap (fun i x => (random (n + i), x)) arr)),
   (n + length arr)%nat).

(** The body of the loop of [makeMCFromCards] for the card [correct] at
    position [i]. *)
Definition makeQuestion (cards : list Card) (i : nat) (correct : Card) (n : nat)
    : Question * nat :=
  let d := shuffle (filter (fun c => front c <> front correct) cards) n in
  let distractors := map back (take 3 d.1) in
  let o := shuffle (back correct :: distractors) d.2 in
  let opts := o.1 in
  ({| id := Z.of_nat i + 1;
      type := "mc";
      q := front correct;
      opts := opts;
      a := indexOf (back correct) opts;
      explanation :=
        "Đáp án đúng là " +:+ dquote +:+ back correct +:+ dquote
        +:+ " vì nó tương ứng với mặt trước của thẻ: "
        +:+ dquote +:+ front correct +:+ dquote +:+ "." |},
   o.2).

(** The loop, over the cards [pool[i], pool[i+1], ...] still to be used. *)
Fixpoint makeQuestions (cards : list Card) (i : nat) (chosen : list Card) (n : nat)
    : list Question * nat :=
  match chosen with
  | [] => ([], n)
  | correct :: rest =>
      let r := makeQuestion cards i correct n in
      let rs := makeQuestions cards (S i) rest r.2 in
      (r.1 :: rs.1, rs.2)
  end.

(** [makeMCFromCards(cards, count)] (lines 1783-1793); its one call, in
    [useCardsToQuiz], passes the count. *)
Definition makeMCFromCards (cards : list Card) (count : nat) (n : nat)
    : list Question * nat :=
  let pool := shuffle cards n in
  makeQuestions cards 0 (take (count `min` length pool.1) pool.1) pool.2.

End Random.

(** What it is for a question to be made from the card [correct] of the
    set [cards]: it asks the front of the card, and its options are the back
    of the card and the backs of up to three other cards of the set (cards
    with another front), each card used at most once, in some order; the
    answer is the first position of the card's back among them. *)
Definition madeFrom (cards : list Card) (correct : Card) (question : Question) : Prop :=
  q question = front correct
  /\ exists distractors : list Card,
       distractors ⊆+ filter (fun c => front c <> front correct) cards
       /\ length distractors
          = Nat.min 3 (length (filter (fun c => front c <> front correct) cards))
       /\ opts question ≡ₚ back correct :: map back distractors
       /\ a question = indexOf (back correct) (opts question).

(** A source of numbers and a set of four cards, for the examples. *)
Definition sampleRandom (i : nat) : float :=
  (of_uint63 (Uint63.of_Z ((7 * Z.of_nat i + 3) mod 11)) / 11)%float.

Definition sampleDeck : list Card :=
  [{| front := "a"; back := "A"; status := new |};
   {| front := "b"; back := "B"; status := mastered |};
   {| front := "c"; back := "C"; status := new |};
   {| front := "d"; back := "D"; status := needs_review |}].

(** [longestStreak(bools)] (lines 1764-1770). *)
Definition longestStreak (bools : list bool) : nat :=
  (foldl (fun '(best, cur) (b : bool) =>
            if b then (Nat.max best (S cur), S cur) else (best, 0%nat))
         (0%nat, 0%nat) bools).1.

(** The state of the loop of [longestStreak] after the flags [l]. *)
Definition streakAfter (l : list bool) : nat * nat :=
  foldl (fun '(best, cur) (b : bool) =>
           if b then (Nat.max best (S cur), S cur) else (best, 0%nat))
        (0%nat, 0%nat) l.

(** The integer [z] as a number, for [|z| < 2^63]. *)
Definition of_Z (z : Z) : float :=
  if z <? 0 then (- of_uint63 (Uint63.of_Z (- z)))%float
  else of_uint63 (Uint63.of_Z z).

(** [Math.round(x)]: the integer nearest to [x], a tie going up. A finite
    [x] is [±m * 2^e]; for [e < 0] the result is [floor(x + 1/2)], computed
    on integers. *)
Definition Math_round (x : float) : float :=
  match Prim2SF x with
  | S754_finite s m e =>
      if 0 <=? e then x
      else
        let den := 2 ^ (- e) in
        let num := if s then Z.neg m else Z.pos m in
        let r := (2 * num + den) / (2 * den) in
        if r =? 0 then (if s then (-0)%float else 0%float) else of_Z r
  | _ => x
  end.

(** [quizFromCardsStrategy] (line 1858). *)
Inductive Strategy : Type := all | needsReview | notMastered.

(** [const pack = { score: finalScore, total: 100, streak, at: Date.now() }]. *)
Record Pack : Type := {
  p_score : float;
  p_total : float;
  p_streak : nat;
  p_at : Z
}.

(** The state of [QuizMasterApp] that the quiz and the cards use.
    [lastPack] is the value under [eduquiz:last] in [localStorage]. *)
Record State : Type := {
  stage : string;
  count : nat;
  cards : list Card;
  quizFromCardsStrategy : Strategy;
  questions : list Question;
  answers : gmap Z Z;
  correctness : list bool;
  currentQuestionIndex : nat;
  score : float;
  selectedAnswer : option (Z * bool);
  showFeedback : bool;
  result : option Pack;
  lastPack : option Pack
}.

(** The cards [useCardsToQuiz] draws from (lines 2338-2343). *)
Definition cardPool (st : State) : list Card :=
  match quizFromCardsStrategy st with
  | needsReview => filter (fun c => status c = needs_review) (cards st)
  | notMastered => filter (fun c => status c <> mastered) (cards st)
  | all => cards st
  end.

(** [useCardsToQuiz()] (lines 2337-2352): the next state, the count of
    random draws, and the alerts shown. *)
Definition useCardsToQuiz (random : nat -> float) (st : State) (n : nat)
    : State * nat * list string :=
  let cardPool := cardPool st in
  if (length cardPool =? 0)%nat then
    (st, n,
     ["Không có thẻ nào phù hợp để tạo bài kiểm tra. Vui lòng chọn thẻ hoặc thay đổi bộ lọc."])
  else
    let qs := makeMCFromCards random cardPool (count st `min` length cardPool) n in
    ({| stage := "characterSelection";
        count := count st;
        cards := cards st;
        quizFromCardsStrategy := quizFromCardsStrategy st;
        questions := qs.1;
        answers := ∅;
        correctness := [];
        currentQuestionIndex := currentQuestionIndex st;
        score := score st;
        selectedAnswer := selectedAnswer st;
        showFeedback := showFeedback st;
        result := result st;
        lastPack := lastPack st |},
     qs.2, []).

(** A state whose only card is mastered, under the strategy that leaves
    mastered cards out. *)
Definition allMastered : State :=
  {| stage := "cards";
     count := 5;
     cards := [{| front := "b"; back := "B"; status := mastered |}];
     quizFromCardsStrategy := notMastered;
     questions := [];
     answers := ∅;
     correctness := [];
     currentQuestionIndex := 0;
     score := 0%float;
     selectedAnswer := None;
     showFeedback := false;
     result := None;
     lastPack := None |}.

(** The click on "Bắt Đầu Chơi" that starts the quiz (lines 3184-3192). *)
Definition startQuiz (st : State) : State :=
  {| stage := "quiz";
     count := count st;
     cards := cards st;
     quizFromCardsStrategy := quizFromCardsStrategy st;
     questions := questions st;
     answers := ∅;
     correctness := [];
     currentQuestionIndex := 0;
     score := 0%float;
     selectedAnswer := None;
     showFeedback := false;
     result := result st;
     lastPack := lastPack st |}.

(** [handleAnswerSelectQuiz(optionIndex)] (lines 2494-2507). *)
Definition handleAnswerSelectQuiz (optionIndex : Z) (st : State) : outcome State :=
  if showFeedback st then Ok st
  else
    match questions st !! currentQuestionIndex st with
    | None => Throw TypeError
    | Some currentQuestion =>
        let isCorrect := optionIndex =? a currentQuestion in
        let points := (100 / of_Z (Z.of_nat (length (questions st))))%float in
        Ok {| stage := stage st;
              count := count st;
              cards := cards st;
              quizFromCardsStrategy := quizFromCardsStrategy st;
              questions := questions st;
              answers := <[id currentQuestion := optionIndex]> (answers st);
              correctness := correctness st;
              currentQuestionIndex := currentQuestionIndex st;
              score := if isCorrect then (score st + points)%float else score st;
              selectedAnswer := Some (optionIndex, isCorrect);
              showFeedback := true;
              result := result st;
              lastPack := lastPack st |}
    end.

(** [handleNext()] (lines 2509-2519) with [submitQuiz] (lines 2130-2153)
    for a quiz that is not an assignment; [now] is [Date.now()]. *)
Definition handleNext (now : Z) (st : State) : State :=
  if Z.of_nat (currentQuestionIndex st) <? Z.of_nat (length (questions st)) - 1 then
    {| stage := stage st;
       count := count st;
       cards := cards st;
       quizFromCardsStrategy := quizFromCardsStrategy st;
       questions := questions st;
       answers := answers st;
       correctness := correctness st;
       currentQuestionIndex := (currentQuestionIndex st + 1)%nat;
       score := score st;
       selectedAnswer := None;
       showFeedback := false;
       result := result st;
       lastPack := lastPack st |}
  else
    let finalCorrectness :=
      map (fun x => bool_decide (answers st !! id x = Some (a x))) (questions st) in
    let finalScore := Math_round (score st) in
    let pack := {| p_score := finalScore; p_total := 100%float;
                   p_streak := longestStreak finalCorrectness; p_at := now |} in
    {| stage := "result";
       count := count st;
       cards := cards st;
       quizFromCardsStrategy := quizFromCardsStrategy st;
       questions := questions st;
       answers := answers st;
       correctness := finalCorrectness;
       currentQuestionIndex := currentQuestionIndex st;
       score := score st;
       selectedAnswer := None;
       showFeedback := false;
       result := Some pack;
       lastPack := Some pack |}.

(** The score after [n] right answers to a quiz of [n] questions, started
    at 0. *)
Definition allRightScore (n : nat) : float :=
  Nat.iter n (fun s => (s + 100 / of_Z (Z.of_nat n))%float) 0%float.

(** An attempt: each question is answered, then "next" is pressed. *)
Fixpoint attempt (now : Z) (choices : list Z) (st : State) : outcome State :=
  match choices with
  | [] => Ok st
  | c :: rest =>
      st' ← handleAnswerSelectQuiz c st;
      attempt now rest (handleNext now st')
  end.

(** The answers recorded once the questions [qs] have been answered by the
    choices [cs], in turn. *)
Definition recorded (cs : list Z) (qs : list Question) (base : gmap Z Z) : gmap Z Z :=
  foldl (fun m cq => <[id cq.2 := cq.1]> m) base (zip cs qs).


(** A quiz of three questions made from the sample cards, before it is
    started. *)
Definition sampleQuiz : State :=
  {| stage := "characterSelection"; count := 3; cards := sampleDeck;
     quizFromCardsStrategy := all;
     questions := (makeMCFromCards sampleRandom sampleDeck 3 0).1;
     answers := ∅; correctness := []; currentQuestionIndex := 0;
     score := 0%float; selectedAnswer := None; showFeedback := false;
     result := None; lastPack := None |}.

(** *** Exporting and sharing the cards (lines 2326-2329, 3113-3119) *)

Definition hex_digit (n : Z) : string :=
  String.substring (Z.to_nat n) 1 "0123456789abcdef".

(** How [JSON.stringify] writes one character of a string: the quote, the
    backslash and the control characters are escaped, every other byte of
    the UTF-8 text stands for itself. *)
Definition quote_char (c : Ascii.ascii) : string :=
  let n := Z.of_N (Ascii.N_of_ascii c) in
  if n =? 34 then "\" +:+ dquote
  else if n =? 92 then "\\"
  else if n =? 8 then "\b"
  else if n =? 9 then "\t"
  else if n =? 10 then "\n"
  else if n =? 12 then "\f"
  else if n =? 13 then "\r"
  else if n <? 32 then "\u00" +:+ hex_digit (n / 16) +:+ hex_digit (n mod 16)
  else String c EmptyString.

Fixpoint quote_chars (s : string) : string :=
  match s with
  | EmptyString => EmptyString
  | String c rest => quote_char c +:+ quote_chars rest
  end.

(** [JSON.stringify(s)] for a string [s]. *)
Definition stringify_string (s : string) : string :=
  dquote +:+ quote_chars s +:+ dquote.

Definition status_text (st : CardStatus) : string :=
  match st with
  | new => "new"
  | mastered => "mastered"
  | needs_review => "needs review"
  end.

(** [JSON.stringify(cards.map(({ front, back }) => ({ front, back })))]. *)
Definition stringify_pairs (cards : list Card) : string :=
  "[" +:+
  String.concat ","
    (map (fun c =>
            "{" +:+ stringify_string "front" +:+ ":" +:+ stringify_string (front c)
            +:+ "," +:+ stringify_string "back" +:+ ":" +:+ stringify_string (back c)
            +:+ "}")
         cards)
  +:+ "]".

(** [JSON.stringify(cards, null, 2)], the text [exportJSON] puts in the
    file it offers for download. *)
Definition exportJSON (cards : list Card) : string :=
  match cards with
  | [] => "[]"
  | _ =>
      "[" +:+ newline +:+
      String.concat ("," +:+ newline)
        (map (fun c =>
                "  {" +:+ newline
                +:+ "    " +:+ stringify_string "front" +:+ ": "
                +:+ stringify_string (front c) +:+ "," +:+ newline
                +:+ "    " +:+ stringify_string "back" +:+ ": "
                +:+ stringify_string (back c) +:+ "," +:+ newline
                +:+ "    " +:+ stringify_string "status" +:+ ": "
                +:+ stringify_string (status_text (status c)) +:+ newline
                +:+ "  }")
             cards)
      +:+ newline +:+ "]"
  end.

(** The code points of a UTF-8 text when each is below U+0100: a byte
    below 128 is its own code point, the lead bytes 194 and 195 open the
    two-byte forms of U+0080 to U+00FF, and any other lead byte opens a code
    point from U+0100 on. *)
Fixpoint latin1 (s : string) : option (list Z) :=
  match s with
  | EmptyString => Some []
  | String c rest =>
      let n := Z.of_N (Ascii.N_of_ascii c) in
      if n <? 128 then cons n <$> latin1 rest
      else if (n =? 194) || (n =? 195) then
        match rest with
        | String d rest' =>
            cons ((n - 192) * 64 + (Z.of_N (Ascii.N_of_ascii d) - 128)) <$> latin1 rest'
        | EmptyString => None
        end
      else None
  end.

Definition base64_char (i : Z) : string :=
  String.substring (Z.to_nat i) 1
    "ABCDEFGHIJKLMNOPQRSTUVWXYZabcdefghijklmnopqrstuvwxyz0123456789+/".

Fixpoint base64 (bytes : list Z) : string :=
  match bytes with
  | [] => ""
  | [x] => base64_char (x / 4) +:+ base64_char (x mod 4 * 16) +:+ "=="
  | [x; y] =>
      base64_char (x / 4) +:+ base64_char (x mod 4 * 16 + y / 16)
      +:+ base64_char (y mod 16 * 4) +:+ "="
  | x :: y :: z :: rest =>
      base64_char (x / 4) +:+ base64_char (x mod 4 * 16 + y / 16)
      +:+ base64_char (y mod 16 * 4 + z / 64) +:+ base64_char (z mod 64)
      +:+ base64 rest
  end.

(** [btoa(s)]: the base64 text of the bytes of [s], an
    [InvalidCharacterError] when a character of [s] is above U+00FF. *)
Definition btoa (s : string) : outcome string :=
  match latin1 s with
  | Some bytes => Ok (base64 bytes)
  | None => Throw InvalidCharacterError
  end.

(** The click on "Chia sẻ bộ thẻ" (lines 3114-3119): the link it builds. *)
Definition shareSet (origin pathname : string) (cards : list Card) : outcome string :=
  setData ← btoa (stringify_pairs cards);
  Ok (origin +:+ pathname +:+ "?shared_set=" +:+ setData).

(** The card the button of line 2810 adds to the set. *)
Definition addedCard : Card :=
  {| front := "Mặt trước mới"; back := "Mặt sau mới"; status := new |}.

End QuizMaster.

(** ** The texts a set can be shared with ([App.tsx], lines 3114-3119) *)

Module Sharing.
Import QuizMaster.

(** The text has only characters of ASCII: every byte is below 128. *)
Fixpoint asciiOnly (s : string) : bool :=
  match s with
  | EmptyString => true
  | String c rest => (Z.of_N (Ascii.N_of_ascii c) <? 128) && asciiOnly rest
  end.

(** The text starts with characters of ASCII followed by a character
    above U+00FF: in UTF-8, a lead byte from 196 on. *)
Fixpoint leavesLatin1 (s : string) : bool :=
  match s with
  | EmptyString => false
  | String c rest =>
      let n := Z.of_N (Ascii.N_of_ascii c) in
      if n <? 128 then leavesLatin1 rest else 196 <=? n
  end.

End Sharing.

(** ** Counts and the order of the cards ([App.tsx], lines 1761, 2268,
    2362-2385, 2638) *)

Module CardDeck.
Import QuizMaster.

(** [Math.max(x, ...xs)] and [Math.min(x, ...xs)] on integers. *)
Definition Math_max (x : Z) (xs : list Z) : Z := foldl Z.max x xs.
Definition Math_min (x : Z) (xs : list Z) : Z := foldl Z.min x xs.

(** [clamp(n, min, max)] (line 1761): [Math.min] receives one argument, the
    [Math.max] of the three. Its two calls pass counts, which are integers. *)
Definition clamp (n min max : Z) : Z := Math_min (Math_max n [min; max]) [].

Definition is_digit (c : Ascii.ascii) : bool :=
  let n := Z.of_N (Ascii.N_of_ascii c) in (48 <=? n) && (n <=? 57).

(** [value.replace(/[^0-9]/g, '')] (line 2638): the digits of what was
    typed. *)
Definition digitsOnly (value : string) : string :=
  String.string_of_list_ascii (filter (fun c => is_digit c = true) (String.list_ascii_of_string value)).

(** [Number(s)] for a string of digits; the empty string is 0. The value
    is exact below 2^53, where every integer is a number. *)
Definition Number_of_digits (s : string) : Z :=
  foldl (fun acc c => 10 * acc + (Z.of_N (Ascii.N_of_ascii c) - 48)) 0
        (String.list_ascii_of_string s).

(** The [onBlur] of the field "Số lượng câu hỏi (1–20)" (line 2638):
    [setCount(clamp(Number(countInput) || 1, 1, 20))]. *)
Definition countOnBlur (countInput : string) : Z :=
  let n := Number_of_digits countInput in
  clamp (if n =? 0 then 1 else n) 1 20.

(** [const limit = clamp(pdfCardCount, 1, 20)] (line 2268). *)
Definition cardLimit (pdfCardCount : Z) : Z := clamp pdfCardCount 1 20.

(** [arr.splice(start, 1)] and [arr.splice(start, 0, item)], as the array
    they leave. A [start] past the end removes nothing, and inserts at the
    end. *)
Definition splice_remove {A : Type} (start : nat) (arr : list A) : list A :=
  delete start arr.

Definition splice_insert {A : Type} (start : nat) (item : A) (arr : list A) : list A :=
  (take start arr ++ item :: drop start arr)%list.

(** [handleCardDrop(e, dropIndex)] (lines 2371-2385): the cards and the
    dragged index after it. With a dragged index past the end
    [cards[draggedIndex]] is [undefined] and the new array would hold a slot
    that is no card: that case is [None]. *)
Definition handleCardDrop (dropIndex : nat) (draggedIndex : option nat)
    (cards : list Card) : option (list Card * option nat) :=
  match draggedIndex with
  | None => Some (cards, None)
  | Some dragged =>
      if decide (dragged = dropIndex) then Some (cards, None)
      else
        match cards !! dragged with
        | Some draggedItem =>
            let newCards := splice_remove dragged cards in
            let newCards := splice_insert dropIndex draggedItem newCards in
            Some (newCards, None)
        | None => None
        end
  end.

End CardDeck.

(** ** The memory game ([App.tsx], lines 575-646) *)

Module MemoryGame.

Record Card : Type := {
  id : nat;
  emoji : string;
  isFlipped : bool;
  isMatched : bool
}.

(** The state of the component (lines 584-588). *)
Record State : Type := {
  cards : list Card;
  flippedIndices : list nat;
  turns : nat;
  isChecking : bool;
  isGameOver : bool
}.

Definition EMOJIS : list string := ["🌳"; "🎋"; "🏮"; "🐔"; "💧"; "🌾"].

(** The cards [createShuffledCards] makes (lines 579-580), before it sorts
    them by a comparison that draws a random number at every call: the order
    that sort leaves is the platform's, some permutation of these cards. *)
Definition unshuffledCards : list Card :=
  imap (fun index emoji =>
          {| id := index; emoji := emoji; isFlipped := false; isMatched := false |})
       (EMOJIS ++ EMOJIS)%list.

(** The state of the first render, and [resetGame()] (lines 640-646), for
    the deck [createShuffledCards] returned. *)
Definition resetGame (deck : list Card) : State :=
  {| cards := deck; flippedIndices := []; turns := 0; isChecking := false;
     isGameOver := false |}.

Definition withFlipped (b : bool) (card : Card) : Card :=
  {| id := id card; emoji := emoji card; isFlipped := b; isMatched := isMatched card |}.

Definition matched (card : Card) : Card :=
  {| id := id card; emoji := emoji card; isFlipped := isFlipped card; isMatched := true |}.

(** [handleCardClick(index)] (lines 627-638): the state it sets, or [None]
    when the click is ignored and no state is set. *)
Definition handleCardClick (index : nat) (st : State) : outcome (option State) :=
  if isChecking st then Ok None
  else
    match cards st !! index with
    | None => Throw TypeError
    | Some card =>
        if isFlipped card || (2 <=? length (flippedIndices st))%nat then Ok None
        else
          Ok (Some {| cards := imap (fun i card =>
                                       if (i =? index)%nat then withFlipped true card
                                       else card)
                                    (cards st);
                      flippedIndices := (flippedIndices st ++ [index])%list;
                      turns := turns st;
                      isChecking := isChecking st;
                      isGameOver := isGameOver st |})
    end.

(** The effect that checks the two cards turned (lines 590-618): the state
    it sets and, for two cards that differ, the indices its timer keeps. *)
Definition checkEffect (st : State) : outcome (State * option (nat * nat)) :=
  match flippedIndices st with
  | [firstIndex; secondIndex] =>
      match cards st !! firstIndex, cards st !! secondIndex with
      | Some firstCard, Some secondCard =>
          if decide (emoji firstCard = emoji secondCard) then
            Ok ({| cards := map (fun card =>
                                   if decide (emoji card = emoji firstCard)
                                   then matched card else card)
                                (cards st);
                   flippedIndices := [];
                   turns := S (turns st);
                   isChecking := false;
                   isGameOver := isGameOver st |},
                None)
          else
            Ok ({| cards := cards st;
                   flippedIndices := flippedIndices st;
                   turns := S (turns st);
                   isChecking := true;
                   isGameOver := isGameOver st |},
                Some (firstIndex, secondIndex))
      | _, _ => Throw TypeError
      end
  | _ => Ok (st, None)
  end.

(** The callback of the timer (lines 606-614). *)
Definition timerCallback (firstIndex secondIndex : nat) (st : State) : State :=
  {| cards := imap (fun index card =>
                      if (index =? firstIndex)%nat || (index =? secondIndex)%nat
                      then withFlipped false card else card)
                   (cards st);
     flippedIndices := [];
     turns := turns st;
     isChecking := false;
     isGameOver := isGameOver st |}.

Definition matchedCount (cards : list Card) : nat :=
  length (filter (fun card => isMatched card = true) cards).

(** The effect that ends the game (lines 620-625). *)
Definition gameOverEffect (st : State) : State :=
  if (matchedCount (cards st) =? length (cards st))%nat && (0 <? length (cards st))%nat
  then {| cards := cards st; flippedIndices := flippedIndices st; turns := turns st;
          isChecking := isChecking st; isGameOver := true |}
  else st.

(** A game in progress: the state and the timers that have not fired. *)
Record Game : Type := {
  state : State;
  timers : list (nat * nat)
}.

Inductive Event : Type :=
  | Click (index : nat)
  | Timer (k : nat)
  | Reset (deck : list Card).

(** One event and the effects that follow the render it causes. The page
    is mounted with [createRoot] (line 3502), so what a handler, an effect
    or a timer sets is applied together, in one render. A click
    that sets no state causes no render. After a click that turns a card the
    checking effect runs, since [flippedIndices] has changed, and then, the
    cards having changed, the effect that ends the game; when the checking
    effect has itself set the cards, it runs once more and finds no two cards
    turned. [Timer k] is the firing of the timer at position [k] among those
    pending. *)
Definition step (g : Game) (e : Event) : outcome Game :=
  match e with
  | Click index =>
      r ← handleCardClick index (state g);
      match r with
      | None => Ok g
      | Some st =>
          c ← checkEffect st;
          Ok {| state := gameOverEffect c.1;
                timers := (timers g ++ option_list c.2)%list |}
      end
  | Timer k =>
      match timers g !! k with
      | Some (firstIndex, secondIndex) =>
          Ok {| state := gameOverEffect (timerCallback firstIndex secondIndex (state g));
                timers := delete k (timers g) |}
      | None => Ok g
      end
  | Reset deck => Ok {| state := resetGame deck; timers := timers g |}
  end.

Fixpoint run (g : Game) (events : list Event) : outcome Game :=
  match events with
  | [] => Ok g
  | e :: rest => g' ← step g e; run g' rest
  end.

Definition newGame (deck : list Card) : Game :=
  {| state := resetGame deck; timers := [] |}.

(** The events a player can cause on a board of [n] cards: a click is on
    a card of the board, and a new deck is a shuffle of the cards. *)
Definition playable (e : Event) : Prop :=
  match e with
  | Click index => (index < length unshuffledCards)%nat
  | Timer _ => True
  | Reset deck => deck ≡ₚ unshuffledCards
  end.

(** What holds of a game all along: the cards are the emojis dealt, the
    indices turned are at most two cards of the board, no more cards are
    matched than two for each turn, and a game that is over has all its cards
    matched. *)
Definition invariant (g : Game) : Prop :=
  map emoji (cards (state g)) ≡ₚ map emoji unshuffledCards
  /\ Forall (fun i => (i < length (cards (state g)))%nat) (flippedIndices (state g))
  /\ (length (flippedIndices (state g)) <= 2)%nat
  /\ (matchedCount (cards (state g)) <= 2 * turns (state g))%nat
  /\ (isGameOver (state g) = true ->
      matchedCount (cards (state g)) = length (cards (state g))).

(** A game of six lucky turns on the cards in the order they were made:
    the two cards of an emoji are six places apart. *)
Definition luckyEvents : list Event :=
  map Click [0; 6; 1; 7; 2; 8; 3; 9; 4; 10; 5; 11]%nat.

End MemoryGame.

(** ** The result screen of KidGenius ([App.tsx], lines 1353-1381) *)

Module ResultScreen.

(** [showUnlockMessage] (line 1359); [isViewingHistory] is
    [!!viewingHistoryEntry]. With the flag set the screen shows one of the
    two messages of lines 1372-1381, by [isFromPath]. *)
Definition showUnlockMessage (isViewingHistory : bool) (score : Z)
    (settings : Unlock.Settings) : bool :=
  negb isViewingHistory && (70 <=? score)
  && negb (bool_decide (Unlock.difficulty settings = "Khó")).

End ResultScreen.

(** ** The export of the cards as CSV ([App.tsx], lines 2330-2335) *)

Module Csv.
Import QuizMaster.

(** The [replace] of line 2332, whose pattern matches every double quote:
    each one is written twice. *)
Fixpoint doubleQuotes (s : string) : string :=
  match s with
  | EmptyString => EmptyString
  | String c rest =>
      if Ascii.eqb c (Ascii.ascii_of_nat 34)
      then String c (String c (doubleQuotes rest))
      else String c (doubleQuotes rest)
  end.

(** The line of a card (line 2332). *)
Definition csvLine (c : Card) : string :=
  dquote +:+ doubleQuotes (or_else (Some (front c)) "") +:+ dquote +:+ ","
  +:+ dquote +:+ doubleQuotes (or_else (Some (back c)) "") +:+ dquote +:+ ","
  +:+ dquote +:+ status_text (status c) +:+ dquote.

(** The text [exportCSV] puts in the file it offers for download. *)
Definition exportCSV (cards : list Card) : string :=
  let header := "front,back,status" +:+ newline in
  let body := String.concat newline (map csvLine cards) in
  header +:+ body.

(** What follows a quoted field does not start with a double quote. *)
Definition unquoted (r : string) : Prop :=
  match r with
  | String c _ => c <> Ascii.ascii_of_nat 34
  | EmptyString => True
  end.

End Csv.

(** ** Reading [localStorage] back ([App.tsx], lines 702-783, 1882-1930) *)

Module Persistence.

(** [localStorage]: the strings stored, by key. [getItem] of a key that is
    not there is [null]. *)
Abbreviation LocalStorage := (gmap string text).

(** [a || b] on values. *)
Definition or_value (v : option json) (d : json) : json :=
  match v with
  | Some x => if truthy v then x else d
  | None => d
  end.

(** The own enumerable properties of a value, as [{...v}] copies them. *)
Definition own_properties (v : json) : gmap string json :=
  match v with
  | JObj fields => list_to_map fields
  | JArr items => list_to_map (imap (fun i x => (pretty i, x)) items)
  | JStr s =>
      list_to_map
        (imap (fun i c => (pretty i, JStr (String c EmptyString))) (String.list_ascii_of_string s))
  | _ => ∅
  end.

Definition defaults : gmap string json :=
  list_to_map [("grade", JStr "Lớp 6"); ("subject", JStr "Toán");
               ("difficulty", JStr "Dễ"); ("topic", JStr "")].

(** The initializer of the [settings] state of KidGenius (lines 702-714). *)
Definition initialSettings (uid : string) (ls : LocalStorage) : gmap string json :=
  match ls !! ("kidGeniusSettings_" +:+ uid) with
  | Some saved =>
      if nonempty saved then
        match JSON_parse saved with
        | Ok v => own_properties v ∪ defaults
        | Throw _ => defaults
        end
      else defaults
  | None => defaults
  end.

(** The effect that loads the unlocked levels (lines 738-748): the
    [unlockedLevels] state and the storage after it. *)
Definition loadProgress (uid : string) (unlockedLevels : json) (ls : LocalStorage)
    : json * LocalStorage :=
  let key := "kidGeniusProgress_" +:+ uid in
  match ls !! key with
  | Some savedProgress =>
      if nonempty savedProgress then
        match JSON_parse savedProgress with
        | Ok v => (v, ls)
        | Throw _ => (unlockedLevels, delete key ls)
        end
      else (unlockedLevels, ls)
  | None => (unlockedLevels, ls)
  end.

(** [getItem(key)] read as [saved ? JSON.parse(saved) : otherwise]. *)
Definition parsedOr (otherwise : json) (saved : option text) : outcome json :=
  match saved with
  | Some t => if nonempty t then JSON_parse t else Ok otherwise
  | None => Ok otherwise
  end.

(** The effect that loads the learning path and the history (lines
    762-783): the [learningPath] and [quizHistory] states after it. *)
Definition loadPathAndHistory (uid grade subject : string) (ls : LocalStorage)
    : json * json :=
  let suffix := uid +:+ "_" +:+ grade +:+ "_" +:+ subject in
  match
    (learningPath ← parsedOr JNull (ls !! ("kidGeniusPath_" +:+ suffix));
     quizHistory ← parsedOr (JArr []) (ls !! ("kidGeniusHistory_" +:+ suffix));
     Ok (learningPath, quizHistory))
  with
  | Ok r => r
  | Throw _ => (JNull, JArr [])
  end.

(** [localStorage.getItem(key) || fallback] on strings. *)
Definition or_text (saved : option text) (fallback : text) : text :=
  match saved with
  | Some t => if nonempty t then t else fallback
  | None => fallback
  end.

(** The literals ['[]'] and ['{}'], with what they parse to. *)
Definition empty_array_text : text := Text "[]" (Ok (JArr [])).
Definition empty_object_text : text := Text "{}" (Ok (JObj [])).

(** The state the mount effect of QuizMaster sets; a field that was set to
    [undefined] is [None]. *)
Record Mounted : Type := {
  stage : option json;
  topic : option json;
  questions : option json;
  answers : option json;
  cards : option json;
  pdfName : option json;
  learningKit : option json;
  assignmentId : option json;
  assignments : option json;
  submissions : option json;
  hasSavedCards : bool
}.

(** [items.find(a => a.id === id)]. *)
Fixpoint findById (id : string) (items : list json) : outcome (option json) :=
  match items with
  | [] => Ok None
  | x :: rest =>
      i ← member (Some x) "id";
      match i with
      | Some (JStr s) => if decide (s = id) then Ok (Some x) else findById id rest
      | _ => findById id rest
      end
  end.

(** [allAssignments.find(...)]: a value that is no array has no [find]. *)
Definition findAssignment (id : string) (allAssignments : json) : outcome (option json) :=
  match allAssignments with
  | JArr items => findById id items
  | _ => Throw TypeError
  end.

(** The branch of the mount effect taken when the URL names an assignment
    (lines 1885-1897). *)
Definition mountAssignment (id : string) (st : Mounted) (ls : LocalStorage)
    : outcome (Mounted * LocalStorage * list string) :=
  allAssignments ← JSON_parse (or_text (ls !! "eduquiz:assignments") empty_array_text);
  assignment ← findAssignment id allAssignments;
  match assignment with
  | Some found =>
      t ← member (Some found) "topic";
      qs ← member (Some found) "questions";
      i ← member (Some found) "id";
      Ok ({| stage := Some (JStr "studentNameEntry");
             topic := t;
             questions := qs;
             answers := answers st;
             cards := cards st;
             pdfName := pdfName st;
             learningKit := learningKit st;
             assignmentId := i;
             assignments := assignments st;
             submissions := submissions st;
             hasSavedCards := hasSavedCards st |},
          ls, [])
  | None => Ok (st, ls, ["Không tìm thấy bài tập được giao."])
  end.

(** The [try] block that restores a session (lines 1908-1917). *)
Definition restoreSession (savedSession : text) (st : Mounted) : outcome Mounted :=
  sessionData ← JSON_parse savedSession;
  stage' ← member (Some sessionData) "stage";
  topic' ← member (Some sessionData) "topic";
  questions' ← member (Some sessionData) "questions";
  answers' ← member (Some sessionData) "answers";
  cards' ← member (Some sessionData) "cards";
  pdfName' ← member (Some sessionData) "pdfName";
  learningKit' ← member (Some sessionData) "learningKit";
  Ok {| stage := Some (or_value stage' (JStr "builder"));
        topic := Some (or_value topic' (JStr ""));
        questions := Some (or_value questions' (JArr []));
        answers := Some (or_value answers' (JObj []));
        cards := Some (or_value cards' (JArr []));
        pdfName := Some (or_value pdfName' (JStr ""));
        learningKit := Some (or_value learningKit' JNull);
        assignmentId := assignmentId st;
        assignments := assignments st;
        submissions := submissions st;
        hasSavedCards := hasSavedCards st |}.

Definition setHasSavedCards (b : bool) (st : Mounted) : Mounted :=
  {| stage := stage st; topic := topic st; questions := questions st;
     answers := answers st; cards := cards st; pdfName := pdfName st;
     learningKit := learningKit st; assignmentId := assignmentId st;
     assignments := assignments st; submissions := submissions st;
     hasSavedCards := b |}.

(** [!!localStorage.getItem(key)]. *)
Definition present (saved : option text) : bool :=
  match saved with
  | Some t => nonempty t
  | None => false
  end.

(** The rest of the mount effect (lines 1899-1929). *)
Definition mountPlain (confirmed : bool) (st : Mounted) (ls : LocalStorage)
    : outcome (Mounted * LocalStorage * list string) :=
  savedAssignments ← JSON_parse (or_text (ls !! "eduquiz:assignments") empty_array_text);
  savedSubmissions ← JSON_parse (or_text (ls !! "eduquiz:submissions") empty_object_text);
  let st :=
    {| stage := stage st; topic := topic st; questions := questions st;
       answers := answers st; cards := cards st; pdfName := pdfName st;
       learningKit := learningKit st; assignmentId := assignmentId st;
       assignments := Some savedAssignments; submissions := Some savedSubmissions;
       hasSavedCards := hasSavedCards st |} in
  let finish (ls : LocalStorage) :=
    Ok (setHasSavedCards (present (ls !! "eduquiz:saved_cards")) st, ls, []) in
  match ls !! "eduquiz:session" with
  | Some savedSession =>
      if nonempty savedSession then
        if confirmed then
          match restoreSession savedSession st with
          | Ok st' => Ok (st', ls, [])
          | Throw _ => finish (delete "eduquiz:session" ls)
          end
        else finish (delete "eduquiz:session" ls)
      else finish ls
  | None => finish ls
  end.

(** The mount effect of [QuizMasterApp] (lines 1882-1930).
    [assignmentIdFromUrl] is [urlParams.get('assignment')] and [confirmed]
    the answer to [window.confirm]. The result is the state, the storage and
    the alerts shown, or the exception that leaves the effect. *)
Definition mountEffect (assignmentIdFromUrl : option string) (confirmed : bool)
    (st : Mounted) (ls : LocalStorage)
    : outcome (Mounted * LocalStorage * list string) :=
  match assignmentIdFromUrl with
  | Some id =>
      if negb (bool_decide (id = "")) then mountAssignment id st ls
      else mountPlain confirmed st ls
  | None => mountPlain confirmed st ls
  end.

(** The storage of the failing read: the assignments hold a text that is
    no JSON. *)
Definition corruptAssignments : LocalStorage :=
  {[ "eduquiz:assignments" := Text "{oops" (Throw SyntaxError) ]}.

End Persistence.

(** ** Writing [localStorage] ([App.tsx], lines 1938-1946, 2428-2441) *)

Module Session.
Import Persistence.

(** The text [JSON.stringify] writes for a value. *)
Fixpoint stringify (v : json) : string :=
  match v with
  | JNull => "null"
  | JBool true => "true"
  | JBool false => "false"
  | JNum n => pretty n
  | JStr s => QuizMaster.stringify_string s
  | JArr items => "[" +:+ String.concat "," (map stringify items) +:+ "]"
  | JObj fields =>
      "{" +:+
      String.concat ","
        (map (fun kv => QuizMaster.stringify_string kv.1 +:+ ":" +:+ stringify kv.2) fields)
      +:+ "}"
  end.

(** [JSON.stringify(v)] as a text: [JSON.parse] reads it back as [v]. *)
Definition JSON_stringify (v : json) : text := Text (stringify v) (Ok v).

(** An object literal whose values may be [undefined]; [JSON.stringify]
    leaves those properties out. *)
Definition object (properties : list (string * option json)) : json :=
  JObj (omap (fun kv => pair kv.1 <$> kv.2) properties).

(** [['learningKit', 'review', 'quiz', 'cards', 'share'].includes(stage)]. *)
Definition isProgressStage (stage : option json) : bool :=
  match stage with
  | Some (JStr s) =>
      bool_decide (s ∈ ["learningKit"; "review"; "quiz"; "cards"; "share"])
  | _ => false
  end.

(** The effect that saves the session (lines 1938-1946). *)
Definition saveSession (st : Mounted) (ls : LocalStorage) : LocalStorage :=
  if isProgressStage (stage st) && negb (truthy (assignmentId st)) then
    let sessionData :=
      object [("stage", stage st); ("topic", topic st); ("questions", questions st);
              ("answers", answers st); ("cards", cards st); ("pdfName", pdfName st);
              ("learningKit", learningKit st)] in
    <["eduquiz:session" := JSON_stringify sessionData]> ls
  else ls.

(** [[...assignments]]: the items of an array, the characters of a string
    (exact on ASCII text); any other value is not iterable. *)
Definition spread (v : option json) : outcome (list json) :=
  match v with
  | Some (JArr items) => Ok items
  | Some (JStr s) =>
      Ok (map (fun c => JStr (String c EmptyString)) (String.list_ascii_of_string s))
  | _ => Throw TypeError
  end.

(** [handleAssignQuiz()] (lines 2428-2441); [id] is
    [Date.now().toString(36)] and [createdAt] is [new Date().toISOString()]. *)
Definition handleAssignQuiz (id createdAt : string) (st : Mounted) (ls : LocalStorage)
    : outcome (Mounted * LocalStorage) :=
  let newAssignment :=
    object [("id", Some (JStr id));
            ("topic", Some (or_value (topic st) (JStr "Bài tập không có chủ đề")));
            ("questions", questions st);
            ("createdAt", Some (JStr createdAt))] in
  items ← spread (assignments st);
  let updatedAssignments := JArr (items ++ [newAssignment]) in
  Ok ({| stage := Some (JStr "share");
         topic := topic st;
         questions := questions st;
         answers := answers st;
         cards := cards st;
         pdfName := pdfName st;
         learningKit := learningKit st;
         assignmentId := Some (JStr id);
         assignments := Some updatedAssignments;
         submissions := submissions st;
         hasSavedCards := hasSavedCards st |},
      <["eduquiz:assignments" := JSON_stringify updatedAssignments]> ls).

(** The state of [QuizMasterApp] at its first render (lines 1823-1871). *)
Definition firstRender : Mounted :=
  {| stage := Some (JStr "builder");
     topic := Some (JStr "");
     questions := Some (JArr []);
     answers := Some (JObj []);
     cards := Some (JArr []);
     pdfName := Some (JStr "");
     learningKit := Some JNull;
     assignmentId := Some (JStr "");
     assignments := Some (JArr []);
     submissions := Some (JObj []);
     hasSavedCards := false |}.

(** The state as the component types it: a string, arrays, objects. *)
Definition sessionTyped (st : Mounted) : Prop :=
  (exists t, topic st = Some (JStr t))
  /\ (exists qs, questions st = Some (JArr qs))
  /\ (exists a, answers st = Some (JObj a))
  /\ (exists cs, cards st = Some (JArr cs))
  /\ (exists p, pdfName st = Some (JStr p))
  /\ (learningKit st = Some JNull \/ exists k, learningKit st = Some (JObj k)).

(** A teacher at work on a set of two cards, for the examples. *)
Definition atWork : Mounted :=
  {| stage := Some (JStr "cards");
     topic := Some (JStr "Phân số");
     questions := Some (JArr []);
     answers := Some (JObj []);
     cards := Some (JArr [JObj [("front", JStr "1/2 + 1/2"); ("back", JStr "1");
                                ("status", JStr "new")];
                          JObj [("front", JStr "1/4 + 1/4"); ("back", JStr "1/2");
                                ("status", JStr "mastered")]]);
     pdfName := Some (JStr "");
     learningKit := Some JNull;
     assignmentId := Some (JStr "");
     assignments := Some (JArr []);
     submissions := Some (JObj []);
     hasSavedCards := false |}.

End Session.

(** * Properties *)

(** ** The progression policy *)

Module UnlockFacts.
Import Unlock.

#[local] Arguments difficultyOrder : simpl never.
#[local] Arguments lt : simpl never.
#[local] Arguments gt : simpl never.
#[local] Arguments or_else : simpl never.

Lemma lt_irrefl (a : option Z) : lt a a = false.
Proof. destruct a as [x|]; unfold lt; [apply Z.ltb_irrefl | reflexivity]. Qed.

Lemma or_else_nonempty (s d : string) : s <> "" -> or_else (Some s) d = s.
Proof. intros Hs. unfold or_else. destruct (decide (s = "")); congruence. Qed.

(** What the updater leaves under the pair it is applied to. *)
Lemma updater_written (g s next : string) (p : Progress) :
  next <> "" ->
  gt (difficultyOrder next) (difficultyOrder (highestUnlocked p g s)) = true ->
  updater g s (Some next) p =
    (<[g := <[s := next]> (default ∅ (p !! g))]> p,
     Some (<[g := <[s := next]> (default ∅ (p !! g))]> p)).
Proof.
  intros Hne Hgt. unfold updater, highestUnlocked in *.
  destruct (p !! g) as [m|] eqn:Hg; simpl in *.
  - rewrite Hg. simpl. rewrite Hgt, bool_decide_eq_false_2 by done. reflexivity.
  - rewrite lookup_insert_eq. simpl. rewrite lookup_empty.
    rewrite Hgt, bool_decide_eq_false_2 by done. simpl.
    rewrite insert_insert_eq. reflexivity.
Qed.

Lemma updater_kept (g s : string) (next : option string) (p : Progress) (m : gmap string string) :
  p !! g = Some m ->
  match next with
  | Some n => negb (bool_decide (n = "")) &&
              gt (difficultyOrder n) (difficultyOrder (highestUnlocked p g s)) = false
  | None => True
  end ->
  updater g s next p = (p, None).
Proof.
  intros Hg Hc. unfold updater, highestUnlocked in *. rewrite Hg in *. cbn zeta.
  rewrite Hg. destruct next as [n|]; [|reflexivity]. rewrite Hc. reflexivity.
Qed.

(** Applied to its own result, the updater changes nothing and stores
    nothing. *)
Lemma updater_again (g s : string) (next : option string) (p : Progress) :
  updater g s next (updater g s next p).1 = ((updater g s next p).1, None).
Proof.
  assert (Hsame : forall (q : Progress) (n : string),
             n <> "" ->
             negb (bool_decide (n = "")) &&
             gt (difficultyOrder n)
                (difficultyOrder
                   (highestUnlocked (<[g:=<[s:=n]> (default ∅ (q !! g))]> q) g s)) = false).
  { intros q n Hn. unfold highestUnlocked. rewrite lookup_insert_eq.
    cbn [mbind option_bind]. rewrite lookup_insert_eq, or_else_nonempty by done.
    unfold gt. rewrite lt_irrefl. apply andb_false_r. }
  destruct (p !! g) as [m|] eqn:Hg.
  - (* the grade has an entry *)
    destruct next as [n|]; [|rewrite (updater_kept g s None p m Hg I); cbn [fst];
       by rewrite (updater_kept g s None p m Hg I)].
    destruct (negb (bool_decide (n = "")) &&
              gt (difficultyOrder n) (difficultyOrder (highestUnlocked p g s))) eqn:Hc.
    + apply andb_true_iff in Hc as [Hn Hgt].
      apply negb_true_iff, bool_decide_eq_false in Hn.
      rewrite (updater_written g s n p Hn Hgt). cbn [fst].
      eapply updater_kept; [apply lookup_insert_eq | by apply Hsame].
    + rewrite (updater_kept g s (Some n) p m Hg Hc). cbn [fst].
      by rewrite (updater_kept g s (Some n) p m Hg Hc).
  - (* the grade has none: an empty one is created first *)
    assert (He : forall nx, updater g s nx p = updater g s nx (<[g:=∅]> p)).
    { intros nx. unfold updater. rewrite Hg. cbn zeta. by rewrite !lookup_insert_eq. }
    rewrite (He next).
    pose proof (lookup_insert_eq p g (∅ : gmap string string)) as Hg'.
    destruct next as [n|]; [|rewrite (updater_kept g s None _ ∅ Hg' I); cbn [fst];
       by rewrite (updater_kept g s None _ ∅ Hg' I)].
    destruct (negb (bool_decide (n = "")) &&
              gt (difficultyOrder n)
                 (difficultyOrder (highestUnlocked (<[g:=∅]> p) g s))) eqn:Hc.
    + apply andb_true_iff in Hc as [Hn Hgt].
      apply negb_true_iff, bool_decide_eq_false in Hn.
      rewrite (updater_written g s n _ Hn Hgt). cbn [fst].
      eapply updater_kept; [apply lookup_insert_eq | by apply Hsame].
    + rewrite (updater_kept g s (Some n) _ ∅ Hg' Hc). cbn [fst].
      by rewrite (updater_kept g s (Some n) _ ∅ Hg' Hc).
Qed.

Lemma unlock_effect_unfold (st : State) :
  unlock_effect st =
    if bool_decide (stage st = result) && (70 <=? score st)
       && lt (difficultyOrder (difficulty (settings st))) (Some 3)
    then setUnlockedLevels
           (updater (grade (settings st)) (subject (settings st))
                    (findNext (difficultyOrder (difficulty (settings st))))) st
    else st.
Proof.
  unfold unlock_effect.
  destruct (bool_decide (stage st = result) && (70 <=? score st)); [|reflexivity].
  cbn zeta. by destruct (lt _ _).
Qed.

Lemma policy_unfold (g s d : string) (sc : Z) (p : Progress) :
  policy g s d sc p =
    if (70 <=? sc) && lt (difficultyOrder d) (Some 3)
    then (updater g s (findNext (difficultyOrder d)) p).1
    else p.
Proof.
  unfold policy. rewrite unlock_effect_unfold. cbn [stage score settings difficulty grade subject].
  rewrite bool_decide_eq_true_2 by done. cbn [andb].
  destruct ((70 <=? sc) && lt (difficultyOrder d) (Some 3)); [|reflexivity].
  reflexivity.
Qed.

Lemma findNext_order (i : option Z) (n : string) :
  findNext i = Some n -> difficultyOrder n = (fun k => k + 1) <$> i.
Proof.
  unfold findNext. intros H. apply find_some in H as [_ H].
  by apply bool_decide_eq_true in H.
Qed.

(** The three shapes of the policy's result. *)
Lemma policy_cases (g s d : string) (sc : Z) (p : Progress) :
  policy g s d sc p = p
  \/ (p !! g = None /\ policy g s d sc p = <[g:=∅]> p)
  \/ (exists n, findNext (difficultyOrder d) = Some n /\ 70 <= sc /\
                gt (difficultyOrder n) (difficultyOrder (highestUnlocked p g s)) = true /\
                n <> "" /\
                policy g s d sc p = <[g:=<[s:=n]> (default ∅ (p !! g))]> p).
Proof.
  rewrite policy_unfold.
  destruct ((70 <=? sc) && lt (difficultyOrder d) (Some 3)) eqn:Hc; [|by left].
  apply andb_true_iff in Hc as [Hsc _]. apply Z.leb_le in Hsc.
  destruct (findNext (difficultyOrder d)) as [n|] eqn:Hn.
  - destruct (negb (bool_decide (n = "")) &&
              gt (difficultyOrder n) (difficultyOrder (highestUnlocked p g s))) eqn:Hw.
    + apply andb_true_iff in Hw as [Hne Hgt].
      apply negb_true_iff, bool_decide_eq_false in Hne.
      right; right. exists n. rewrite (updater_written g s n p Hne Hgt). done.
    + destruct (p !! g) as [m|] eqn:Hg.
      * left. by rewrite (updater_kept g s (Some n) p m Hg Hw).
      * right; left. split; [done|]. unfold updater. rewrite Hg. cbn zeta.
        rewrite lookup_insert_eq. cbn [mbind option_bind]. rewrite lookup_empty.
        unfold highestUnlocked in Hw. rewrite Hg in Hw. cbn [mbind option_bind] in Hw.
        by rewrite Hw.
  - destruct (p !! g) as [m|] eqn:Hg.
    + left. by rewrite (updater_kept g s None p m Hg I).
    + right; left. split; [done|]. unfold updater. by rewrite Hg.
Qed.

(** Under any pair the highest unlocked tier stays, or it is the pair the
    policy was applied to and its tier rises. *)
Lemma highestUnlocked_policy (g s d : string) (sc : Z) (p : Progress) (g' s' : string) :
  highestUnlocked (policy g s d sc p) g' s' = highestUnlocked p g' s'
  \/ (g' = g /\ s' = s /\
      lt (difficultyOrder (highestUnlocked p g s))
         (difficultyOrder (highestUnlocked (policy g s d sc p) g s)) = true).
Proof.
  destruct (policy_cases g s d sc p) as [-> | [[Hg ->] | (n & _ & _ & Hgt & Hne & ->)]].
  - by left.
  - left. unfold highestUnlocked. destruct (decide (g' = g)) as [->|Hgg].
    + rewrite lookup_insert_eq, Hg. cbn [mbind option_bind]. by rewrite lookup_empty.
    + by rewrite lookup_insert_ne.
  - destruct (decide (g' = g)) as [->|Hgg].
    + destruct (decide (s' = s)) as [->|Hss].
      * right. split; [done|]. split; [done|].
        unfold highestUnlocked at 2. rewrite lookup_insert_eq. cbn [mbind option_bind].
        by rewrite lookup_insert_eq, or_else_nonempty.
      * left. unfold highestUnlocked. rewrite lookup_insert_eq. cbn [mbind option_bind].
        rewrite lookup_insert_ne by done.
        destruct (p !! g) as [m|]; cbn [default mbind option_bind]; [done|].
        by rewrite lookup_empty.
    + left. unfold highestUnlocked. by rewrite lookup_insert_ne.
Qed.

(** C2. The unlock policy is idempotent: applied twice with the same grade,
    subject, difficulty just played and score, it gives the mapping it gives
    applied once (so does the effect on the whole state, storage included);
    and the entry of the pair is either left as it was or set to the next
    tier, which then ranks strictly above the tier unlocked before. *)
Theorem unlock_policy_idempotent :
  (forall (g s d : string) (sc : Z) (p : Progress),
      policy g s d sc (policy g s d sc p) = policy g s d sc p)
  /\ (forall st : State, unlock_effect (unlock_effect st) = unlock_effect st)
  /\ (forall (g s d : string) (sc : Z) (p : Progress),
        policy g s d sc p !! g ≫= (fun m => m !! s) = p !! g ≫= (fun m => m !! s)
        \/ exists n,
             policy g s d sc p !! g ≫= (fun m => m !! s) = Some n
             /\ 70 <= sc
             /\ difficultyOrder n = (fun i => i + 1) <$> difficultyOrder d
             /\ gt (difficultyOrder n) (difficultyOrder (highestUnlocked p g s)) = true).
Proof.
  split; [|split].
  - intros g s d sc p. rewrite !policy_unfold.
    destruct ((70 <=? sc) && lt (difficultyOrder d) (Some 3)); [|reflexivity].
    by rewrite updater_again.
  - intros st. rewrite (unlock_effect_unfold (unlock_effect st)).
    rewrite (unlock_effect_unfold st).
    destruct (bool_decide (stage st = result) && (70 <=? score st)
              && lt (difficultyOrder (difficulty (settings st))) (Some 3)) eqn:Hc;
      [|by rewrite Hc].
    unfold setUnlockedLevels. cbn [stage score settings unlockedLevels savedProgress].
    rewrite Hc, updater_again. reflexivity.
  - intros g s d sc p.
    destruct (policy_cases g s d sc p) as [-> | [[Hg ->] | (n & Hn & Hsc & Hgt & Hne & ->)]].
    + by left.
    + left. rewrite lookup_insert_eq, Hg. cbn [mbind option_bind]. by rewrite lookup_empty.
    + right. exists n. rewrite lookup_insert_eq. cbn [mbind option_bind].
      rewrite lookup_insert_eq. pose proof (findNext_order _ _ Hn). done.
Qed.

(** C3. Under every application of the unlock policy the highest unlocked
    difficulty of every (grade, subject) pair stays as it was or rises in
    [difficultyOrder]: it never falls. A score below 70 leaves the mapping
    as it was. *)
Theorem unlock_never_relocks :
  forall (g s d : string) (sc : Z) (p : Progress),
    (forall g' s' : string,
        highestUnlocked (policy g s d sc p) g' s' = highestUnlocked p g' s'
        \/ lt (difficultyOrder (highestUnlocked p g' s'))
              (difficultyOrder (highestUnlocked (policy g s d sc p) g' s')) = true)
    /\ (sc < 70 -> policy g s d sc p = p).
Proof.
  intros g s d sc p. split.
  - intros g' s'.
    destruct (highestUnlocked_policy g s d sc p g' s') as [-> | (-> & -> & Hlt)];
      [by left | by right].
  - intros Hsc. rewrite policy_unfold. apply Z.leb_gt in Hsc. by rewrite Hsc.
Qed.

(** The scenario of the specification: grade "Lớp 6", subject "Toán",
    difficulty "Dễ". A score of 80 unlocks "Trung bình", and so does the
    same result played again. *)
Lemma unlock_policy_idempotent_witness :
  highestUnlocked (policy "Lớp 6" "Toán" "Dễ" 80 ∅) "Lớp 6" "Toán" = "Trung bình"
  /\ policy "Lớp 6" "Toán" "Dễ" 80 (policy "Lớp 6" "Toán" "Dễ" 80 ∅)
     = policy "Lớp 6" "Toán" "Dễ" 80 ∅.
Proof.
  split; [vm_compute; reflexivity|].
  exact (proj1 unlock_policy_idempotent "Lớp 6" "Toán" "Dễ" 80 ∅).
Defined.

(** A score of 40 after it leaves "Trung bình" unlocked. *)
Lemma unlock_never_relocks_witness :
  policy "Lớp 6" "Toán" "Dễ" 40 (policy "Lớp 6" "Toán" "Dễ" 80 ∅)
  = policy "Lớp 6" "Toán" "Dễ" 80 ∅
  /\ highestUnlocked (policy "Lớp 6" "Toán" "Dễ" 40 (policy "Lớp 6" "Toán" "Dễ" 80 ∅))
       "Lớp 6" "Toán" = "Trung bình".
Proof.
  split.
  - apply (proj2 (unlock_never_relocks "Lớp 6" "Toán" "Dễ" 40
                    (policy "Lớp 6" "Toán" "Dễ" 80 ∅))). lia.
  - vm_compute. reflexivity.
Defined.

End UnlockFacts.

(** ** The status of a card *)

Module CardFacts.
Import QuizMaster.

Lemma updateCardStatus_lookup (i : Z) (s : CardStatus) (cards : list Card) (j : nat) :
  updateCardStatus i s cards !! j =
    (fun c => if Z.of_nat j =? i
              then {| front := front c; back := back c; status := s |}
              else c) <$> cards !! j.
Proof. unfold updateCardStatus. apply list_lookup_imap. Qed.

(** C10. [updateCardStatus(index, status)] changes the status of the card
    at that index and nothing else: the list keeps its length and its order,
    every card keeps its front and back text, and every other card keeps its
    status. *)
Theorem updateCardStatus_frame :
  forall (i : Z) (s : CardStatus) (cards : list Card),
    length (updateCardStatus i s cards) = length cards
    /\ map front (updateCardStatus i s cards) = map front cards
    /\ map back (updateCardStatus i s cards) = map back cards
    /\ (forall j : nat, Z.of_nat j <> i ->
          updateCardStatus i s cards !! j = cards !! j)
    /\ (forall (j : nat) (c : Card), Z.of_nat j = i -> cards !! j = Some c ->
          updateCardStatus i s cards !! j
          = Some {| front := front c; back := back c; status := s |}).
Proof.
  intros i s cards. repeat split.
  - unfold updateCardStatus. apply length_imap.
  - apply list_eq. intros j. rewrite !list_lookup_fmap, updateCardStatus_lookup.
    destruct (cards !! j) as [c|]; [|reflexivity]. cbn. by destruct (Z.of_nat j =? i).
  - apply list_eq. intros j. rewrite !list_lookup_fmap, updateCardStatus_lookup.
    destruct (cards !! j) as [c|]; [|reflexivity]. cbn. by destruct (Z.of_nat j =? i).
  - intros j Hj. rewrite updateCardStatus_lookup. apply Z.eqb_neq in Hj. rewrite Hj.
    by destruct (cards !! j).
  - intros j c Hj Hc. rewrite updateCardStatus_lookup, Hc. cbn.
    apply Z.eqb_eq in Hj. by rewrite Hj.
Qed.

(** The second of the four sample cards is marked as needing review. *)
Lemma updateCardStatus_frame_witness :
  updateCardStatus 1 needs_review sampleDeck !! 1%nat
  = Some {| front := "b"; back := "B"; status := needs_review |}
  /\ updateCardStatus 1 needs_review sampleDeck !! 2%nat = sampleDeck !! 2%nat.
Proof.
  split.
  - apply (proj2 (proj2 (proj2 (proj2 (updateCardStatus_frame 1 needs_review sampleDeck))))
             1%nat {| front := "b"; back := "B"; status := mastered |});
      reflexivity.
  - apply (proj1 (proj2 (proj2 (proj2 (updateCardStatus_frame 1 needs_review sampleDeck))))
             2%nat). lia.
Defined.

End CardFacts.

(** ** Sharing a set of cards *)

Module ShareFacts.
Import QuizMaster.

(** A text of ASCII characters has its own bytes as code points. *)
Example latin1_ascii : latin1 "Hi" = Some [72; 105].
Proof. reflexivity. Qed.

Example btoa_Man : btoa "Man" = Ok "TWFu".
Proof. reflexivity. Qed.

(** A set whose texts are in Latin-1 gets its link. *)
Example shareSet_latin1 :
  shareSet "http://h" "/p" [{| front := "Hello"; back := "World!"; status := new |}]
  = Ok "http://h/p?shared_set=W3siZnJvbnQiOiJIZWxsbyIsImJhY2siOiJXb3JsZCEifV0=".
Proof. vm_compute. reflexivity. Qed.

(** The text [exportJSON] writes for the card the "add" button creates. *)
Example exportJSON_addedCard :
  exportJSON [addedCard]
  = "[" +:+ newline
    +:+ "  {" +:+ newline
    +:+ "    " +:+ dquote +:+ "front" +:+ dquote +:+ ": "
    +:+ dquote +:+ "Mặt trước mới" +:+ dquote +:+ "," +:+ newline
    +:+ "    " +:+ dquote +:+ "back" +:+ dquote +:+ ": "
    +:+ dquote +:+ "Mặt sau mới" +:+ dquote +:+ "," +:+ newline
    +:+ "    " +:+ dquote +:+ "status" +:+ dquote +:+ ": "
    +:+ dquote +:+ "new" +:+ dquote +:+ newline
    +:+ "  }" +:+ newline +:+ "]".
Proof. vm_compute. reflexivity. Qed.

(** C7 (the code departs from it). The link for a set that holds the card
    the "add" button creates is never built: [btoa] throws on its text. *)
Theorem shareSet_added_card_throws :
  forall origin pathname : string,
    shareSet origin pathname [addedCard] = Throw InvalidCharacterError.
Proof. intros origin pathname. reflexivity. Qed.

End ShareFacts.

(** ** Reading the storage back *)

Module PersistenceFacts.
Import Persistence.

(** A key that is missing, or holds the empty string, or holds a text that
    does not parse, gives the default settings. *)
Lemma initialSettings_default (uid : string) (ls : LocalStorage) :
  match ls !! ("kidGeniusSettings_" +:+ uid) with
  | Some saved => nonempty saved = false \/ exists e, parsed saved = Throw e
  | None => True
  end ->
  initialSettings uid ls = defaults.
Proof.
  unfold initialSettings, JSON_parse.
  destruct (ls !! _) as [saved|]; [|done].
  intros [-> | [e ->]]; [done|]. by destruct (nonempty saved).
Qed.

(** A progress text that does not parse leaves the state as it was and is
    removed from the storage. *)
Lemma loadProgress_corrupt (uid : string) (u : json) (ls : LocalStorage) (t : text) (e : exception) :
  ls !! ("kidGeniusProgress_" +:+ uid) = Some t ->
  nonempty t = true ->
  parsed t = Throw e ->
  loadProgress uid u ls = (u, delete ("kidGeniusProgress_" +:+ uid) ls).
Proof.
  intros Hk Hn Hp. unfold loadProgress, JSON_parse. cbv zeta. by rewrite Hk, Hn, Hp.
Qed.

Lemma loadProgress_missing (uid : string) (u : json) (ls : LocalStorage) :
  ls !! ("kidGeniusProgress_" +:+ uid) = None ->
  loadProgress uid u ls = (u, ls).
Proof. intros Hk. unfold loadProgress. cbv zeta. by rewrite Hk. Qed.

(** A path or a history that does not parse gives no path and an empty
    history. *)
Lemma loadPathAndHistory_corrupt (uid grade subject : string) (ls : LocalStorage) :
  (exists e, parsedOr JNull
               (ls !! ("kidGeniusPath_" +:+ (uid +:+ "_" +:+ grade +:+ "_" +:+ subject)))
             = Throw e)
  \/ (exists e, parsedOr (JArr [])
                  (ls !! ("kidGeniusHistory_" +:+ (uid +:+ "_" +:+ grade +:+ "_" +:+ subject)))
                = Throw e) ->
  loadPathAndHistory uid grade subject ls = (JNull, JArr []).
Proof.
  unfold loadPathAndHistory. cbv zeta. intros [[e ->] | [e ->]]; [done|].
  by destruct (parsedOr JNull _).
Qed.

(** A session that does not parse is dropped: the effect goes on and the
    key is removed. *)
Lemma mountPlain_corrupt_session (st : Mounted) (ls : LocalStorage) (t : text) (e : exception) :
  ls !! "eduquiz:assignments" = None ->
  ls !! "eduquiz:submissions" = None ->
  ls !! "eduquiz:session" = Some t ->
  nonempty t = true ->
  parsed t = Throw e ->
  exists st',
    mountPlain true st ls = Ok (st', delete "eduquiz:session" ls, [])
    /\ stage st' = stage st /\ cards st' = cards st
    /\ assignments st' = Some (JArr []) /\ submissions st' = Some (JObj []).
Proof.
  intros Ha Hs Hk Hn Hp. unfold mountPlain. rewrite Ha, Hs, Hk, Hn.
  unfold restoreSession, JSON_parse. rewrite Hp. cbn.
  eexists. split; [reflexivity|]. done.
Qed.

(** C9 (the code departs from it). With a text that does not parse under
    [eduquiz:assignments], the mount effect of QuizMaster ends with the
    [SyntaxError] of [JSON.parse], whether or not the URL names an
    assignment: no default is used. *)
Theorem mountEffect_corrupt_assignments_throws :
  forall (confirmed : bool) (st : Mounted),
    mountEffect None confirmed st corruptAssignments = Throw SyntaxError
    /\ mountEffect (Some "abc") confirmed st corruptAssignments = Throw SyntaxError.
Proof. intros confirmed st. split; reflexivity. Qed.

(** X8. The reads that are guarded fall back: the settings of KidGenius are
    the defaults when the key is missing or holds a text that does not
    parse, and a progress text that does not parse leaves the unlocked levels
    as they were and is removed. *)
Theorem guarded_reads_fall_back :
  forall (uid : string) (ls : LocalStorage),
    (ls !! ("kidGeniusSettings_" +:+ uid) = None -> initialSettings uid ls = defaults)
    /\ (forall t e, ls !! ("kidGeniusSettings_" +:+ uid) = Some t -> parsed t = Throw e ->
          initialSettings uid ls = defaults)
    /\ (forall u, ls !! ("kidGeniusProgress_" +:+ uid) = None ->
          loadProgress uid u ls = (u, ls))
    /\ (forall u t e, ls !! ("kidGeniusProgress_" +:+ uid) = Some t ->
          nonempty t = true -> parsed t = Throw e ->
          loadProgress uid u ls = (u, delete ("kidGeniusProgress_" +:+ uid) ls)).
Proof.
  intros uid ls. split; [|split; [|split]].
  - intros H. apply initialSettings_default. by rewrite H.
  - intros t e H Ht. apply initialSettings_default. rewrite H. right. by exists e.
  - intros u H. by apply loadProgress_missing.
  - intros u t e H Hn Ht. by eapply loadProgress_corrupt.
Qed.

Lemma guarded_reads_fall_back_witness :
  initialSettings "u1" {[ "kidGeniusSettings_u1" := Text "{oops" (Throw SyntaxError) ]}
  = defaults.
Proof.
  apply (proj1 (proj2 (guarded_reads_fall_back "u1"
                         {[ "kidGeniusSettings_u1" := Text "{oops" (Throw SyntaxError) ]}))
           (Text "{oops" (Throw SyntaxError)) SyntaxError); reflexivity.
Defined.

End PersistenceFacts.

(** ** Generating the quiz of KidGenius *)

Module GenerationFacts.
Import KidGenius.

Lemma generation_throw (apiKey : option string) (fromPath : bool) (reply : Reply)
    (st : State) (e : exception) :
  generatedQuestions apiKey reply = Throw e ->
  failedWith st (generateKidGeniusQuiz apiKey fromPath reply st).
Proof.
  intros H. unfold generateKidGeniusQuiz. rewrite H. unfold failedWith. cbn.
  repeat split; try reflexivity. by exists e.
Qed.

Lemma generation_ok (apiKey : option string) (fromPath : bool) (reply : Reply)
    (st : State) (items : list json) :
  generatedQuestions apiKey reply = Ok items ->
  generateKidGeniusQuiz apiKey fromPath reply st
  = {| stage := Unlock.quiz; settings := settings st; questions := items;
       userAnswers := ∅; currentQuestionIndex := 0; score := 0;
       selectedAnswer := None; showFeedback := false; isLoading := false;
       error := NoError; isFromPath := fromPath; aiTutorFeedback := JNull;
       isFeedbackLoading := isFeedbackLoading st; quizHistory := quizHistory st;
       savedHistory := savedHistory st |}.
Proof. intros H. unfold generateKidGeniusQuiz. by rewrite H. Qed.

(** C4, the claim as stated fails: a reply that does not match the schema
    but is a non-empty array starts the quiz. *)
Lemma generation_accepts_schema_mismatch :
  matches_responseSchema (JArr [JObj []]) = false
  /\ stage (generateKidGeniusQuiz (Some "key") false emptyObjectReply initial) = Unlock.quiz
  /\ questions (generateKidGeniusQuiz (Some "key") false emptyObjectReply initial) = [JObj []]
  /\ error (generateKidGeniusQuiz (Some "key") false emptyObjectReply initial) = NoError.
Proof. repeat split. Qed.

(** C4, amended. Quiz generation fails, showing the error and leaving the
    stage, the questions, the answers, the index and the score as they were,
    when the key is missing, the call is rejected, the response has no text,
    the text is not JSON, or it parses to something that is no array or to
    an empty array. A text that parses to a non-empty array starts the quiz
    with these items as the questions, whatever the items are. *)
Theorem generation_failure_keeps_state :
  forall (apiKey : option string) (fromPath : bool) (st : State),
    (forall reply, missing apiKey = true ->
        failedWith st (generateKidGeniusQuiz apiKey fromPath reply st))
    /\ (forall e, failedWith st (generateKidGeniusQuiz apiKey fromPath (Rejected e) st))
    /\ failedWith st (generateKidGeniusQuiz apiKey fromPath (Replied None) st)
    /\ (forall t e, parsed t = Throw e ->
          failedWith st (generateKidGeniusQuiz apiKey fromPath (Replied (Some t)) st))
    /\ (forall t v, parsed t = Ok v -> as_array v = None ->
          failedWith st (generateKidGeniusQuiz apiKey fromPath (Replied (Some t)) st))
    /\ (forall t, parsed t = Ok (JArr []) ->
          failedWith st (generateKidGeniusQuiz apiKey fromPath (Replied (Some t)) st))
    /\ (forall t x items, missing apiKey = false -> parsed t = Ok (JArr (x :: items)) ->
          stage (generateKidGeniusQuiz apiKey fromPath (Replied (Some t)) st) = Unlock.quiz
          /\ questions (generateKidGeniusQuiz apiKey fromPath (Replied (Some t)) st)
             = x :: items
          /\ score (generateKidGeniusQuiz apiKey fromPath (Replied (Some t)) st) = 0
          /\ userAnswers (generateKidGeniusQuiz apiKey fromPath (Replied (Some t)) st) = ∅
          /\ currentQuestionIndex (generateKidGeniusQuiz apiKey fromPath (Replied (Some t)) st)
             = 0%nat).
Proof.
  intros apiKey fromPath st.
  assert (Hfail : forall reply,
             (exists e, generatedQuestions apiKey reply = Throw e) ->
             failedWith st (generateKidGeniusQuiz apiKey fromPath reply st)).
  { intros reply [e He]. by eapply generation_throw. }
  split; [|split; [|split; [|split; [|split; [|split]]]]].
  - intros reply Hk. apply Hfail. unfold generatedQuestions. rewrite Hk. by eexists.
  - intros e. apply Hfail. unfold generatedQuestions. destruct (missing apiKey); by eexists.
  - apply Hfail. unfold generatedQuestions. destruct (missing apiKey); by eexists.
  - intros t e Ht. apply Hfail. unfold generatedQuestions, JSON_parse. rewrite Ht.
    destruct (missing apiKey); by eexists.
  - intros t v Ht Hv. apply Hfail. unfold generatedQuestions, JSON_parse. rewrite Ht.
    cbn. rewrite Hv. destruct (missing apiKey); by eexists.
  - intros t Ht. apply Hfail. unfold generatedQuestions, JSON_parse. rewrite Ht.
    destruct (missing apiKey); by eexists.
  - intros t x items Hk Ht.
    rewrite (generation_ok apiKey fromPath _ st (x :: items)); [done|].
    unfold generatedQuestions, JSON_parse. by rewrite Hk, Ht.
Qed.

(** C5, the claim as stated fails: the generator's question is taken with
    an answer index that is no index into its options. *)
Lemma generation_accepts_stray_index :
  matches_quizSchema strayIndex = true
  /\ validAnswerIndex strayIndex = false
  /\ stage (generateKidGeniusQuiz (Some "key") false strayIndexReply initial) = Unlock.quiz
  /\ questions (generateKidGeniusQuiz (Some "key") false strayIndexReply initial)
     = [strayIndex].
Proof. repeat split. Qed.

(** A reply that parses to the empty list fails and leaves the setup
    stage; a reply with five questions starts the quiz. *)
Lemma generation_failure_keeps_state_witness :
  failedWith initial
    (generateKidGeniusQuiz (Some "key") false
       (Replied (Some (Text "[]" (Ok (JArr []))))) initial)
  /\ stage (generateKidGeniusQuiz (Some "key") false
              (Replied (Some (Text "[]" (Ok (JArr []))))) initial) = Unlock.setup
  /\ questions (generateKidGeniusQuiz (Some "key") false
                  (Replied (Some (Text "[...]" (Ok (JArr fiveQuestions))))) initial)
     = fiveQuestions.
Proof.
  pose proof (generation_failure_keeps_state (Some "key") false initial)
    as (_ & _ & _ & _ & _ & Hempty & Hitems).
  split; [|split].
  - apply Hempty. reflexivity.
  - apply (Hempty (Text "[]" (Ok (JArr [])))). reflexivity.
  - apply (Hitems (Text "[...]" (Ok (JArr fiveQuestions)))); reflexivity.
Defined.

(** X7. A learning path is taken only when the reply parses to an array of
    exactly four entries; with any other array the error is shown and the
    path, in the state and in the storage, is left as it was. *)
Theorem learning_path_needs_four_entries :
  forall (apiKey : option string) (t : text) (items : list json) (st : PathState),
    missing apiKey = false ->
    parsed t = Ok (JArr items) ->
    (length items = 4%nat ->
       learningPath (generateLearningPath apiKey (Replied (Some t)) st) = JArr items
       /\ savedPath (generateLearningPath apiKey (Replied (Some t)) st) = Some items
       /\ pathError (generateLearningPath apiKey (Replied (Some t)) st) = NoError)
    /\ (length items <> 4%nat ->
          learningPath (generateLearningPath apiKey (Replied (Some t)) st) = learningPath st
          /\ savedPath (generateLearningPath apiKey (Replied (Some t)) st) = savedPath st
          /\ pathError (generateLearningPath apiKey (Replied (Some t)) st)
             = Failed "Không thể tạo lộ trình. Vui lòng thử lại. Lỗi: "
                 (Error "AI không trả về lộ trình hợp lệ.")).
Proof.
  intros apiKey t items st Hk Ht.
  unfold generateLearningPath, generatedPath, JSON_parse. rewrite Hk, Ht.
  cbn [mbind outcome_bind as_array]. split.
  - intros Hlen. by rewrite Hlen.
  - intros Hlen. apply Nat.eqb_neq in Hlen. by rewrite Hlen.
Qed.

Lemma learning_path_needs_four_entries_witness :
  learningPath
    (generateLearningPath (Some "key")
       (Replied (Some (Text "[...]" (Ok (JArr threeQuestions)))))
       {| learningPath := JNull; pathError := NoError; pathLoading := false;
          savedPath := None |})
  = JNull.
Proof.
  apply (learning_path_needs_four_entries (Some "key")
           (Text "[...]" (Ok (JArr threeQuestions))) threeQuestions
           {| learningPath := JNull; pathError := NoError; pathLoading := false;
              savedPath := None |} eq_refl eq_refl).
  discriminate.
Defined.

End GenerationFacts.

(** ** Questions made from cards *)

Module CardQuizFacts.
Import QuizMaster.

Lemma insert_by_perm {A : Type} (compare : A -> A -> float) (x : A) (l : list A) :
  insert_by compare x l ≡ₚ x :: l.
Proof.
  induction l as [|y rest IH]; cbn [insert_by]; [done|].
  destruct (compare y x <? 0)%float; [|done].
  rewrite IH. apply Permutation_swap.
Qed.

Lemma sort_by_perm {A : Type} (compare : A -> A -> float) (l : list A) :
  sort_by compare l ≡ₚ l.
Proof.
  induction l as [|x l IH]; [done|].
  unfold sort_by in *. cbn [foldr]. by rewrite insert_by_perm, IH.
Qed.

(** A shuffle is a rearrangement, and draws one number per element. *)
Lemma shuffle_perm {A : Type} (random : nat -> float) (arr : list A) (n : nat) :
  (shuffle random arr n).1 ≡ₚ arr.
Proof.
  unfold shuffle. cbn [fst]. rewrite sort_by_perm.
  replace (map snd (imap (fun i x => (random (n + i)%nat, x)) arr)) with arr; [done|].
  apply list_eq. intros i.
  rewrite list_lookup_fmap, list_lookup_imap. by destruct (arr !! i).
Qed.

Lemma shuffle_draws {A : Type} (random : nat -> float) (arr : list A) (n : nat) :
  (shuffle random arr n).2 = (n + length arr)%nat.
Proof. reflexivity. Qed.

Lemma indexOf_elem (x : string) (arr : list string) :
  x ∈ arr ->
  0 <= indexOf x arr < Z.of_nat (length arr)
  /\ arr !! Z.to_nat (indexOf x arr) = Some x.
Proof.
  induction arr as [|y rest IH]; intros Hx; [by apply elem_of_nil in Hx|].
  cbn [indexOf length]. destruct (decide (y = x)) as [->|Hne].
  - split; [lia | reflexivity].
  - apply elem_of_cons in Hx as [->|Hx]; [done|].
    destruct (IH Hx) as [Hr Hl].
    rewrite (proj2 (Z.ltb_ge _ _)) by lia.
    split; [lia|].
    replace (Z.to_nat (indexOf x rest + 1)) with (S (Z.to_nat (indexOf x rest))) by lia.
    exact Hl.
Qed.

Lemma makeQuestion_madeFrom (random : nat -> float) (cards : list Card) (i : nat)
    (correct : Card) (n : nat) :
  madeFrom cards correct (makeQuestion random cards i correct n).1.
Proof.
  unfold madeFrom, makeQuestion. cbn [fst q opts a]. split; [reflexivity|].
  exists (take 3 (shuffle random (filter (fun c => front c <> front correct) cards) n).1).
  split; [|split; [|split]].
  - etrans; [apply submseteq_take|]. by rewrite shuffle_perm.
  - by rewrite length_take, (Permutation_length (shuffle_perm _ _ _)).
  - apply shuffle_perm.
  - reflexivity.
Qed.

Lemma makeQuestions_madeFrom (random : nat -> float) (cards chosen : list Card) (i n : nat) :
  Forall2 (madeFrom cards) chosen (makeQuestions random cards i chosen n).1.
Proof.
  revert i n. induction chosen as [|correct rest IH]; intros i n; cbn [makeQuestions fst].
  - constructor.
  - constructor; [apply makeQuestion_madeFrom | apply IH].
Qed.

(** The questions of [makeMCFromCards], card by card. *)
Lemma makeMCFromCards_madeFrom (random : nat -> float) (cards : list Card) (count n : nat) :
  exists chosen : list Card,
    chosen ⊆+ cards
    /\ length chosen = Nat.min count (length cards)
    /\ Forall2 (madeFrom cards) chosen (makeMCFromCards random cards count n).1.
Proof.
  unfold makeMCFromCards. cbv zeta.
  set (pool := (shuffle random cards n).1).
  assert (Hpool : pool ≡ₚ cards) by apply shuffle_perm.
  exists (take (count `min` length pool) pool). split; [|split].
  - etrans; [apply submseteq_take|]. by rewrite Hpool.
  - rewrite length_take, (Permutation_length Hpool). lia.
  - apply makeQuestions_madeFrom.
Qed.

(** A question made from a card has its answer among its options, at the
    card's back. *)
Lemma madeFrom_valid (cards : list Card) (correct : Card) (question : Question) :
  madeFrom cards correct question ->
  0 <= a question < Z.of_nat (length (opts question))
  /\ opts question !! Z.to_nat (a question) = Some (back correct).
Proof.
  intros (_ & distractors & _ & _ & Hopts & ->).
  apply indexOf_elem. rewrite Hopts. apply elem_of_cons. by left.
Qed.

Lemma makeMCFromCards_min (random : nat -> float) (deck : list Card) (k n : nat) :
  makeMCFromCards random deck (Nat.min k (length deck)) n = makeMCFromCards random deck k n.
Proof.
  unfold makeMCFromCards. cbv zeta.
  rewrite (Permutation_length (shuffle_perm random deck n)).
  by replace (Nat.min (Nat.min k (length deck)) (length deck))
    with (Nat.min k (length deck)) by lia.
Qed.

(** C5, amended. Every question made from flashcards has an answer that is
    an index into its options, and the option there is the back of the card
    whose front the question asks. The questions of the content generator
    are kept as they were received: a non-empty array becomes the list of
    questions, with no look at [correctAnswerIndex]. *)
Theorem questions_from_cards_valid :
  forall (random : nat -> float) (deck : list Card) (k n : nat),
    Forall (fun question =>
              0 <= a question < Z.of_nat (length (opts question))
              /\ exists correct : Card,
                   correct ∈ deck
                   /\ q question = front correct
                   /\ opts question !! Z.to_nat (a question) = Some (back correct))
           (makeMCFromCards random deck k n).1
    /\ (forall (apiKey : option string) (fromPath : bool) (t : text) (x : json)
               (items : list json) (st : KidGenius.State),
          KidGenius.missing apiKey = false ->
          parsed t = Ok (JArr (x :: items)) ->
          KidGenius.questions
            (KidGenius.generateKidGeniusQuiz apiKey fromPath (KidGenius.Replied (Some t)) st)
          = x :: items).
Proof.
  intros random deck k n. split.
  - destruct (makeMCFromCards_madeFrom random deck k n) as (chosen & Hsub & _ & Hall).
    eapply Forall2_Forall_r; [exact Hall|].
    apply Forall_forall. intros correct Hin question Hmade.
    split; [by eapply madeFrom_valid|].
    exists correct. split; [by eapply elem_of_submseteq|].
    split; [apply Hmade | by eapply madeFrom_valid].
  - intros apiKey fromPath t x items st Hk Ht.
    unfold KidGenius.generateKidGeniusQuiz, KidGenius.generatedQuestions, JSON_parse.
    by rewrite Hk, Ht.
Qed.

(** C6. [makeMCFromCards(subset, count)] makes [min(count, number of
    cards)] questions, one per card of a choice of that many cards of the
    subset; each asks the front of its card and offers the card's back with
    the backs of up to three other cards, no card used twice: three when
    there are that many, all of them otherwise. [useCardsToQuiz] stops with
    an alert when no card matches, and otherwise stores these questions for
    the matching cards. The functions are total: nothing is thrown. *)
Theorem cards_to_quiz_bounded :
  forall (random : nat -> float) (n : nat),
    (forall (deck : list Card) (k : nat),
        length (makeMCFromCards random deck k n).1 = Nat.min k (length deck)
        /\ exists chosen : list Card,
             chosen ⊆+ deck
             /\ Forall2 (madeFrom deck) chosen (makeMCFromCards random deck k n).1)
    /\ (forall st : State,
          (cardPool st = [] ->
             exists message, useCardsToQuiz random st n = (st, n, [message]))
          /\ (cardPool st <> [] ->
               (useCardsToQuiz random st n).1.1.(stage) = "characterSelection"
               /\ length (questions (useCardsToQuiz random st n).1.1)
                  = Nat.min (count st) (length (cardPool st))
               /\ exists chosen : list Card,
                    chosen ⊆+ cardPool st
                    /\ Forall2 (madeFrom (cardPool st)) chosen
                         (questions (useCardsToQuiz random st n).1.1))).
Proof.
  intros random n.
  assert (Hmake : forall (deck : list Card) (k : nat),
             length (makeMCFromCards random deck k n).1 = Nat.min k (length deck)
             /\ exists chosen : list Card,
                  chosen ⊆+ deck
                  /\ Forall2 (madeFrom deck) chosen (makeMCFromCards random deck k n).1).
  { intros deck k.
    destruct (makeMCFromCards_madeFrom random deck k n) as (chosen & Hsub & Hlen & Hall).
    split; [|by exists chosen].
    by rewrite <- (Forall2_length _ _ _ Hall). }
  split; [exact Hmake|].
  intros st. unfold useCardsToQuiz. cbv zeta. split.
  - intros ->. cbn. by eexists.
  - intros Hne. destruct (cardPool st) as [|c pool] eqn:Hpool; [done|].
    cbn [length Nat.eqb fst questions stage].
    change (S (length pool)) with (length (c :: pool)).
    rewrite makeMCFromCards_min.
    destruct (Hmake (c :: pool) (count st)) as [Hlen Hchosen]. done.
Qed.

(** The scenario of the specification: four cards and a count of five give
    four questions. *)
Lemma cards_to_quiz_bounded_witness :
  length (makeMCFromCards sampleRandom sampleDeck 5 0).1 = 4%nat
  /\ exists message,
       useCardsToQuiz sampleRandom allMastered 0 = (allMastered, 0%nat, [message]).
Proof.
  split.
  - exact (proj1 (proj1 (cards_to_quiz_bounded sampleRandom 0) sampleDeck 5%nat)).
  - apply (proj1 (proj2 (cards_to_quiz_bounded sampleRandom 0) _)). reflexivity.
Defined.

(** The questions made from the four sample cards have their answer among
    their options. *)
Lemma questions_from_cards_valid_witness :
  Forall (fun question =>
            0 <= a question < Z.of_nat (length (opts question))
            /\ exists correct : Card,
                 correct ∈ sampleDeck
                 /\ q question = front correct
                 /\ opts question !! Z.to_nat (a question) = Some (back correct))
         (makeMCFromCards sampleRandom sampleDeck 5 0).1
  /\ KidGenius.questions
       (KidGenius.generateKidGeniusQuiz (Some "key") false
          (KidGenius.Replied (Some (Text "[...]" (Ok (JArr KidGenius.fiveQuestions)))))
          KidGenius.initial)
     = KidGenius.fiveQuestions.
Proof.
  split.
  - exact (proj1 (questions_from_cards_valid sampleRandom sampleDeck 5 0)).
  - apply (proj2 (questions_from_cards_valid sampleRandom sampleDeck 5 0)
             (Some "key") false (Text "[...]" (Ok (JArr KidGenius.fiveQuestions))));
      reflexivity.
Defined.

(** X5. [shuffle] rearranges: its result has the elements of its argument,
    each as often, and it draws one number per element. *)
Theorem shuffle_rearranges :
  forall (A : Type) (random : nat -> float) (arr : list A) (n : nat),
    (shuffle random arr n).1 ≡ₚ arr
    /\ (shuffle random arr n).2 = (n + length arr)%nat.
Proof. intros A random arr n. split; [apply shuffle_perm | apply shuffle_draws]. Qed.

(** X6. The cards that are not mastered and the mastered cards make up the
    whole set, with no card in both. *)
Theorem notMastered_and_mastered_partition :
  forall st : State,
    quizFromCardsStrategy st = notMastered ->
    (cardPool st ++ filter (fun c => status c = mastered) (cards st))%list ≡ₚ cards st
    /\ Forall (fun c => status c <> mastered) (cardPool st)
    /\ Forall (fun c => c ∉ cardPool st) (filter (fun c => status c = mastered) (cards st)).
Proof.
  intros st Hs. unfold cardPool. rewrite Hs. split; [|split].
  - rewrite Permutation_app_comm. apply (filter_app_complement _ (cards st)).
  - apply Forall_forall. intros c Hc. by apply list_elem_of_filter in Hc as [Hc _].
  - apply Forall_forall. intros c Hc Hc'.
    apply list_elem_of_filter in Hc as [Hc _].
    by apply list_elem_of_filter in Hc' as [Hc' _].
Qed.

Lemma notMastered_and_mastered_partition_witness :
  (cardPool allMastered ++ filter (fun c => status c = mastered) (cards allMastered))%list
  ≡ₚ cards allMastered.
Proof.
  exact (proj1 (notMastered_and_mastered_partition allMastered eq_refl)).
Defined.

End CardQuizFacts.

(** ** The feedback of the tutor *)

Module FeedbackFacts.
Import KidGenius.

(** On a question the screen can show, the description is [null] for a
    right answer and a non-empty text for any other; nothing is thrown. *)
Lemma wrongAnswerInfo_renderable (ua : gmap nat Z) (q : json) (i : nat) :
  renderable q = true ->
  (answeredRight ua q i = true /\ wrongAnswerInfo ua q i = Ok None)
  \/ (answeredRight ua q i = false
      /\ exists s, s <> "" /\ wrongAnswerInfo ua q i = Ok (Some s)).
Proof.
  destruct q as [| | | | |fields]; try discriminate.
  unfold renderable, answeredRight, wrongAnswerInfo, index.
  cbn [member property mbind outcome_bind].
  destruct (assoc "options" fields) as [[| | | |options|]|]; try discriminate.
  intros _. cbv zeta. cbn [member mbind outcome_bind].
  destruct (ua !! i) as [n|]; cbn [mbind outcome_bind];
    match goal with |- context [negb ?b] => destruct b end; cbn [negb];
    try (by left); right; (split; [done|]); eexists;
    (split; [|reflexivity]); intros H; simpl in H; discriminate H.
Qed.

Lemma filterBoolean_null (l : list (option string)) :
  filterBoolean (None :: l) = filterBoolean l.
Proof. reflexivity. Qed.

Lemma filterBoolean_text (s : string) (l : list (option string)) :
  s <> "" -> filterBoolean (Some s :: l) = s :: filterBoolean l.
Proof. intros Hs. unfold filterBoolean. cbn. by destruct (decide (s = "")). Qed.

(** The mapped list has one entry per question, [null] exactly at the
    right answers. *)
Lemma wrongAnswersFrom_renderable (ua : gmap nat Z) (qs : list json) (i : nat) :
  Forall (fun q => renderable q = true) qs ->
  exists l,
    wrongAnswersFrom ua i qs = Ok l
    /\ (filterBoolean l = [] <->
        forall (j : nat) (q : json), qs !! j = Some q -> answeredRight ua q (i + j) = true).
Proof.
  intros Hall. revert i. induction Hall as [|q qs Hq _ IH]; intros i.
  - exists []. split; [reflexivity|]. split; [by intros _ j q Hj | reflexivity].
  - destruct (IH (S i)) as (l & Hl & Hiff). cbn [wrongAnswersFrom]. rewrite Hl.
    destruct (wrongAnswerInfo_renderable ua q i Hq) as [[Hr ->] | (Hr & s & Hs & ->)];
      cbn [mbind outcome_bind].
    + exists (None :: l). split; [reflexivity|].
      rewrite filterBoolean_null, Hiff. split.
      * intros H [|j] q' Hj.
        -- cbn in Hj. injection Hj as <-. by rewrite Nat.add_0_r.
        -- cbn in Hj. rewrite <- Nat.add_succ_comm. by apply H.
      * intros H j q' Hj. rewrite Nat.add_succ_comm. by apply (H (S j)).
    + exists (Some s :: l). split; [reflexivity|].
      rewrite filterBoolean_text by done.
      split; [intros Hnil; discriminate Hnil|].
      intros H. specialize (H 0%nat q eq_refl). rewrite Nat.add_0_r in H. congruence.
Qed.

(** For the questions of a completed attempt the list of wrong answers is
    computed, and it is empty exactly when every recorded answer is right. *)
Lemma wrongAnswersInfo_renderable (qs : list json) (ua : gmap nat Z) :
  Forall (fun q => renderable q = true) qs ->
  exists wrong,
    wrongAnswersInfo qs ua = Ok wrong
    /\ (wrong = [] <->
        forall (j : nat) (q : json), qs !! j = Some q -> answeredRight ua q j = true).
Proof.
  intros Hall. destruct (wrongAnswersFrom_renderable ua qs 0 Hall) as (l & Hl & Hiff).
  exists (filterBoolean l). unfold wrongAnswersInfo. rewrite Hl. by split.
Qed.

(** Without a key [runWithApiKey] does not run its callback. *)
Lemma runWithApiKey_runs {A : Type} (apiKey : option string) (callback x : A) :
  runWithApiKey apiKey callback = Ok x -> missing apiKey = false /\ x = callback.
Proof. unfold runWithApiKey. destruct (missing apiKey); [done|]. by intros [= ->]. Qed.

(** The test of the code (line 967) is on the number 100. With no wrong
    answer and a score of 100 or more, the feedback is the fixed
    congratulation, whatever the key and whatever the service would answer,
    and no request is sent. In every other case of a completed attempt, run
    with a key as [runWithApiKey] ensures, one request is sent, carrying the
    score and the wrong answers, and the feedback is what the service
    answered (the apology when the call or the parsing fails). *)
Lemma feedback_is_fixed_from_100 :
  forall (apiKey : option string) (now : string) (reply : Reply) (f : Finished)
         (st : State),
    (wrongAnswersInfo (finalQuestions f) (finalUserAnswers f) = Ok [] ->
     100 <= finalScore f ->
       (generateAITutorFeedback apiKey now reply f st).2 = []
       /\ aiTutorFeedback (generateAITutorFeedback apiKey now reply f st).1 = celebration
       /\ forall (apiKey' : option string) (reply' : Reply),
            generateAITutorFeedback apiKey' now reply' f st
            = generateAITutorFeedback apiKey now reply f st)
    /\ (Forall (fun q => renderable q = true) (finalQuestions f) ->
        exists wrong,
          wrongAnswersInfo (finalQuestions f) (finalUserAnswers f) = Ok wrong
          /\ (wrong = [] <->
              forall (j : nat) (q : json),
                finalQuestions f !! j = Some q ->
                answeredRight (finalUserAnswers f) q j = true)
          /\ (wrong <> [] \/ finalScore f < 100 ->
              missing apiKey = false ->
                (generateAITutorFeedback apiKey now reply f st).2
                = [{| rq_score := finalScore f; rq_wrongAnswers := wrong |}]
                /\ aiTutorFeedback (generateAITutorFeedback apiKey now reply f st).1
                   = match reply with
                     | Replied (Some t) =>
                         match parsed t with
                         | Ok v => v
                         | Throw _ => apology
                         end
                     | _ => apology
                     end))
    /\ (forall (A : Type) (callback x : A),
          runWithApiKey apiKey callback = Ok x -> missing apiKey = false /\ x = callback).
Proof.
  intros apiKey now reply f st. split; [|split].
  - intros Hw Hs.
    assert (Hfix : forall k r, feedbackTry k r f = (Ok celebration, [])).
    { intros k r. unfold feedbackTry. rewrite Hw. cbn [length Nat.eqb andb].
      by rewrite (proj2 (Z.leb_le _ _) Hs). }
    unfold generateAITutorFeedback. cbv zeta. rewrite (Hfix apiKey reply).
    split; [done|]. split; [done|]. intros k r. by rewrite (Hfix k r).
  - intros Hall.
    destruct (wrongAnswersInfo_renderable _ (finalUserAnswers f) Hall) as (wrong & Hw & Hiff).
    exists wrong. split; [done|]. split; [done|]. intros Hother Hkey.
    assert (Htry : feedbackTry apiKey reply f
                   = (match reply with
                      | Rejected e => Throw e
                      | Replied None => Throw TypeError
                      | Replied (Some t) => JSON_parse t
                      end,
                      [{| rq_score := finalScore f; rq_wrongAnswers := wrong |}])).
    { unfold feedbackTry. rewrite Hw, Hkey.
      destruct Hother as [Hne | Hlt].
      - destruct wrong; [done|]. reflexivity.
      - rewrite (proj2 (Z.leb_gt _ _) Hlt). by rewrite andb_false_r. }
    unfold generateAITutorFeedback. cbv zeta. rewrite Htry. cbn [fst snd aiTutorFeedback].
    split; [done|]. unfold JSON_parse.
    destruct reply as [e|[t|]]; [done| |done]. by destruct (parsed t).
  - intros A callback x. apply runWithApiKey_runs.
Qed.

(** Five right answers out of five: the congratulation, and no request,
    even without a key. Four out of five: one request with the wrong
    answer. *)
Example feedback_of_five_questions :
  ((generateAITutorFeedback None "2025-01-01T00:00:00.000Z" (Rejected TypeError)
      perfectAttempt initial).2 = []
   /\ aiTutorFeedback
        (generateAITutorFeedback None "2025-01-01T00:00:00.000Z" (Rejected TypeError)
           perfectAttempt initial).1 = celebration)
  /\ exists wrong,
       wrong <> []
       /\ (generateAITutorFeedback (Some "key") "2025-01-01T00:00:00.000Z"
             (Replied (Some (Text "{}" (Ok (JObj [])))))
             flawedAttempt initial).2
          = [{| rq_score := 80; rq_wrongAnswers := wrong |}].
Proof.
  split.
  - destruct (proj1 (feedback_is_fixed_from_100 None "2025-01-01T00:00:00.000Z"
                       (Rejected TypeError) perfectAttempt initial))
      as (Hnone & Hfixed & _); [vm_compute; reflexivity | cbn; lia |].
    split; [exact Hnone | exact Hfixed].
  - destruct (proj1 (proj2 (feedback_is_fixed_from_100 (Some "key")
                              "2025-01-01T00:00:00.000Z"
                              (Replied (Some (Text "{}" (Ok (JObj [])))))
                              flawedAttempt initial)))
      as (wrong & Hwrong & Hiff & Hsent); [repeat constructor|].
    exists wrong. split.
    + intros ->. vm_compute in Hwrong. discriminate Hwrong.
    + apply Hsent; [right; cbn; lia | reflexivity].
Defined.

End FeedbackFacts.

(** ** The score of an attempt *)

Module ScoreFacts.

(** *** KidGenius: twenty points a question *)

Section KidGenius.
Import KidGenius.

(** A right answer followed by "next": twenty points more, and the quiz
    moves to the next question or, after the last one, to the result. *)
Lemma answerAndNext_right (st : State) (q : json) (c : Z) :
  showFeedback st = false ->
  questions st !! currentQuestionIndex st = Some q ->
  rightAnswer q c ->
  exists st',
    answerAndNext c st = Ok st'
    /\ score st' = score st + 20
    /\ questions st' = questions st
    /\ showFeedback st' = false
    /\ (if Z.of_nat (currentQuestionIndex st) <? Z.of_nat (length (questions st)) - 1
        then currentQuestionIndex st' = S (currentQuestionIndex st) /\ stage st' = stage st
        else stage st' = Unlock.result).
Proof.
  intros Hf Hq Hc. unfold answerAndNext, handleAnswerSelect. rewrite Hf, Hq.
  unfold rightAnswer in Hc. rewrite Hc. cbn [mbind outcome_bind strict_eq].
  rewrite Z.eqb_refl. eexists. split; [reflexivity|].
  unfold handleNext. cbn [fst score questions showFeedback currentQuestionIndex stage].
  repeat split; try reflexivity.
  destruct (Z.of_nat (currentQuestionIndex st) <? Z.of_nat (length (questions st)) - 1);
    [split; [lia | reflexivity] | reflexivity].
Qed.

Lemma attempt_right_from (qs : list json) (cs : list Z) :
  Forall2 rightAnswer qs cs ->
  forall (pre : list json) (st : State),
    qs <> [] ->
    questions st = (pre ++ qs)%list ->
    currentQuestionIndex st = length pre ->
    showFeedback st = false ->
    exists st',
      attempt cs st = Ok st'
      /\ score st' = score st + 20 * Z.of_nat (length qs)
      /\ questions st' = questions st
      /\ stage st' = Unlock.result.
Proof.
  induction 1 as [|q c qs cs Hqc Hall IH]; intros pre st Hne Hqs Hi Hf; [done|].
  destruct (answerAndNext_right st q c Hf) as (st1 & Hst1 & Hs1 & Hq1 & Hf1 & Hnext);
    [by rewrite Hqs, Hi, list_lookup_middle | done |].
  cbn [attempt]. rewrite Hst1. cbn [mbind outcome_bind].
  rewrite Hqs, Hi, length_app in Hnext. cbn [length] in Hnext.
  destruct qs as [|q' qs].
  - apply Forall2_nil_inv_l in Hall as ->.
    cbn [length] in Hnext. rewrite (proj2 (Z.ltb_ge _ _)) in Hnext by lia.
    exists st1. cbn [attempt]. split; [reflexivity|].
    split; [rewrite Hs1; cbn [length]; lia|]. by split.
  - cbn [length] in Hnext. rewrite (proj2 (Z.ltb_lt _ _)) in Hnext by lia.
    destruct Hnext as [Hi1 _].
    destruct (IH (pre ++ [q])%list st1) as (st' & Hst' & Hs' & Hq' & Hr'); [done | | | done |].
    + by rewrite Hq1, Hqs, <- app_assoc.
    + rewrite Hi1, length_app. cbn [length]. lia.
    + exists st'. split; [done|]. split; [|split; [congruence | done]].
      rewrite Hs', Hs1. cbn [length]. lia.
Qed.

(** Every answer adds 20 or nothing. *)
Lemma answerAndNext_bound (st st' : State) (c : Z) :
  answerAndNext c st = Ok st' -> score st <= score st' <= score st + 20.
Proof.
  unfold answerAndNext, handleAnswerSelect.
  destruct (showFeedback st).
  - cbn [mbind outcome_bind]. intros [= <-]. cbn [fst handleNext score]. lia.
  - destruct (member _ _) as [v|e]; [|done]. cbn [mbind outcome_bind].
    intros [= <-]. cbn [fst handleNext score].
    match goal with |- _ <= (if ?b then _ else _) <= _ => destruct b end; lia.
Qed.

Lemma attempt_bound (cs : list Z) (st st' : State) :
  attempt cs st = Ok st' -> score st' <= score st + 20 * Z.of_nat (length cs).
Proof.
  revert st. induction cs as [|c cs IH]; intros st; cbn [attempt].
  - intros [= <-]. cbn [length]. lia.
  - destruct (answerAndNext c st) as [st1|e] eqn:H1; [|done]. cbn [mbind outcome_bind].
    intros H. apply IH in H. apply answerAndNext_bound in H1. cbn [length]. lia.
Qed.

(** The top score of a quiz of KidGenius is twenty times the number of its
    questions: it is reached by the right answers and never exceeded. *)
Lemma top_score_of_reply (apiKey : option string) (fromPath : bool) (t : text)
    (q : json) (qs : list json) (cs : list Z) (st : State) :
  missing apiKey = false ->
  parsed t = Ok (JArr (q :: qs)) ->
  Forall2 rightAnswer (q :: qs) cs ->
  (exists st',
     attempt cs (generateKidGeniusQuiz apiKey fromPath (Replied (Some t)) st) = Ok st'
     /\ stage st' = Unlock.result
     /\ score st' = 20 * Z.of_nat (length (q :: qs)))
  /\ (forall (cs' : list Z) (st' : State),
        length cs' = length (q :: qs) ->
        attempt cs' (generateKidGeniusQuiz apiKey fromPath (Replied (Some t)) st) = Ok st' ->
        score st' <= 20 * Z.of_nat (length (q :: qs))).
Proof.
  intros Hk Ht Hall.
  assert (Hgen : generatedQuestions apiKey (Replied (Some t)) = Ok (q :: qs)).
  { unfold generatedQuestions, JSON_parse. by rewrite Hk, Ht. }
  rewrite (GenerationFacts.generation_ok _ fromPath _ st _ Hgen). split.
  - match goal with
    | |- context [attempt cs ?s] =>
        destruct (attempt_right_from (q :: qs) cs Hall [] s)
          as (st' & Hst' & Hs' & _ & Hr'); [done | reflexivity | reflexivity | reflexivity |]
    end.
    exists st'. split; [exact Hst'|]. split; [done|]. rewrite Hs'. cbn [score]. lia.
  - intros cs' st' Hlen Hst'. apply attempt_bound in Hst'. cbn [score] in Hst'.
    rewrite Hlen in Hst'. lia.
Qed.

(** C1 (the code departs from it). The service answers with three
    questions that match the schema; the quiz starts with them; the three
    right answers end the attempt with a score of 60, and no three answers
    score more: the top score is 60, not 100. *)
Theorem kidgenius_three_questions_top_score :
  matches_responseSchema (JArr threeQuestions) = true
  /\ questions (generateKidGeniusQuiz (Some "key") false threeQuestionsReply initial)
     = threeQuestions
  /\ (exists st',
        attempt [1; 0; 2]
          (generateKidGeniusQuiz (Some "key") false threeQuestionsReply initial) = Ok st'
        /\ stage st' = Unlock.result
        /\ score st' = 60)
  /\ (forall (cs : list Z) (st' : State),
        length cs = 3%nat ->
        attempt cs (generateKidGeniusQuiz (Some "key") false threeQuestionsReply initial)
        = Ok st' ->
        score st' <= 60).
Proof.
  split; [reflexivity|]. split; [reflexivity|].
  assert (Hall : Forall2 rightAnswer threeQuestions [1; 0; 2]).
  { repeat constructor. }
  destruct (top_score_of_reply (Some "key") false
              (Text "[...]" (Ok (JArr threeQuestions))) _ _ _ initial
              eq_refl eq_refl Hall) as [Htop Hmax].
  split; [exact Htop | exact Hmax].
Qed.

(** X1. The top score of a quiz of KidGenius is twenty points a question:
    whatever non-empty list of questions the service returned, the right
    answers end the attempt with [20 * N] points and no [N] answers give
    more. *)
Theorem kidgenius_twenty_points_a_question :
  forall (apiKey : option string) (fromPath : bool) (t : text) (q : json)
         (qs : list json) (cs : list Z) (st : State),
    missing apiKey = false ->
    parsed t = Ok (JArr (q :: qs)) ->
    Forall2 rightAnswer (q :: qs) cs ->
    (exists st',
       attempt cs (generateKidGeniusQuiz apiKey fromPath (Replied (Some t)) st) = Ok st'
       /\ stage st' = Unlock.result
       /\ score st' = 20 * Z.of_nat (length (q :: qs)))
    /\ (forall (cs' : list Z) (st' : State),
          length cs' = length (q :: qs) ->
          attempt cs' (generateKidGeniusQuiz apiKey fromPath (Replied (Some t)) st) = Ok st' ->
          score st' <= 20 * Z.of_nat (length (q :: qs))).
Proof. exact top_score_of_reply. Qed.

(** With the five questions asked for, the right answers score 100. *)
Lemma kidgenius_twenty_points_a_question_witness :
  exists st',
    attempt [1; 0; 2; 2; 3]
      (generateKidGeniusQuiz (Some "key") false
         (Replied (Some (Text "[...]" (Ok (JArr fiveQuestions))))) initial) = Ok st'
    /\ stage st' = Unlock.result
    /\ score st' = 100.
Proof.
  apply (kidgenius_twenty_points_a_question (Some "key") false
           (Text "[...]" (Ok (JArr fiveQuestions))) _ _ [1; 0; 2; 2; 3] initial
           eq_refl eq_refl).
  repeat constructor.
Defined.

(** X3. Once an answer is recorded for the current question, a further
    selection changes nothing until "next" is pressed. *)
Theorem second_selection_is_ignored :
  forall (c1 c2 : Z) (st st1 : State),
    handleAnswerSelect c1 st = Ok st1 ->
    handleAnswerSelect c2 st1 = Ok st1.
Proof.
  intros c1 c2 st st1. unfold handleAnswerSelect at 1.
  destruct (showFeedback st) eqn:Hf.
  - intros [= <-]. unfold handleAnswerSelect. by rewrite Hf.
  - destruct (member _ _) as [v|e]; [|done]. cbn [mbind outcome_bind].
    intros [= <-]. reflexivity.
Qed.

Lemma second_selection_is_ignored_witness :
  exists st1,
    handleAnswerSelect 3
      (generateKidGeniusQuiz (Some "key") false threeQuestionsReply initial) = Ok st1
    /\ handleAnswerSelect 1 st1 = Ok st1
    /\ score st1 = 0.
Proof.
  eexists. split; [reflexivity|]. split; [|reflexivity].
  eapply (second_selection_is_ignored 3 1
            (generateKidGeniusQuiz (Some "key") false threeQuestionsReply initial)).
  reflexivity.
Defined.

Lemma attempt_keeps_history (cs : list Z) (st st' : State) :
  attempt cs st = Ok st' ->
  quizHistory st' = quizHistory st /\ savedHistory st' = savedHistory st.
Proof.
  revert st. induction cs as [|c cs IH]; intros st; cbn [attempt].
  - by intros [= <-].
  - unfold answerAndNext, handleAnswerSelect.
    destruct (showFeedback st).
    + cbn [mbind outcome_bind]. intros H. by apply IH in H.
    + destruct (member _ _) as [v|e]; [|done]. cbn [mbind outcome_bind].
      intros H. by apply IH in H.
Qed.

(** The state of [attemptRuns] is that of [attempt]. *)
Lemma attemptRuns_state (cs : list Z) :
  forall (st st' : State) (runs : list Finished),
    attemptRuns cs st = Ok (st', runs) -> attempt cs st = Ok st'.
Proof.
  induction cs as [|c cs IH]; intros st st' runs; cbn [attemptRuns attempt].
  - by intros [= -> _].
  - unfold answerAndNextRun, answerAndNext.
    destruct (handleAnswerSelect c st) as [st1|e]; [|done]. cbn [mbind outcome_bind].
    destruct (attemptRuns cs (handleNext st1).1) as [[st2 runs2]|e] eqn:H2; [|done].
    cbn [mbind outcome_bind fst snd]. intros [= <- _]. by apply (IH _ _ runs2).
Qed.

(** Once the result is reached, the handlers leave the stage there. *)
Lemma attemptRuns_result_stays (cs : list Z) :
  forall (st st' : State) (runs : list Finished),
    stage st = Unlock.result ->
    attemptRuns cs st = Ok (st', runs) -> stage st' = Unlock.result.
Proof.
  induction cs as [|c cs IH]; intros st st' runs Hr; cbn [attemptRuns].
  - by intros [= <- _].
  - unfold answerAndNextRun.
    destruct (handleAnswerSelect c st) as [st1|e] eqn:H1; [|done]. cbn [mbind outcome_bind].
    destruct (attemptRuns cs (handleNext st1).1) as [[st2 runs2]|e] eqn:H2; [|done].
    cbn [mbind outcome_bind fst snd]. intros [= <- _].
    apply (IH _ _ runs2) in H2; [done|].
    assert (Hs1 : stage st1 = Unlock.result).
    { unfold handleAnswerSelect in H1. destruct (showFeedback st); [by injection H1 as <-|].
      destruct (member _ _) as [v|e]; [|done]. cbn [mbind outcome_bind] in H1.
      by injection H1 as <-. }
    unfold handleNext. cbn [fst stage]. rewrite Hs1. by destruct (_ <? _).
Qed.

(** A feedback run is started only on the way to the result. *)
Lemma attemptRuns_started (cs : list Z) :
  forall (st st' : State) (runs : list Finished),
    attemptRuns cs st = Ok (st', runs) -> runs <> [] -> stage st' = Unlock.result.
Proof.
  induction cs as [|c cs IH]; intros st st' runs; cbn [attemptRuns].
  - by intros [= _ <-].
  - unfold answerAndNextRun.
    destruct (handleAnswerSelect c st) as [st1|e]; [|done]. cbn [mbind outcome_bind].
    assert (Hnext : (handleNext st1).2 = None
                    \/ stage (handleNext st1).1 = Unlock.result).
    { unfold handleNext. cbn [fst snd stage]. destruct (_ <? _); [by left | by right]. }
    destruct (handleNext st1) as [st1' started]. cbn [fst snd] in *.
    destruct (attemptRuns cs st1') as [[st2 runs2]|e] eqn:H2; [|done].
    cbn [mbind outcome_bind fst snd]. intros [= <- <-] Hne.
    destruct Hnext as [-> | Hres].
    + by apply (IH st1' st2 runs2).
    + by apply (attemptRuns_result_stays cs _ _ runs2) in H2.
Qed.

(** X4. Answering questions of a quiz that is still going on, and then
    leaving it: no feedback run has been started, and nothing is appended to
    the history, in the state or in the storage. (The button that leaves is
    on the quiz screen only; the run started after the last question is what
    appends an entry.) *)
Theorem abandoned_quiz_leaves_no_history :
  forall (cs : list Z) (confirmed : bool) (st st' : State) (runs : list Finished),
    attemptRuns cs st = Ok (st', runs) ->
    stage st' = Unlock.quiz ->
    runs = []
    /\ quizHistory (abandonQuiz confirmed st') = quizHistory st
    /\ savedHistory (abandonQuiz confirmed st') = savedHistory st
    /\ (confirmed = true -> stage (abandonQuiz confirmed st') = Unlock.setup).
Proof.
  intros cs confirmed st st' runs H Hquiz. split.
  - destruct runs as [|f runs]; [done|].
    apply attemptRuns_started in H; [congruence | done].
  - apply attemptRuns_state, attempt_keeps_history in H as [Hq Hs].
    unfold abandonQuiz. destruct confirmed; cbn; by rewrite ?Hq, ?Hs.
Qed.

(** One of five questions is answered, then the quiz is left. *)
Lemma abandoned_quiz_leaves_no_history_witness :
  exists st',
    attemptRuns [1]
      (generateKidGeniusQuiz (Some "key") false
         (Replied (Some (Text "[...]" (Ok (JArr fiveQuestions))))) initial) = Ok (st', [])
    /\ quizHistory (abandonQuiz true st') = []
    /\ stage (abandonQuiz true st') = Unlock.setup.
Proof.
  eexists. split; [reflexivity|].
  match goal with
  | |- quizHistory (abandonQuiz true ?s) = _ /\ _ =>
      destruct (abandoned_quiz_leaves_no_history [1] true
                  (generateKidGeniusQuiz (Some "key") false
                     (Replied (Some (Text "[...]" (Ok (JArr fiveQuestions))))) initial)
                  s [] eq_refl eq_refl) as (_ & Hq & _ & Hstage)
  end.
  split; [exact Hq | exact (Hstage eq_refl)].
Defined.

End KidGenius.

(** *** QuizMaster: a hundred points shared among the questions *)

Section QuizMaster.
Import QuizMaster.

Lemma quiz_answer_right (now : Z) (st : State) (x : Question) :
  showFeedback st = false ->
  questions st !! currentQuestionIndex st = Some x ->
  exists st',
    handleAnswerSelectQuiz (a x) st = Ok st'
    /\ score (handleNext now st')
       = (score st + 100 / of_Z (Z.of_nat (length (questions st))))%float
    /\ questions (handleNext now st') = questions st
    /\ showFeedback (handleNext now st') = false
    /\ (if Z.of_nat (currentQuestionIndex st) <? Z.of_nat (length (questions st)) - 1
        then currentQuestionIndex (handleNext now st') = S (currentQuestionIndex st)
        else stage (handleNext now st') = "result"
             /\ p_score <$> result (handleNext now st')
                = Some (Math_round (score (handleNext now st')))).
Proof.
  intros Hf Hq. unfold handleAnswerSelectQuiz. rewrite Hf, Hq, Z.eqb_refl.
  eexists. split; [reflexivity|]. unfold handleNext.
  cbn [questions currentQuestionIndex score].
  destruct (Z.of_nat (currentQuestionIndex st) <? Z.of_nat (length (questions st)) - 1);
    cbn [score questions showFeedback currentQuestionIndex stage result fmap option_fmap
         option_map p_score];
    repeat split; try reflexivity. lia.
Qed.

Lemma quiz_attempt_right_from (now : Z) (qs : list Question) :
  forall (pre : list Question) (st : State),
    qs <> [] ->
    questions st = (pre ++ qs)%list ->
    currentQuestionIndex st = length pre ->
    showFeedback st = false ->
    exists st',
      attempt now (map a qs) st = Ok st'
      /\ score st'
         = Nat.iter (length qs)
             (fun s => (s + 100 / of_Z (Z.of_nat (length (questions st))))%float)
             (score st)
      /\ stage st' = "result"
      /\ p_score <$> result st' = Some (Math_round (score st')).
Proof.
  induction qs as [|x qs IH]; intros pre st Hne Hqs Hi Hf; [done|].
  destruct (quiz_answer_right now st x Hf) as (st1 & Hst1 & Hs1 & Hq1 & Hf1 & Hnext);
    [by rewrite Hqs, Hi, list_lookup_middle|].
  cbn [map attempt]. rewrite Hst1. cbn [mbind outcome_bind].
  rewrite Hqs, Hi, length_app in Hnext. cbn [length] in Hnext.
  destruct qs as [|x' qs].
  - cbn [length] in Hnext.
    rewrite (proj2 (Z.ltb_ge _ _)) in Hnext by lia. destruct Hnext as [Hstage Hres].
    exists (handleNext now st1). cbn [map attempt length Nat.iter nat_rect].
    split; [reflexivity|]. split; [exact Hs1|]. by split.
  - cbn [length] in Hnext. rewrite (proj2 (Z.ltb_lt _ _)) in Hnext by lia.
    destruct (IH (pre ++ [x])%list (handleNext now st1)) as (st' & Hst' & Hs' & Hr');
      [done | | | done |].
    + by rewrite Hq1, Hqs, <- app_assoc.
    + rewrite Hnext, length_app. cbn [length]. lia.
    + exists st'. split; [done|]. split; [|done].
      rewrite Hs', Hq1, Hs1. by rewrite (Nat.iter_succ_r (length (x' :: qs))).
Qed.

(** The rounded sum of [n] shares of [100 / n] is 100, for every [n] from
    1 to 200 (checked by evaluation of the floating-point sums). *)
Lemma allRightScore_rounds_to_100 (n : nat) :
  (1 <= n <= 200)%nat -> Math_round (allRightScore n) = 100%float.
Proof.
  intros Hn.
  assert (Hall : forallb (fun k => PrimFloat.Leibniz.eqb (Math_round (allRightScore k)) 100)
                   (seq 1 200) = true) by (vm_compute; reflexivity).
  rewrite forallb_forall in Hall. apply FloatAxioms.Leibniz.eqb_spec, Hall.
  apply in_seq. lia.
Qed.

(** In QuizMaster the right answers to a quiz of 1 to 200 questions give
    the final score 100. *)
Lemma right_answers_score_100 (now : Z) (st : State) :
  (1 <= length (questions st) <= 200)%nat ->
  exists st',
    attempt now (map a (questions st)) (startQuiz st) = Ok st'
    /\ stage st' = "result"
    /\ p_score <$> result st' = Some 100%float.
Proof.
  intros Hn.
  destruct (quiz_attempt_right_from now (questions st) [] (startQuiz st))
    as (st' & Hst' & Hs' & Hstage & Hres); [ | reflexivity | reflexivity | reflexivity |].
  { intros Hnil. rewrite Hnil in Hn. cbn in Hn. lia. }
  exists st'. split; [done|]. split; [done|].
  rewrite Hres, Hs'. cbn [startQuiz questions score].
  f_equal. by apply allRightScore_rounds_to_100.
Qed.

(** X2. In QuizMaster every question weighs [100 / N]: the right answers to a
    quiz of 1 to 200 questions end it with the rounded score 100. *)
Theorem quizmaster_right_answers_score_100 :
  forall (now : Z) (st : State),
    (1 <= length (questions st) <= 200)%nat ->
    exists st',
      attempt now (map a (questions st)) (startQuiz st) = Ok st'
      /\ stage st' = "result"
      /\ p_score <$> result st' = Some 100%float.
Proof. exact right_answers_score_100. Qed.

(** Three questions: the sum of three shares of [100 / 3] rounds to 100. *)
Lemma quizmaster_right_answers_score_100_witness :
  exists st',
    attempt 0 (map a (makeMCFromCards sampleRandom sampleDeck 3 0).1)
      (startQuiz
         {| stage := "characterSelection"; count := 3; cards := sampleDeck;
            quizFromCardsStrategy := all;
            questions := (makeMCFromCards sampleRandom sampleDeck 3 0).1;
            answers := ∅; correctness := []; currentQuestionIndex := 0;
            score := 0%float; selectedAnswer := None; showFeedback := false;
            result := None; lastPack := None |}) = Ok st'
    /\ stage st' = "result"
    /\ p_score <$> result st' = Some 100%float.
Proof.
  apply (quizmaster_right_answers_score_100 0
           {| stage := "characterSelection"; count := 3; cards := sampleDeck;
              quizFromCardsStrategy := all;
              questions := (makeMCFromCards sampleRandom sampleDeck 3 0).1;
              answers := ∅; correctness := []; currentQuestionIndex := 0;
              score := 0%float; selectedAnswer := None; showFeedback := false;
              result := None; lastPack := None |}).
  vm_compute. lia.
Defined.

End QuizMaster.

End ScoreFacts.

(** ** The feedback on the top score *)

Module TopScoreFeedbackFacts.
Import KidGenius.

(** C8 (the code departs from it). The service answers with three
    questions and the three are answered right. The run that [handleNext]
    starts has no wrong answer and the score 60, which is the top score of
    this quiz; yet the feedback is not the fixed congratulation: one request
    is sent, with the score 60 and an empty list of wrong answers, and the
    feedback is what the service answers. The test of line 967 takes 100
    for the top score, which [handleAnswerSelect] reaches with five
    questions only. *)
Theorem top_score_feedback_is_requested :
  (exists st' : State,
      attemptRuns [1; 0; 2]
        (generateKidGeniusQuiz (Some "key") false threeQuestionsReply initial)
      = Ok (st', [threeRightAttempt])
      /\ stage st' = Unlock.result
      /\ score st' = finalScore threeRightAttempt)
  /\ finalScore threeRightAttempt = 60
  /\ wrongAnswersInfo (finalQuestions threeRightAttempt)
       (finalUserAnswers threeRightAttempt) = Ok []
  /\ (forall (cs : list Z) (st' : State),
        length cs = 3%nat ->
        attempt cs (generateKidGeniusQuiz (Some "key") false threeQuestionsReply initial)
        = Ok st' ->
        score st' <= 60)
  /\ (forall (now : string) (reply : Reply) (st : State),
        (generateAITutorFeedback (Some "key") now reply threeRightAttempt st).2
        = [{| rq_score := 60; rq_wrongAnswers := [] |}])
  /\ (forall (now chars : string) (v : json) (st : State),
        aiTutorFeedback
          (generateAITutorFeedback (Some "key") now
             (Replied (Some (Text chars (Ok v)))) threeRightAttempt st).1 = v).
Proof.
  assert (Hwrong : wrongAnswersInfo (finalQuestions threeRightAttempt)
                     (finalUserAnswers threeRightAttempt) = Ok [])
    by (vm_compute; reflexivity).
  assert (Htry : forall reply,
             feedbackTry (Some "key") reply threeRightAttempt
             = (match reply with
                | Rejected e => Throw e
                | Replied None => Throw TypeError
                | Replied (Some t) => JSON_parse t
                end,
                [{| rq_score := 60; rq_wrongAnswers := [] |}])).
  { intros reply. unfold feedbackTry. rewrite Hwrong. reflexivity. }
  split; [|split; [reflexivity|]; split; [exact Hwrong|]; split; [|split]].
  - exists (match attempt [1; 0; 2]
                    (generateKidGeniusQuiz (Some "key") false threeQuestionsReply initial)
            with
            | Ok st' => st'
            | Throw _ => initial
            end).
    split; [vm_compute; reflexivity|]. split; vm_compute; reflexivity.
  - assert (Hall : Forall2 rightAnswer threeQuestions [1; 0; 2]) by repeat constructor.
    exact (proj2 (ScoreFacts.top_score_of_reply (Some "key") false
                    (Text "[...]" (Ok (JArr threeQuestions))) _ _ _ initial
                    eq_refl eq_refl Hall)).
  - intros now reply st. unfold generateAITutorFeedback. cbv zeta. by rewrite Htry.
  - intros now chars v st. unfold generateAITutorFeedback. cbv zeta. by rewrite Htry.
Qed.

End TopScoreFeedbackFacts.

(** ** The longest streak *)

Module StreakFacts.
Import QuizMaster.
Local Open Scope list_scope.

Lemma streakAfter_snoc (l : list bool) (b : bool) :
  streakAfter (l ++ [b])
  = if b then (Nat.max (streakAfter l).1 (S (streakAfter l).2), S (streakAfter l).2) else ((streakAfter l).1, 0%nat).
Proof. unfold streakAfter. rewrite foldl_app. cbn. by destruct (foldl _ _ l). Qed.

(** A run of [true] that ends a list is no longer than the run that ends
    it after a [false] (or after nothing). *)
Lemma trailing_run (q l1 : list bool) (c m : nat) :
  q = [] \/ (exists q', q = q' ++ [false]) ->
  q ++ replicate c true = l1 ++ replicate m true ->
  (m <= c)%nat.
Proof.
  intros Hq Heq.
  assert (Hlen : (length q + c = length l1 + m)%nat).
  { apply (f_equal length) in Heq. by rewrite !length_app, !length_replicate in Heq. }
  destruct Hq as [-> | [q' ->]]; [cbn in Hlen; lia|].
  destruct (decide (m <= c)%nat) as [|Hgt]; [done|]. exfalso.
  rewrite length_app in Hlen. cbn in Hlen.
  assert (Hl : ((q' ++ [false]) ++ replicate c true) !! length q' = Some false).
  { rewrite <- app_assoc. by rewrite lookup_app_r, Nat.sub_diag by lia. }
  rewrite Heq in Hl.
  rewrite lookup_app_r in Hl by lia.
  apply lookup_replicate in Hl as [? _]. done.
Qed.

Lemma streakAfter_spec (l : list bool) :
  ((streakAfter l).2 <= (streakAfter l).1)%nat
  /\ (exists q, l = q ++ replicate (streakAfter l).2 true
                /\ (q = [] \/ exists q', q = q' ++ [false]))
  /\ (exists l1 l2, l = l1 ++ replicate (streakAfter l).1 true ++ l2)
  /\ (forall m l1 l2, l = l1 ++ replicate m true ++ l2 -> (m <= (streakAfter l).1)%nat).
Proof.
  induction l as [|b l IH] using rev_ind.
  - cbn. split; [lia|]. split; [by exists []; split; [|left]|].
    split; [by exists [], []|].
    intros m l1 l2 H. symmetry in H.
    apply app_eq_nil in H as [_ H]. apply app_eq_nil in H as [H _].
    by destruct m.
  - destruct IH as (Hle & (q & Hq & Hend) & (r1 & r2 & Hrun) & Hmax).
    rewrite streakAfter_snoc. destruct (streakAfter l) as [best cur]. cbn [fst snd] in *.
    assert (Hinner : forall m l1 l2 x,
               l ++ [b] = l1 ++ replicate m true ++ l2 ++ [x] -> (m <= best)%nat).
    { intros m l1 l2 x H. apply (Hmax m l1 l2).
      rewrite !app_assoc in H. apply app_inj_tail in H as [H _].
      by rewrite <- !app_assoc in H. }
    destruct b; cbn [fst snd].
    + split; [lia|]. split; [|split].
      * exists q. split; [|done]. rewrite replicate_S_end, app_assoc. by f_equal.
      * destruct (decide (S cur <= best)%nat).
        -- exists r1, (r2 ++ [true]). rewrite Nat.max_l by lia.
           rewrite Hrun at 1. by rewrite <- !app_assoc.
        -- exists q, []. rewrite Nat.max_r by lia.
           rewrite app_nil_r, replicate_S_end, app_assoc. by f_equal.
      * intros m l1 l2 H.
        destruct l2 as [|x l2 _] using rev_ind.
        -- rewrite app_nil_r in H. destruct m as [|m]; [lia|].
           rewrite replicate_S_end, app_assoc in H.
           apply app_inj_tail in H as [H _].
           rewrite Hq in H. apply trailing_run in H; [lia|done].
        -- apply Hinner in H. lia.
    + split; [lia|]. split; [|split].
      * exists (l ++ [false]). split; [by rewrite app_nil_r|]. right. by exists l.
      * exists r1, (r2 ++ [false]). rewrite Hrun at 1. by rewrite <- !app_assoc.
      * intros m l1 l2 H.
        destruct l2 as [|x l2 _] using rev_ind.
        -- rewrite app_nil_r in H. destruct m as [|m]; [lia|].
           rewrite replicate_S_end, app_assoc in H.
           by apply app_inj_tail in H as [_ H].
        -- by apply Hinner in H.
Qed.

(** X9. [longestStreak(bools)] is the length of the longest run of
    consecutive [true] flags: the list holds a run of that length, and no
    run of the list is longer. *)
Theorem longestStreak_longest_run :
  forall bools : list bool,
    (exists before later,
        bools = before ++ replicate (longestStreak bools) true ++ later)
    /\ (forall (m : nat) (before later : list bool),
          bools = before ++ replicate m true ++ later ->
          (m <= longestStreak bools)%nat).
Proof.
  intros bools. destruct (streakAfter_spec bools) as (_ & _ & Hrun & Hmax). by split.
Qed.

End StreakFacts.

(** ** The map of the learning path *)

Module LearningPathFacts.
Import KidGenius LearningPathMap.

Lemma findWeek_shaped (m : Z) (path : list json) :
  forallb weekShaped path = true ->
  exists x, findWeek m path = Ok x
            /\ match x with Some w => weekShaped w = true | None => True end.
Proof.
  induction path as [|w path IH]; cbn; [by exists None|].
  rewrite andb_true_iff. intros [Hw Hrest].
  destruct w as [| | | | |fields]; try done. cbn.
  destruct (match assoc "week" fields with Some (JNum y) => m =? y | _ => false end);
    [by eexists (Some _)|]. by apply IH.
Qed.

Lemma topicsText_truthy (w : json) (t : string) :
  topicsText w = Ok t -> truthy (Some w) = true.
Proof.
  unfold topicsText. destruct w as [| | |s|items|fields]; try done; cbn.
  unfold string_property. case_decide; [done|].
  by destruct (find _ _).
Qed.

Lemma topicsText_shaped (w : json) :
  weekShaped w = true -> truthy (Some w) = true /\ exists t, topicsText w = Ok t.
Proof.
  destruct w as [| | | | |fields]; try done. unfold topicsText. cbn.
  destruct (assoc "topics" fields) as [[]|]; try done. intros _. split; [done|by eexists].
Qed.

#[local] Arguments Unlock.difficultyOrder : simpl never.
#[local] Arguments topicsText : simpl never.
#[local] Arguments findWeek : simpl never.
#[local] Arguments truthy : simpl never.
#[local] Arguments hasPassedAllDifficulties : simpl never.

Lemma passedDifficulties_app (h h' : list HistoryEntry) :
  passedDifficulties (h ++ h') = passedDifficulties h ∪ passedDifficulties h'.
Proof.
  unfold passedDifficulties. by rewrite filter_app, map_app, list_to_set_app_L.
Qed.

Lemma hasPassedAllDifficulties_app (h h' : list HistoryEntry) :
  hasPassedAllDifficulties h = true ->
  hasPassedAllDifficulties (h ++ h') = true.
Proof.
  unfold hasPassedAllDifficulties. cbv zeta. rewrite passedDifficulties_app.
  rewrite !andb_true_iff, !bool_decide_eq_true.
  intros [[H1 H2] H3]. repeat split; apply elem_of_union; by left.
Qed.

(** What it takes to pass all the difficulties. *)
Lemma hasPassedAllDifficulties_entries (h : list HistoryEntry) (d : string) :
  hasPassedAllDifficulties h = true ->
  d ∈ Unlock.difficultyOrder_keys ->
  exists e, e ∈ h /\ h_difficulty e = d /\ 70 <= h_score e.
Proof.
  unfold hasPassedAllDifficulties, passedDifficulties. cbv zeta.
  rewrite !andb_true_iff, !bool_decide_eq_true.
  intros [[H1 H2] H3] Hd.
  assert (Hin : d ∈ (list_to_set
            (map h_difficulty (filter (fun e => 70 <= h_score e) h)) : gset string)).
  { unfold Unlock.difficultyOrder_keys in Hd.
    rewrite !elem_of_cons in Hd. destruct Hd as [-> | [-> | [-> | Hd]]]; [done..|].
    by apply elem_of_nil in Hd. }
  apply elem_of_list_to_set, list_elem_of_fmap in Hin as (e & -> & Hin).
  apply list_elem_of_filter in Hin as [Hs Hin].
  by exists e.
Qed.

(** The entries of a week, when some of them pass it. *)
Lemma weekHistory_passed (h : list HistoryEntry) (w : json) (entries : list HistoryEntry) :
  weekHistory h w = Ok entries ->
  hasPassedAllDifficulties entries = true ->
  exists t, topicsText w = Ok t /\ entries = filter (fun e => h_topic e = t) h.
Proof.
  unfold weekHistory. destruct h as [|e h]; [by intros [= <-]|].
  destruct (topicsText w) as [t|]; cbn [mbind outcome_bind]; [|done].
  intros [= <-] _. by exists t.
Qed.

Lemma weekHistory_app (h h' : list HistoryEntry) (w : json)
    (entries entries' : list HistoryEntry) :
  weekHistory h w = Ok entries ->
  hasPassedAllDifficulties entries = true ->
  weekHistory (h ++ h') w = Ok entries' ->
  hasPassedAllDifficulties entries' = true.
Proof.
  intros Hw Hp Hw'. destruct (weekHistory_passed _ _ _ Hw Hp) as (t & Ht & ->).
  unfold weekHistory in Hw'. rewrite Ht in Hw'.
  destruct (h ++ h')%list as [|e l] eqn:Happ.
  - apply app_eq_nil in Happ as [-> _]. done.
  - cbn [mbind outcome_bind] in Hw'. injection Hw' as <-. rewrite <- Happ.
    rewrite filter_app. by apply hasPassedAllDifficulties_app.
Qed.

Lemma weekHistory_shaped (h : list HistoryEntry) (w : json) :
  weekShaped w = true -> exists entries, weekHistory h w = Ok entries.
Proof.
  intros Hw. destruct (topicsText_shaped w Hw) as (_ & t & Ht).
  unfold weekHistory. rewrite Ht. destruct h; by eexists.
Qed.

#[local] Arguments weekHistory : simpl never.

Lemma unlockedFrom_ge (fuel : nat) (path : list json) (h : list HistoryEntry) (m r : Z) :
  unlockedFrom fuel path h m = Some (Ok r) -> m <= r.
Proof.
  revert m. induction fuel as [|fuel IH]; intros m; cbn.
  - destruct (_ <? m); [|done]. intros [= <-]. lia.
  - destruct (_ <? m); [intros [= <-]; lia|].
    destruct (findWeek m path) as [[w|]|]; [| intros [= <-]; lia | done].
    destruct (negb _); [intros [= <-]; lia|].
    destruct (weekHistory h w) as [entries|]; [|done].
    destruct (hasPassedAllDifficulties entries); [|intros [= <-]; lia].
    intros H. apply IH in H. lia.
Qed.

Lemma unlockedFrom_le (fuel : nat) (path : list json) (h : list HistoryEntry) (m r : Z) :
  unlockedFrom fuel path h m = Some (Ok r) ->
  r <= Z.max m (Z.of_nat (length path) + 1).
Proof.
  revert m. induction fuel as [|fuel IH]; intros m; cbn.
  - destruct (_ <? m); [|done]. intros [= <-]. lia.
  - destruct (_ <? m) eqn:Hm; [intros [= <-]; lia|].
    apply Z.ltb_ge in Hm.
    destruct (findWeek m path) as [[w|]|]; [| intros [= <-]; lia | done].
    destruct (negb _); [intros [= <-]; lia|].
    destruct (weekHistory h w) as [entries|]; [|done].
    destruct (hasPassedAllDifficulties entries); [|intros [= <-]; lia].
    intros H. apply IH in H. lia.
Qed.

(** The loop ends within the turns it is given. *)
Lemma unlockedFrom_total (fuel : nat) (path : list json) (h : list HistoryEntry) (m : Z) :
  Z.of_nat (length path) + 1 - m <= Z.of_nat fuel ->
  exists r, unlockedFrom fuel path h m = Some r.
Proof.
  revert m. induction fuel as [|fuel IH]; intros m Hfuel; cbn.
  - destruct (_ <? m) eqn:Hm; [by eexists|]. apply Z.ltb_ge in Hm. lia.
  - destruct (_ <? m) eqn:Hm; [by eexists|].
    destruct (findWeek m path) as [[w|]|]; [| by eexists..].
    destruct (negb _); [by eexists|].
    destruct (weekHistory h w) as [entries|]; [|by eexists].
    destruct (hasPassedAllDifficulties entries); [|by eexists].
    apply IH. lia.
Qed.

Lemma unlockedFrom_app (fuel : nat) (path : list json) (h h' : list HistoryEntry)
    (m r r' : Z) :
  unlockedFrom fuel path h m = Some (Ok r) ->
  unlockedFrom fuel path (h ++ h') m = Some (Ok r') ->
  r <= r'.
Proof.
  revert m. induction fuel as [|fuel IH]; intros m; cbn.
  - destruct (_ <? m); [|done]. by intros [= <-] [= <-].
  - destruct (_ <? m); [by intros [= <-] [= <-]|].
    destruct (findWeek m path) as [[w|]|]; [| by intros [= <-] [= <-] | done].
    destruct (negb _); [by intros [= <-] [= <-]|].
    destruct (weekHistory h w) as [entries|] eqn:Hw; [|done].
    destruct (weekHistory (h ++ h') w) as [entries'|] eqn:Hw';
      [|by destruct (hasPassedAllDifficulties entries)].
    destruct (hasPassedAllDifficulties entries) eqn:Hp.
    + rewrite (weekHistory_app _ _ _ _ _ Hw Hp Hw'). apply IH.
    + intros [= <-]. destruct (hasPassedAllDifficulties entries').
      * intros H. apply unlockedFrom_ge in H. lia.
      * by intros [= <-].
Qed.

Lemma unlockedFrom_shaped (fuel : nat) (path : list json) (h : list HistoryEntry) (m : Z) :
  forallb weekShaped path = true ->
  Z.of_nat (length path) + 1 - m <= Z.of_nat fuel ->
  exists r, unlockedFrom fuel path h m = Some (Ok r).
Proof.
  intros Hpath. revert m. induction fuel as [|fuel IH]; intros m Hfuel; cbn.
  - destruct (_ <? m) eqn:Hm; [by eexists|]. apply Z.ltb_ge in Hm. lia.
  - destruct (_ <? m) eqn:Hm; [by eexists|].
    destruct (findWeek_shaped m path Hpath) as (x & -> & Hx).
    destruct x as [w|]; [|by eexists].
    destruct (topicsText_shaped w Hx) as (-> & _). cbn [negb].
    destruct (weekHistory_shaped h w Hx) as [entries ->].
    destruct (hasPassedAllDifficulties entries); [|by eexists].
    apply IH. lia.
Qed.

(** The weeks the loop went past were passed. *)
Lemma unlockedFrom_passed (fuel : nat) (path : list json) (h : list HistoryEntry)
    (m r k : Z) :
  unlockedFrom fuel path h m = Some (Ok r) ->
  m <= k < r ->
  exists w t, findWeek k path = Ok (Some w) /\ topicsText w = Ok t
              /\ hasPassedAllDifficulties (filter (fun e => h_topic e = t) h) = true.
Proof.
  revert m. induction fuel as [|fuel IH]; intros m; cbn.
  - destruct (_ <? m); [|done]. intros [= <-]. lia.
  - destruct (_ <? m); [intros [= <-]; lia|].
    destruct (findWeek m path) as [[w|]|] eqn:Hf; [| intros [= <-]; lia | done].
    destruct (negb _); [intros [= <-]; lia|].
    destruct (weekHistory h w) as [entries|] eqn:Hw; [|done].
    destruct (hasPassedAllDifficulties entries) eqn:Hp; [|intros [= <-]; lia].
    intros H Hk. destruct (decide (k = m)) as [->|].
    + destruct (weekHistory_passed _ _ _ Hw Hp) as (t & Ht & ->). by exists w, t.
    + apply (IH _ H). lia.
Qed.

(** X10. The week the map has unlocked up to: the loop that computes it
    ends, and what it returns lies between 1 and one more than the number of
    weeks of the path; with an empty history it is 1. *)
Theorem unlocked_week_bounds :
  forall (path : list json) (history : list HistoryEntry),
    exists r, maxUnlockedWeek (Some path) history = Some r
              /\ (forall m, r = Ok m -> 1 <= m <= Z.of_nat (length path) + 1)
              /\ (forall m, history = [] -> r = Ok m -> m = 1).
Proof.
  intros path history. cbn.
  destruct (unlockedFrom_total (length path) path history 1) as [r Hr]; [lia|].
  exists r. split; [done|]. split.
  - intros m ->. pose proof (unlockedFrom_ge _ _ _ _ _ Hr).
    pose proof (unlockedFrom_le _ _ _ _ _ Hr). lia.
  - intros m -> ->. destruct (decide (m = 1)) as [|Hne]; [done|]. exfalso.
    pose proof (unlockedFrom_ge _ _ _ _ _ Hr).
    destruct (unlockedFrom_passed _ _ _ _ _ 1 Hr) as (w & t & _ & _ & Hp); [lia|].
    done.
Qed.

(** X11. A week is unlocked only by passing: every week before the one the
    map has unlocked up to is in the path, and the history holds, for its
    topics, a quiz of each of the three difficulties with a score of 70 or
    more. *)
Theorem unlocked_weeks_were_passed :
  forall (path : list json) (history : list HistoryEntry) (m k : Z) (d : string),
    maxUnlockedWeek (Some path) history = Some (Ok m) ->
    1 <= k < m ->
    d ∈ Unlock.difficultyOrder_keys ->
    exists w t e,
      findWeek k path = Ok (Some w) /\ topicsText w = Ok t
      /\ e ∈ history /\ h_topic e = t /\ h_difficulty e = d /\ 70 <= h_score e.
Proof.
  intros path history m k d Hm Hk Hd. cbn in Hm.
  destruct (unlockedFrom_passed _ _ _ _ _ k Hm Hk) as (w & t & Hw & Ht & Hp).
  destruct (hasPassedAllDifficulties_entries _ d Hp Hd) as (e & He & Hed & Hes).
  apply list_elem_of_filter in He as [Het He].
  by exists w, t, e.
Qed.

(** X12. A week is never locked again: for a path of weeks with their
    topics, the week unlocked up to is computed for every history, and a
    history with more quizzes gives a week at least as far. *)
Theorem unlocked_week_never_relocks :
  forall (path : list json) (history more : list HistoryEntry),
    forallb weekShaped path = true ->
    exists m m',
      maxUnlockedWeek (Some path) history = Some (Ok m)
      /\ maxUnlockedWeek (Some path) (history ++ more) = Some (Ok m')
      /\ m <= m'.
Proof.
  intros path history more Hpath. cbn.
  destruct (unlockedFrom_shaped (length path) path history 1 Hpath) as [m Hm]; [lia|].
  destruct (unlockedFrom_shaped (length path) path (history ++ more) 1 Hpath)
    as [m' Hm']; [lia|].
  exists m, m'. split; [done|]. split; [done|].
  by eapply unlockedFrom_app.
Qed.

(** [Math.max(1, ...xs)] on numbers of the range of [difficultyOrder]. *)
Lemma Math_max_1_from (a : Z) (xs : list (option Z)) :
  1 <= a <= 3 ->
  Forall (fun x => exists v, x = Some v /\ 1 <= v <= 3) xs ->
  exists k,
    foldl (fun acc x =>
             match acc, x with
             | Some a, Some b => Some (Z.max a b)
             | _, _ => None
             end) (Some a) xs = Some k
    /\ a <= k <= 3
    /\ (forall v, Some v ∈ xs -> v <= k)
    /\ (k = a \/ Some k ∈ xs).
Proof.
  revert a. induction xs as [|x xs IH]; intros a Ha Hxs; cbn.
  - exists a. split; [done|]. split; [lia|]. split; [|by left].
    intros v Hv. by apply elem_of_nil in Hv.
  - apply Forall_cons in Hxs as [(v & -> & Hv) Hxs].
    destruct (IH (Z.max a v)) as (k & -> & Hk & Hall & Hin); [lia|done|].
    exists k. split; [done|]. split; [lia|]. split.
    + intros u Hu. apply elem_of_cons in Hu as [[= ->]|Hu]; [lia|by apply Hall].
    + destruct Hin as [->|Hin]; [|right; by apply elem_of_cons; right].
      destruct (Z.max_spec a v) as [[_ ->]|[_ ->]]; [right; by apply elem_of_cons; left|by left].
Qed.

Lemma Math_max_1_unknown (xs : list (option Z)) :
  None ∈ xs -> Math_max_1 xs = None.
Proof.
  unfold Math_max_1. generalize (Some 1). induction xs as [|x xs IH]; intros acc Hin.
  - by apply elem_of_nil in Hin.
  - apply elem_of_cons in Hin as [<-|Hin]; cbn.
    + destruct acc; clear. all: induction xs as [|[] xs IH]; cbn; done.
    + by apply IH.
Qed.

Lemma difficultyOrder_range (d : string) (v : Z) :
  Unlock.difficultyOrder d = Some v -> 1 <= v <= 3.
Proof. unfold Unlock.difficultyOrder. repeat case_decide; intros [= <-]; lia. Qed.

(** The index for a week whose topics read as [t], when every quiz of the
    history was of a difficulty of the list. *)
Lemma index_known (h : list HistoryEntry) (w : json) (t : string) :
  topicsText w = Ok t ->
  Forall (fun e => is_Some (Unlock.difficultyOrder (h_difficulty e))) h ->
  exists k,
    getUnlockedDifficultyIndex h (Some w) = Ok (Some k)
    /\ 1 <= k <= 3
    /\ (forall e v, e ∈ h -> h_topic e = t -> 70 <= h_score e ->
          Unlock.difficultyOrder (h_difficulty e) = Some v -> Z.min (v + 1) 3 <= k)
    /\ (k = 1
        \/ exists e v, e ∈ h /\ h_topic e = t /\ 70 <= h_score e
                       /\ Unlock.difficultyOrder (h_difficulty e) = Some v
                       /\ k = Z.min (v + 1) 3).
Proof.
  intros Ht Hknown. unfold getUnlockedDifficultyIndex.
  rewrite (topicsText_truthy w t Ht). cbn [negb]. rewrite Ht.
  cbn -[Nat.ltb filter Math_max_1].
  set (passed := filter _ h).
  assert (Hpassed : forall e, e ∈ passed <-> (h_topic e = t /\ 70 <= h_score e) /\ e ∈ h).
  { intros e. unfold passed. by rewrite list_elem_of_filter. }
  destruct (0 <? length passed)%nat eqn:Hlen.
  - destruct (Math_max_1_from 1
                (map (fun e => Unlock.difficultyOrder (h_difficulty e)) passed))
      as (k & Hk & Hr & Hall & Hin); [lia| |].
    { apply Forall_forall. intros x Hx.
      apply list_elem_of_fmap in Hx as (e & -> & He).
      apply Hpassed in He as [_ He].
      rewrite Forall_forall in Hknown. destruct (Hknown e He) as [v Hv].
      exists v. split; [done|]. by eapply difficultyOrder_range. }
    unfold Math_max_1. rewrite Hk. cbn. eexists. split; [done|]. split; [lia|]. split.
    + intros e v He Het Hes Hv.
      assert (v <= k); [|lia]. apply Hall. rewrite <- Hv.
      apply (list_elem_of_fmap_2 (fun e => Unlock.difficultyOrder (h_difficulty e))).
      by apply Hpassed.
    + right. destruct Hin as [->|Hin].
      * destruct passed as [|e passed']; [done|].
        assert (He : e ∈ e :: passed') by (by apply elem_of_cons; left).
        pose proof He as He'. apply Hpassed in He' as [[He1 He2] He'].
        rewrite Forall_forall in Hknown. destruct (Hknown e He') as [v Hv].
        exists e, v. repeat split; try done.
        pose proof (difficultyOrder_range _ _ Hv).
        assert (v <= 1); [|lia]. apply Hall. rewrite <- Hv.
        by apply (list_elem_of_fmap_2 (fun e => Unlock.difficultyOrder (h_difficulty e))).
      * apply list_elem_of_fmap in Hin as (e & Hv & He).
        apply Hpassed in He as [[He1 He2] He]. by exists e, k.
  - exists 1. split; [done|]. split; [lia|]. split; [|by left].
    intros e v He Het Hes Hv. exfalso.
    assert (Hin : e ∈ passed) by (by apply Hpassed).
    destruct passed; [by apply elem_of_nil in Hin|done].
Qed.

(** X13. The difficulty the modal of a week unlocks up to. When every quiz of
    the history was of one of the three difficulties, it is 1 with no passed
    quiz of the week's topics, and otherwise one more than the highest
    difficulty passed, capped at 3. *)
Theorem unlocked_difficulty_follows_highest_passed :
  forall (history : list HistoryEntry) (w : json) (t : string),
    topicsText w = Ok t ->
    Forall (fun e => is_Some (Unlock.difficultyOrder (h_difficulty e))) history ->
    exists k,
      getUnlockedDifficultyIndex history (Some w) = Ok (Some k)
      /\ 1 <= k <= 3
      /\ (forall e v, e ∈ history -> h_topic e = t -> 70 <= h_score e ->
            Unlock.difficultyOrder (h_difficulty e) = Some v -> Z.min (v + 1) 3 <= k)
      /\ (k = 1
          \/ exists e v, e ∈ history /\ h_topic e = t /\ 70 <= h_score e
                         /\ Unlock.difficultyOrder (h_difficulty e) = Some v
                         /\ k = Z.min (v + 1) 3).
Proof. intros history w t Ht Hknown. by apply index_known. Qed.

(** X14. A difficulty is never locked again: more quizzes in the history
    give an index at least as high. *)
Theorem unlocked_difficulty_never_relocks :
  forall (history more : list HistoryEntry) (w : json) (t : string),
    topicsText w = Ok t ->
    Forall (fun e => is_Some (Unlock.difficultyOrder (h_difficulty e)))
           (history ++ more)%list ->
    exists k k',
      getUnlockedDifficultyIndex history (Some w) = Ok (Some k)
      /\ getUnlockedDifficultyIndex (history ++ more)%list (Some w) = Ok (Some k')
      /\ 1 <= k /\ k <= k' /\ k' <= 3.
Proof.
  intros history more w t Ht Hknown.
  destruct (index_known history w t Ht) as (k & Hk & Hr & _ & Hin).
  { by apply Forall_app in Hknown as [? _]. }
  destruct (index_known (history ++ more) w t Ht Hknown) as (k' & Hk' & Hr' & Hall & _).
  exists k, k'. split; [done|]. split; [done|]. split; [lia|]. split; [|lia].
  destruct Hin as [->|(e & v & He & Het & Hes & Hv & ->)]; [lia|].
  apply (Hall e v); try done. apply elem_of_app. by left.
Qed.

(** X15. A quiz of a difficulty that is not in the list: once the history
    holds a passed one for the topics of the week, the index is NaN, and no
    difficulty of the modal is locked. *)
Theorem unknown_difficulty_locks_nothing :
  forall (history : list HistoryEntry) (w : json) (t : string) (e : HistoryEntry),
    topicsText w = Ok t ->
    e ∈ history -> h_topic e = t -> 70 <= h_score e ->
    Unlock.difficultyOrder (h_difficulty e) = None ->
    getUnlockedDifficultyIndex history (Some w) = Ok None
    /\ (forall d, difficultyLocked d None = false).
Proof.
  intros history w t e Ht He Het Hes Hd. split.
  - unfold getUnlockedDifficultyIndex.
    rewrite (topicsText_truthy w t Ht). cbn [negb]. rewrite Ht.
    cbn -[Nat.ltb filter Math_max_1].
    set (passed := filter _ history).
    assert (Hin : e ∈ passed).
    { unfold passed. by rewrite list_elem_of_filter. }
    assert (Hlen : (0 <? length passed)%nat = true).
    { apply Nat.ltb_lt. destruct passed; [by apply elem_of_nil in Hin|cbn; lia]. }
    rewrite Hlen, Math_max_1_unknown; [done|].
    rewrite <- Hd.
    by apply (list_elem_of_fmap_2 (fun e => Unlock.difficultyOrder (h_difficulty e))).
  - intros d. unfold difficultyLocked, Unlock.gt, Unlock.lt. by destruct (Unlock.difficultyOrder d).
Qed.

Lemma unlocked_weeks_were_passed_witness :
  exists w t e,
    findWeek 1 samplePath = Ok (Some w) /\ topicsText w = Ok t
    /\ e ∈ firstWeekPassed /\ h_topic e = t /\ h_difficulty e = "Khó" /\ 70 <= h_score e.
Proof.
  apply (unlocked_weeks_were_passed samplePath firstWeekPassed 2 1 "Khó").
  - reflexivity.
  - lia.
  - unfold Unlock.difficultyOrder_keys. rewrite !elem_of_cons. auto.
Defined.

Lemma unlocked_week_never_relocks_witness :
  exists m m',
    maxUnlockedWeek (Some samplePath) [] = Some (Ok m)
    /\ maxUnlockedWeek (Some samplePath) ([] ++ firstWeekPassed) = Some (Ok m')
    /\ m <= m'.
Proof. apply (unlocked_week_never_relocks samplePath [] firstWeekPassed). reflexivity. Defined.

Lemma unlocked_difficulty_follows_highest_passed_witness :
  exists k,
    getUnlockedDifficultyIndex [passedQuiz "Phân số" "Dễ" 90] (samplePath !! 1%nat) = Ok (Some k)
    /\ 1 <= k <= 3
    /\ (forall e v, e ∈ [passedQuiz "Phân số" "Dễ" 90] -> h_topic e = "Phân số" ->
          70 <= h_score e ->
          Unlock.difficultyOrder (h_difficulty e) = Some v -> Z.min (v + 1) 3 <= k)
    /\ (k = 1
        \/ exists e v, e ∈ [passedQuiz "Phân số" "Dễ" 90] /\ h_topic e = "Phân số"
                       /\ 70 <= h_score e
                       /\ Unlock.difficultyOrder (h_difficulty e) = Some v
                       /\ k = Z.min (v + 1) 3).
Proof.
  apply (unlocked_difficulty_follows_highest_passed
           [passedQuiz "Phân số" "Dễ" 90]
           (JObj [("week", JNum 2); ("title", JStr "Phân số");
                  ("topics", JArr [JStr "Phân số"]);
                  ("objective", JStr "Làm quen")])
           "Phân số").
  - reflexivity.
  - repeat constructor. by exists 1.
Defined.

Lemma unlocked_difficulty_never_relocks_witness :
  exists k k',
    getUnlockedDifficultyIndex [] (samplePath !! 1%nat) = Ok (Some k)
    /\ getUnlockedDifficultyIndex ([] ++ [passedQuiz "Phân số" "Dễ" 90]) (samplePath !! 1%nat)
       = Ok (Some k')
    /\ 1 <= k /\ k <= k' /\ k' <= 3.
Proof.
  apply (unlocked_difficulty_never_relocks [] [passedQuiz "Phân số" "Dễ" 90]
           (JObj [("week", JNum 2); ("title", JStr "Phân số");
                  ("topics", JArr [JStr "Phân số"]);
                  ("objective", JStr "Làm quen")])
           "Phân số").
  - reflexivity.
  - repeat constructor. by exists 1.
Defined.

Lemma unknown_difficulty_locks_nothing_witness :
  getUnlockedDifficultyIndex [passedQuiz "Phân số" "Rất khó" 90] (samplePath !! 1%nat) = Ok None
  /\ (forall d, difficultyLocked d None = false).
Proof.
  apply (unknown_difficulty_locks_nothing
           [passedQuiz "Phân số" "Rất khó" 90]
           (JObj [("week", JNum 2); ("title", JStr "Phân số");
                  ("topics", JArr [JStr "Phân số"]);
                  ("objective", JStr "Làm quen")])
           "Phân số" (passedQuiz "Phân số" "Rất khó" 90)).
  - reflexivity.
  - apply elem_of_cons. by left.
  - reflexivity.
  - cbn. lia.
  - reflexivity.
Defined.

End LearningPathFacts.

(** ** Counts and the order of the cards *)

Module CardDeckFacts.
Import QuizMaster CardDeck.
Local Open Scope list_scope.

(** X16. The field and the slider that are to keep a count between 1 and
    20: [clamp] returns the greatest of its three arguments, so the count set
    when the field loses focus is never below 20, is 20 for every number
    typed up to 20, and is the number typed from 20 on (up to 2^53, from where
    on not every integer is a number); the limit of cards is 20 at every
    position of the slider. *)
Theorem clamp_returns_the_greatest :
  forall (value : string) (n lo hi : Z),
    clamp n lo hi = Z.max n (Z.max lo hi)
    /\ 20 <= countOnBlur (digitsOnly value)
    /\ (Number_of_digits (digitsOnly value) <= 20 ->
        countOnBlur (digitsOnly value) = 20)
    /\ (20 <= Number_of_digits (digitsOnly value) <= 9007199254740992 ->
        countOnBlur (digitsOnly value) = Number_of_digits (digitsOnly value))
    /\ (1 <= n <= 20 -> cardLimit n = 20).
Proof.
  intros value n lo hi.
  unfold countOnBlur, cardLimit, clamp, Math_min, Math_max. cbn.
  destruct (Number_of_digits (digitsOnly value) =? 0) eqn:Hn.
  - apply Z.eqb_eq in Hn. rewrite Hn. repeat split; lia.
  - repeat split; lia.
Qed.

Lemma clamp_returns_the_greatest_witness :
  countOnBlur (digitsOnly "5 câu") = 20.
Proof.
  apply (proj1 (proj2 (proj2 (clamp_returns_the_greatest "5 câu" 0 0 0)))).
  vm_compute. discriminate.
Defined.

(** X17. Dropping a dragged card on another one moves that one card: the
    dragged card is at the position of the drop, the other cards keep their
    order, and the set is the same; nothing stays dragged. A drop on the
    card itself, or with nothing dragged, leaves the cards as they are. *)
Theorem card_drop_moves_one_card :
  forall (cards : list Card) (dragged dropIndex : nat),
    (dragged < length cards)%nat ->
    (dropIndex < length cards)%nat ->
    dragged <> dropIndex ->
    exists newCards,
      handleCardDrop dropIndex (Some dragged) cards = Some (newCards, None)
      /\ newCards !! dropIndex = cards !! dragged
      /\ delete dropIndex newCards = delete dragged cards
      /\ newCards ≡ₚ cards
      /\ length newCards = length cards
      /\ handleCardDrop dragged (Some dragged) cards = Some (cards, None)
      /\ handleCardDrop dropIndex None cards = Some (cards, None).
Proof.
  intros cards dragged dropIndex Hi Hj Hne.
  unfold handleCardDrop. rewrite !decide_False, decide_True by done.
  destruct (lookup_lt_is_Some_2 cards dragged Hi) as [x Hx]. rewrite Hx.
  eexists. split; [reflexivity|].
  unfold splice_insert, splice_remove.
  assert (Hlen : length (delete dragged cards) = (length cards - 1)%nat).
  { rewrite length_delete; [lia|by eexists]. }
  assert (Htake : length (take dropIndex (delete dragged cards)) = dropIndex).
  { rewrite length_take. lia. }
  split; [|split; [|split; [|split]]].
  - rewrite lookup_app_r by lia. by rewrite Htake, Nat.sub_diag.
  - rewrite delete_take_drop.
    rewrite take_app_length' by done.
    rewrite cons_middle, app_assoc.
    rewrite drop_app_length' by (rewrite length_app; cbn; lia).
    apply take_drop.
  - rewrite <- Permutation_middle, take_drop. symmetry. by apply delete_Permutation.
  - rewrite length_app. cbn. rewrite Htake, length_drop. lia.
  - done.
Qed.

Lemma card_drop_moves_one_card_witness :
  exists newCards,
    handleCardDrop 2 (Some 0%nat) sampleDeck = Some (newCards, None)
    /\ newCards !! 2%nat = sampleDeck !! 0%nat
    /\ delete 2%nat newCards = delete 0%nat sampleDeck
    /\ newCards ≡ₚ sampleDeck
    /\ length newCards = length sampleDeck
    /\ handleCardDrop 0 (Some 0%nat) sampleDeck = Some (sampleDeck, None)
    /\ handleCardDrop 2 None sampleDeck = Some (sampleDeck, None).
Proof.
  apply (card_drop_moves_one_card sampleDeck 0 2); cbn; lia.
Defined.

End CardDeckFacts.

(** ** The API key *)

Module ApiFacts.
Import Api.

(** X18. The key that is saved is the key of the next visit. [saveApiKey]
    ignores a key that is empty or that trims to the empty string; any other
    key is stored trimmed, and the mount effect of a page loaded afterwards
    sets that key and shows no modal. After [clearApiKey] a page loaded
    afterwards has no key and shows the modal. *)
Theorem saved_key_is_read_back :
  forall (trim : string -> string) (key : string) (st : State),
    (key = "" \/ trim key = "" -> saveApiKey trim key st = st)
    /\ (key <> "" -> trim key <> "" ->
        apiKey (saveApiKey trim key st) = Some (trim key)
        /\ showKeyModal (saveApiKey trim key st) = false
        /\ mountEffect (loaded (storedKey (saveApiKey trim key st)))
           = {| apiKey := Some (trim key); showKeyModal := false;
                storedKey := Some (trim key); alerts := [] |})
    /\ mountEffect (loaded (storedKey (clearApiKey st)))
       = {| apiKey := None; showKeyModal := true; storedKey := None; alerts := [] |}.
Proof.
  intros trim key st. split; [|split].
  - unfold saveApiKey. intros [-> | ->]; [done|].
    rewrite (bool_decide_eq_true_2 ("" = "")) by done. by rewrite andb_false_r.
  - intros Hkey Htrim. unfold saveApiKey.
    rewrite !bool_decide_eq_false_2 by done. cbn.
    repeat split. unfold mountEffect, loaded, KidGenius.missing. cbn.
    by rewrite bool_decide_eq_false_2.
  - done.
Qed.

Lemma saved_key_is_read_back_witness :
  mountEffect (loaded (storedKey (saveApiKey trimSpaces "  AIza-demo " (loaded None))))
  = {| apiKey := Some "AIza-demo"; showKeyModal := false;
       storedKey := Some "AIza-demo"; alerts := [] |}.
Proof.
  apply (proj1 (proj2 (saved_key_is_read_back trimSpaces "  AIza-demo " (loaded None))));
    vm_compute; discriminate.
Defined.

(** X19. [runWithApiKey] and the callback it is given. Without a key the
    callback is not run: the world it acts on is as before, the promise is
    rejected and the modal is shown. With a key the promise settles as the
    callback does, a value or the very exception it threw; the key is kept
    unless the message of the exception is one of the four that tell of a
    rejected key, and then the key is gone from the state and from the
    storage, so that a page loaded afterwards shows the modal. *)
Theorem run_with_api_key :
  forall (toLowerCase : string -> string) (message : exception -> option string)
         (A W : Type) (callback : W -> outcome A * W) (st : State) (w : W),
    (KidGenius.missing (apiKey st) = true ->
       settled (runWithApiKey toLowerCase message callback st w)
       = Throw (Error "API key is required.")
       /\ world (runWithApiKey toLowerCase message callback st w) = w
       /\ showKeyModal (provider (runWithApiKey toLowerCase message callback st w)) = true
       /\ storedKey (provider (runWithApiKey toLowerCase message callback st w))
          = storedKey st)
    /\ (KidGenius.missing (apiKey st) = false ->
          settled (runWithApiKey toLowerCase message callback st w) = (callback w).1
          /\ world (runWithApiKey toLowerCase message callback st w) = (callback w).2
          /\ (forall a, (callback w).1 = Ok a ->
                provider (runWithApiKey toLowerCase message callback st w) = st)
          /\ (forall err, (callback w).1 = Throw err ->
                keyRejected toLowerCase message err = false ->
                provider (runWithApiKey toLowerCase message callback st w) = st)
          /\ (forall err, (callback w).1 = Throw err ->
                keyRejected toLowerCase message err = true ->
                mountEffect
                  (loaded (storedKey
                             (provider (runWithApiKey toLowerCase message callback st w))))
                = {| apiKey := None; showKeyModal := true; storedKey := None;
                     alerts := [] |})).
Proof.
  intros toLowerCase message A W callback st w. unfold runWithApiKey.
  split; intros Hkey; rewrite Hkey; [done|].
  cbv zeta. destruct (callback w) as [[a|err] w']; cbn [fst snd].
  - repeat split; try done. all: try (intros; simplify_eq; congruence).
  - destruct (keyRejected toLowerCase message err) eqn:Hrej; cbn [fst snd].
    + repeat split; try done. all: try (intros; simplify_eq; congruence).
    + repeat split; try done. all: try (intros; simplify_eq; congruence).
Qed.

Lemma run_with_api_key_witness :
  mountEffect
    (loaded (storedKey
               (provider
                  (runWithApiKey toLowerAscii messageOfError rejectingCallback
                     signedIn 0%nat))))
  = {| apiKey := None; showKeyModal := true; storedKey := None; alerts := [] |}.
Proof.
  destruct (run_with_api_key toLowerAscii messageOfError unit nat rejectingCallback
              signedIn 0%nat) as [_ H].
  destruct (H eq_refl) as (_ & _ & _ & _ & H').
  exact (H' (Error "API key not valid. Please pass a valid API key.") eq_refl eq_refl).
Defined.

End ApiFacts.

(** ** Starting a quiz from the learning path *)

Module PathQuizFacts.
Import KidGenius PathQuiz.

Lemma generateKidGeniusQuiz_settings (apiKey : option string) (fromPath : bool)
    (reply : Reply) (st : State) :
  settings (generateKidGeniusQuiz apiKey fromPath reply st) = settings st.
Proof. unfold generateKidGeniusQuiz. by destruct (generatedQuestions apiKey reply). Qed.

Lemma answerAndNext_settings (c : Z) (st st' : State) :
  answerAndNext c st = Ok st' -> settings st' = settings st.
Proof.
  unfold answerAndNext, handleAnswerSelect.
  destruct (showFeedback st); cbn; [by intros [= <-]|].
  destruct (member _ _); cbn; [|done]. by intros [= <-].
Qed.

Lemma attempt_settings (cs : list Z) (st st' : State) :
  attempt cs st = Ok st' -> settings st' = settings st.
Proof.
  revert st. induction cs as [|c cs IH]; intros st; cbn; [by intros [= <-]|].
  destruct (answerAndNext c st) as [st1|] eqn:H1; cbn; [|done].
  intros H. rewrite (IH _ H). by eapply answerAndNext_settings.
Qed.

(** X20. A quiz started from the learning path is asked for with the
    settings of before the click and recorded with those of the click. With
    a key set, the one request sent carries the topic and the difficulty the
    settings had when the week was clicked, not the week's topics nor the
    difficulty chosen; the settings then hold the week's topics and the
    difficulty chosen, and after any attempt at the quiz the entry added to
    the history names them. *)
Theorem path_quiz_is_asked_with_the_old_settings :
  forall (weekTopics : list json) (difficulty : string) (apiKey : option string)
         (reply : Reply) (st : State),
    missing apiKey = false ->
    (startQuizFromPath weekTopics difficulty apiKey reply st).2
    = [quizRequest (settings st)]
    /\ Unlock.difficulty (settings (startQuizFromPath weekTopics difficulty apiKey reply st).1)
       = difficulty
    /\ Unlock.topic (settings (startQuizFromPath weekTopics difficulty apiKey reply st).1)
       = LearningPathMap.join ", " weekTopics
    /\ (forall (choices : list Z) (st' : State) (now : string) (reply' : Reply)
               (f : Finished),
          attempt choices (startQuizFromPath weekTopics difficulty apiKey reply st).1
          = Ok st' ->
          exists entry,
            quizHistory (generateAITutorFeedback apiKey now reply' f st').1
            = (quizHistory st' ++ [entry])%list
            /\ h_difficulty entry = difficulty
            /\ h_topic entry
               = or_else (Some (LearningPathMap.join ", " weekTopics))
                         (Unlock.subject (settings st))).
Proof.
  intros weekTopics difficulty apiKey reply st Hkey.
  unfold startQuizFromPath. rewrite Hkey. cbn [fst snd].
  rewrite generateKidGeniusQuiz_settings. cbn.
  split; [done|]. split; [done|]. split; [done|].
  intros choices st' now reply' f Hattempt.
  apply attempt_settings in Hattempt.
  rewrite generateKidGeniusQuiz_settings in Hattempt.
  eexists. split; [reflexivity|]. cbn. by rewrite Hattempt.
Qed.

Lemma path_quiz_is_asked_with_the_old_settings_witness :
  (startQuizFromPath [JStr "Phân số"] "Khó" (Some "AIza-demo") threeQuestionsReply initial).2
  = [{| rq_grade := "Lớp 6"; rq_subject := "Toán";
        rq_topic := "Kiến thức tổng hợp của môn học"; rq_difficulty := "Dễ" |}].
Proof.
  apply (path_quiz_is_asked_with_the_old_settings
           [JStr "Phân số"] "Khó" (Some "AIza-demo") threeQuestionsReply initial).
  reflexivity.
Defined.

End PathQuizFacts.

(** ** Saving the session and the assignments *)

Module SessionFacts.
Import Persistence Session.

Lemma JSON_stringify_object_nonempty (fields : list (string * json)) :
  nonempty (JSON_stringify (JObj fields)) = true.
Proof.
  unfold nonempty, JSON_stringify. cbn [chars].
  apply negb_true_iff, bool_decide_eq_false. by cbn.
Qed.

Lemma JSON_stringify_array_nonempty (items : list json) :
  nonempty (JSON_stringify (JArr items)) = true.
Proof.
  unfold nonempty, JSON_stringify. cbn [chars].
  apply negb_true_iff, bool_decide_eq_false. by cbn.
Qed.

Lemma or_value_string (s d : string) :
  (s = "" -> d = "") -> or_value (Some (JStr s)) (JStr d) = JStr s.
Proof.
  intros H. unfold or_value, truthy.
  destruct (decide (s = "")) as [->|Hs].
  - by rewrite H.
  - by rewrite bool_decide_eq_false_2.
Qed.

Lemma isProgressStage_string (stage : option json) :
  isProgressStage stage = true -> exists s, stage = Some (JStr s) /\ s <> "".
Proof.
  destruct stage as [[| | |s| |]|]; try done. cbn.
  rewrite bool_decide_eq_true. intros Hin. exists s. split; [done|].
  intros ->. rewrite !elem_of_cons in Hin.
  destruct Hin as [?|[?|[?|[?|[?|Hin]]]]]; try done. by apply elem_of_nil in Hin.
Qed.

(** X21. A session that was saved is the session restored. In a stage of
    work that is no assignment, for a state of the types the component
    gives it, the effect that saves the session writes a text from which the
    mount effect of the next visit, once the user has agreed, restores the
    stage, the topic, the questions, the answers, the cards, the name of the
    file and the learning kit as they were; when the user declines, the
    session is removed and the first screen stays. *)
Theorem saved_session_is_restored :
  forall (st : Mounted) (ls : LocalStorage) (a s : json),
    isProgressStage (stage st) = true ->
    truthy (assignmentId st) = false ->
    sessionTyped st ->
    JSON_parse (or_text (ls !! "eduquiz:assignments") empty_array_text) = Ok a ->
    JSON_parse (or_text (ls !! "eduquiz:submissions") empty_object_text) = Ok s ->
    (exists st',
        mountPlain true firstRender (saveSession st ls) = Ok (st', saveSession st ls, [])
        /\ stage st' = stage st /\ topic st' = topic st
        /\ questions st' = questions st /\ answers st' = answers st
        /\ cards st' = cards st /\ pdfName st' = pdfName st
        /\ learningKit st' = learningKit st
        /\ assignments st' = Some a /\ submissions st' = Some s)
    /\ (exists st',
          mountPlain false firstRender (saveSession st ls)
          = Ok (st', delete "eduquiz:session" (saveSession st ls), [])
          /\ stage st' = Some (JStr "builder") /\ cards st' = Some (JArr [])).
Proof.
  intros st ls a s Hstage Hid Htyped Ha Hs.
  destruct (isProgressStage_string _ Hstage) as (sg & Hsg & Hne).
  destruct Htyped as ((t & Ht) & (qs & Hqs) & (an & Han) & (cs & Hcs) & (p & Hp) & Hkit).
  unfold saveSession. rewrite Hstage, Hid. cbn [andb negb]. cbv zeta.
  set (sessionData := object _).
  set (ls' := <["eduquiz:session" := JSON_stringify sessionData]> ls).
  assert (Hla : ls' !! "eduquiz:assignments" = ls !! "eduquiz:assignments").
  { by apply lookup_insert_ne. }
  assert (Hlb : ls' !! "eduquiz:submissions" = ls !! "eduquiz:submissions").
  { by apply lookup_insert_ne. }
  assert (Hlc : ls' !! "eduquiz:session" = Some (JSON_stringify sessionData)).
  { apply lookup_insert_eq. }
  unfold mountPlain. rewrite Hla, Hlb, Ha, Hs, Hlc.
  cbn [mbind outcome_bind].
  replace (nonempty (JSON_stringify sessionData)) with true
    by (symmetry; apply JSON_stringify_object_nonempty).
  split.
  - unfold restoreSession, JSON_stringify, JSON_parse. cbn [parsed].
    subst sessionData. rewrite Hsg, Ht, Hqs, Han, Hcs, Hp.
    destruct Hkit as [Hk | [k Hk]]; rewrite Hk; cbn.
    all: repeat first [rewrite decide_True by done | rewrite decide_False by done].
    all: rewrite !or_value_string by done.
    all: eexists; split; [reflexivity|]; cbn; by rewrite ?Hk.
  - eexists. split; [reflexivity|]. done.
Qed.

Lemma saved_session_is_restored_witness :
  exists st',
    mountPlain true firstRender (saveSession atWork ∅) = Ok (st', saveSession atWork ∅, [])
    /\ stage st' = stage atWork /\ topic st' = topic atWork
    /\ questions st' = questions atWork /\ answers st' = answers atWork
    /\ cards st' = cards atWork /\ pdfName st' = pdfName atWork
    /\ learningKit st' = learningKit atWork
    /\ assignments st' = Some (JArr []) /\ submissions st' = Some (JObj []).
Proof.
  apply (saved_session_is_restored atWork ∅ (JArr []) (JObj [])).
  - reflexivity.
  - reflexivity.
  - unfold sessionTyped. cbn. repeat split; try by eexists. by left.
  - reflexivity.
  - reflexivity.
Defined.

Lemma findById_last (id : string) (items : list json) (fields : list (string * json)) :
  findById id items = Ok None ->
  assoc "id" fields = Some (JStr id) ->
  findById id (items ++ [JObj fields]) = Ok (Some (JObj fields)).
Proof.
  intros Hnone Hid. induction items as [|x items IH]; cbn [app findById].
  - unfold member. cbn [property mbind outcome_bind]. rewrite Hid.
    by rewrite decide_True.
  - cbn [findById] in Hnone.
    destruct (member (Some x) "id") as [i|]; cbn [mbind outcome_bind] in *; [|done].
    destruct i as [[| | |s| |]|]; try by apply IH.
    destruct (decide (s = id)); [done|by apply IH].
Qed.

(** X22. An assignment is found by the link made for it. With the
    assignments of the state an array in which no assignment has the new id,
    [handleAssignQuiz] stores a list in which the mount effect of a page
    opened with [?assignment=<id>] finds the new assignment: that page goes
    to the entry of the student's name with the topic (or the default title
    when there is none), the questions and the id of the assignment. *)
Theorem assignment_is_found_by_its_link :
  forall (id createdAt : string) (st opened : Mounted) (ls : LocalStorage)
         (items : list json) (confirmed : bool),
    assignments st = Some (JArr items) ->
    id <> "" ->
    findById id items = Ok None ->
    exists st' ls',
      handleAssignQuiz id createdAt st ls = Ok (st', ls')
      /\ stage st' = Some (JStr "share") /\ assignmentId st' = Some (JStr id)
      /\ mountEffect (Some id) confirmed opened ls'
         = Ok ({| stage := Some (JStr "studentNameEntry");
                  topic := Some (or_value (topic st) (JStr "Bài tập không có chủ đề"));
                  questions := questions st;
                  answers := answers opened;
                  cards := cards opened;
                  pdfName := pdfName opened;
                  learningKit := learningKit opened;
                  assignmentId := Some (JStr id);
                  assignments := assignments opened;
                  submissions := submissions opened;
                  hasSavedCards := hasSavedCards opened |},
               ls', []).
Proof.
  intros id createdAt st opened ls items confirmed Hitems Hid Hnone.
  unfold handleAssignQuiz. rewrite Hitems. cbn [spread mbind outcome_bind].
  eexists _, _. split; [reflexivity|]. split; [done|]. split; [done|].
  unfold mountEffect. rewrite bool_decide_eq_false_2 by done. cbn [negb].
  unfold mountAssignment. rewrite lookup_insert_eq.
  unfold or_text. rewrite JSON_stringify_array_nonempty.
  unfold JSON_stringify, JSON_parse. cbn [parsed mbind outcome_bind findAssignment].
  unfold object.
  destruct (questions st) as [qs|] eqn:Hqs; cbn [omap fmap option_fmap option_map fst snd].
  - erewrite findById_last; [|done|cbn; by rewrite decide_True].
    cbn. repeat first [rewrite decide_True by done | rewrite decide_False by done].
    done.
  - erewrite findById_last; [|done|cbn; by rewrite decide_True].
    cbn. repeat first [rewrite decide_True by done | rewrite decide_False by done].
    done.
Qed.

Lemma assignment_is_found_by_its_link_witness :
  exists st' ls',
    handleAssignQuiz "lq2x3k9a" "2024-01-01T00:00:00.000Z" atWork ∅ = Ok (st', ls')
    /\ stage st' = Some (JStr "share") /\ assignmentId st' = Some (JStr "lq2x3k9a")
    /\ mountEffect (Some "lq2x3k9a") false firstRender ls'
       = Ok ({| stage := Some (JStr "studentNameEntry");
                topic := Some (or_value (topic atWork) (JStr "Bài tập không có chủ đề"));
                questions := questions atWork;
                answers := answers firstRender;
                cards := cards firstRender;
                pdfName := pdfName firstRender;
                learningKit := learningKit firstRender;
                assignmentId := Some (JStr "lq2x3k9a");
                assignments := assignments firstRender;
                submissions := submissions firstRender;
                hasSavedCards := hasSavedCards firstRender |},
             ls', []).
Proof.
  apply (assignment_is_found_by_its_link "lq2x3k9a" "2024-01-01T00:00:00.000Z"
           atWork firstRender ∅ [] false).
  - reflexivity.
  - discriminate.
  - reflexivity.
Defined.

End SessionFacts.

(** ** The guarded reads of the path, the history and the session *)

Module StorageFacts.
Import Persistence.

(** X23. The learning path and the history are read in one guarded block:
    when both texts parse, both are loaded; when the history does not parse,
    the path that did is given up as well, and the state is no path and an
    empty history, as it is when neither key is there. *)
Theorem path_and_history_load_together :
  forall (uid grade subject : string) (ls : LocalStorage) (p h : text),
    ls !! ("kidGeniusPath_" +:+ (uid +:+ "_" +:+ grade +:+ "_" +:+ subject)) = Some p ->
    ls !! ("kidGeniusHistory_" +:+ (uid +:+ "_" +:+ grade +:+ "_" +:+ subject)) = Some h ->
    nonempty p = true ->
    nonempty h = true ->
    (forall vp vh, parsed p = Ok vp -> parsed h = Ok vh ->
       loadPathAndHistory uid grade subject ls = (vp, vh))
    /\ (forall vp e, parsed p = Ok vp -> parsed h = Throw e ->
          loadPathAndHistory uid grade subject ls = (JNull, JArr []))
    /\ (forall e, parsed p = Throw e ->
          loadPathAndHistory uid grade subject ls = (JNull, JArr []))
    /\ loadPathAndHistory uid grade subject ∅ = (JNull, JArr []).
Proof.
  intros uid grade subject ls p h Hp Hh Hnp Hnh.
  unfold loadPathAndHistory, parsedOr, JSON_parse. cbv zeta.
  rewrite Hp, Hh, Hnp, Hnh.
  split; [|split; [|split]].
  - by intros vp vh -> ->.
  - by intros vp e -> ->.
  - by intros e ->.
  - by rewrite !lookup_empty.
Qed.

Lemma path_and_history_load_together_witness :
  loadPathAndHistory "u1" "Lớp 6" "Toán"
    {[ "kidGeniusPath_u1_Lớp 6_Toán" := Text "[]" (Ok (JArr []));
       "kidGeniusHistory_u1_Lớp 6_Toán" := Text "[{" (Throw SyntaxError) ]}
  = (JNull, JArr []).
Proof.
  refine (proj1 (proj2 (path_and_history_load_together "u1" "Lớp 6" "Toán"
                          {[ "kidGeniusPath_u1_Lớp 6_Toán" := Text "[]" (Ok (JArr []));
                             "kidGeniusHistory_u1_Lớp 6_Toán" := Text "[{" (Throw SyntaxError) ]}
                          (Text "[]" (Ok (JArr []))) (Text "[{" (Throw SyntaxError))
                          _ _ _ _))
            (JArr []) SyntaxError _ _); vm_compute; reflexivity.
Defined.

(** X24. A session that does not parse is dropped. When the texts of the
    assignments and of the submissions parse and the user agrees to go on
    with a session whose text does not parse, the mount effect of QuizMaster
    ends without an exception: the session is removed from the storage, the
    screen and the cards stay as they were, and the saved cards are looked
    for. *)
Theorem corrupt_session_is_dropped :
  forall (st : Mounted) (ls : LocalStorage) (a s : json) (t : text) (e : exception),
    JSON_parse (or_text (ls !! "eduquiz:assignments") empty_array_text) = Ok a ->
    JSON_parse (or_text (ls !! "eduquiz:submissions") empty_object_text) = Ok s ->
    ls !! "eduquiz:session" = Some t ->
    nonempty t = true ->
    parsed t = Throw e ->
    exists st',
      mountEffect None true st ls = Ok (st', delete "eduquiz:session" ls, [])
      /\ stage st' = stage st /\ topic st' = topic st /\ questions st' = questions st
      /\ cards st' = cards st
      /\ assignments st' = Some a /\ submissions st' = Some s
      /\ hasSavedCards st' = present (ls !! "eduquiz:saved_cards").
Proof.
  intros st ls a s t e Ha Hs Hk Hn Hp.
  unfold mountEffect, mountPlain. rewrite Ha, Hs, Hk, Hn.
  cbn [mbind outcome_bind].
  unfold restoreSession, JSON_parse. rewrite Hp. cbn [mbind outcome_bind].
  eexists. split; [reflexivity|]. cbn.
  rewrite lookup_delete_ne by done. done.
Qed.

Lemma corrupt_session_is_dropped_witness :
  exists st',
    mountEffect None true Session.firstRender
      {[ "eduquiz:session" := Text "{oops" (Throw SyntaxError) ]}
    = Ok (st', delete "eduquiz:session" {[ "eduquiz:session" := Text "{oops" (Throw SyntaxError) ]}, [])
    /\ stage st' = stage Session.firstRender /\ topic st' = topic Session.firstRender
    /\ questions st' = questions Session.firstRender
    /\ cards st' = cards Session.firstRender
    /\ assignments st' = Some (JArr []) /\ submissions st' = Some (JObj [])
    /\ hasSavedCards st'
       = present (({[ "eduquiz:session" := Text "{oops" (Throw SyntaxError) ]} : LocalStorage)
                    !! "eduquiz:saved_cards").
Proof.
  apply (corrupt_session_is_dropped Session.firstRender
           {[ "eduquiz:session" := Text "{oops" (Throw SyntaxError) ]}
           (JArr []) (JObj []) (Text "{oops" (Throw SyntaxError)) SyntaxError);
    reflexivity.
Defined.

End StorageFacts.

(** ** What a finished quiz of QuizMaster records *)

Module QuizAttemptFacts.
Import QuizMaster.
Local Open Scope list_scope.

Lemma recorded_lookup_other (cs : list Z) (qs : list Question) (base : gmap Z Z) (k : Z) :
  k ∉ map id qs -> recorded cs qs base !! k = base !! k.
Proof.
  revert cs base. induction qs as [|x qs IH]; intros cs base Hk.
  - by destruct cs.
  - destruct cs as [|c cs]; [done|]. unfold recorded. cbn.
    apply not_elem_of_cons in Hk as [Hx Hk].
    fold (recorded cs qs (<[id x := c]> base)). rewrite IH by done.
    by rewrite lookup_insert_ne.
Qed.

Lemma recorded_flags (cs : list Z) (qs : list Question) (base : gmap Z Z) :
  NoDup (map id qs) ->
  length cs = length qs ->
  map (fun x => bool_decide (recorded cs qs base !! id x = Some (a x))) qs
  = zip_with (fun c x => bool_decide (c = a x)) cs qs.
Proof.
  revert cs base. induction qs as [|x qs IH]; intros cs base Hnd Hlen.
  - by destruct cs.
  - destruct cs as [|c cs]; [done|]. cbn in Hlen.
    apply NoDup_cons in Hnd as [Hx Hnd]. cbn [map zip_with]. f_equal.
    + unfold recorded. cbn. fold (recorded cs qs (<[id x := c]> base)).
      rewrite recorded_lookup_other by done. rewrite lookup_insert_eq.
      apply bool_decide_ext. split; [by intros [= ->]|by intros ->].
    + unfold recorded. cbn. fold (recorded cs qs (<[id x := c]> base)).
      apply IH; [done|lia].
Qed.

Lemma attempt_records (now : Z) (qs : list Question) :
  forall (pre : list Question) (cs : list Z) (st : State),
    qs <> [] ->
    questions st = pre ++ qs ->
    currentQuestionIndex st = length pre ->
    showFeedback st = false ->
    length cs = length qs ->
    exists st' pack,
      attempt now cs st = Ok st'
      /\ stage st' = "result"
      /\ questions st' = questions st
      /\ answers st' = recorded cs qs (answers st)
      /\ correctness st'
         = map (fun x => bool_decide (answers st' !! id x = Some (a x))) (questions st)
      /\ result st' = Some pack /\ lastPack st' = Some pack
      /\ p_total pack = 100%float
      /\ p_streak pack = longestStreak (correctness st')
      /\ p_score pack = Math_round (score st')
      /\ p_at pack = now.
Proof.
  induction qs as [|x qs IH]; intros pre cs st Hne Hqs Hi Hf Hlen; [done|].
  destruct cs as [|c cs]; [done|]. cbn [length] in Hlen.
  assert (Hx : questions st !! currentQuestionIndex st = Some x).
  { by rewrite Hqs, Hi, list_lookup_middle. }
  cbn [attempt]. unfold handleAnswerSelectQuiz. rewrite Hf, Hx.
  cbn [mbind outcome_bind].
  set (st1 := {| stage := stage st |}).
  assert (Hlast : (Z.of_nat (currentQuestionIndex st) <? Z.of_nat (length (questions st)) - 1)
                  = negb (bool_decide (qs = []))).
  { rewrite Hqs, Hi, length_app. cbn [length].
    destruct qs; cbn [length bool_decide negb].
    - rewrite bool_decide_eq_true_2 by done. cbn. apply Z.ltb_ge. lia.
    - rewrite bool_decide_eq_false_2 by done. cbn. apply Z.ltb_lt. lia. }
  destruct qs as [|x' qs].
  - destruct cs; [|done].
    unfold handleNext. cbn [currentQuestionIndex questions st1]. rewrite Hlast.
    rewrite bool_decide_eq_true_2 by done. cbn [negb attempt].
    eexists _, _. split; [reflexivity|]. cbn. repeat split; reflexivity.
  - destruct (IH (pre ++ [x]) cs (handleNext now st1)) as (st' & pack & Hst' & Hrest).
    + done.
    + unfold handleNext. cbn [currentQuestionIndex questions st1]. rewrite Hlast.
      rewrite bool_decide_eq_false_2 by done. cbn. by rewrite Hqs, <- app_assoc.
    + unfold handleNext. cbn [currentQuestionIndex questions st1]. rewrite Hlast.
      rewrite bool_decide_eq_false_2 by done. cbn. rewrite Hi, length_app. cbn. lia.
    + unfold handleNext. cbn [currentQuestionIndex questions st1]. rewrite Hlast.
      by rewrite bool_decide_eq_false_2 by done.
    + lia.
    + exists st', pack. split; [done|].
      assert (Hq1 : questions (handleNext now st1) = questions st).
      { unfold handleNext. cbn [currentQuestionIndex questions st1]. rewrite Hlast.
        by rewrite bool_decide_eq_false_2 by done. }
      assert (Ha1 : answers (handleNext now st1) = <[id x := c]> (answers st)).
      { unfold handleNext. cbn [currentQuestionIndex questions st1]. rewrite Hlast.
        by rewrite bool_decide_eq_false_2 by done. }
      rewrite Hq1, Ha1 in Hrest. done.
Qed.

(** X25. What a finished quiz of QuizMaster records. For questions with
    distinct ids, answering each in turn ends in the result stage with one
    flag of correctness for each question, the flag of a question telling
    whether the option chosen for it is its answer; the pack of the result,
    also stored as the last one, has the total 100, the rounded score, the
    longest streak of the flags, which is at most the number of questions,
    and the time. *)
Theorem finished_quiz_records_the_choices :
  forall (now : Z) (st : State) (choices : list Z),
    questions st <> [] ->
    NoDup (map id (questions st)) ->
    length choices = length (questions st) ->
    exists st' pack,
      attempt now choices (startQuiz st) = Ok st'
      /\ stage st' = "result"
      /\ correctness st'
         = zip_with (fun c x => bool_decide (c = a x)) choices (questions st)
      /\ result st' = Some pack /\ lastPack st' = Some pack
      /\ p_total pack = 100%float
      /\ p_score pack = Math_round (score st')
      /\ p_streak pack = longestStreak (correctness st')
      /\ (p_streak pack <= length (questions st))%nat
      /\ p_at pack = now.
Proof.
  intros now st choices Hne Hnd Hlen.
  destruct (attempt_records now (questions st) [] choices (startQuiz st))
    as (st' & pack & Hst' & Hstage & Hqs & Hans & Hcor & Hres & Hlast & Htot & Hstreak
        & Hscore & Hat); try done.
  exists st', pack. split; [done|]. split; [done|].
  assert (Hflags : correctness st'
                   = zip_with (fun c x => bool_decide (c = a x)) choices (questions st)).
  { rewrite Hcor, Hans. cbn [startQuiz questions answers]. by apply recorded_flags. }
  split; [done|]. repeat split; try done.
  rewrite Hstreak.
  destruct (StreakFacts.streakAfter_spec (correctness st')) as (_ & _ & (l1 & l2 & Hrun) & _).
  apply (f_equal length) in Hrun.
  rewrite !length_app, length_replicate in Hrun.
  assert (length (correctness st') = length (questions st)).
  { rewrite Hflags, length_zip_with. lia. }
  unfold longestStreak. fold (streakAfter (correctness st')). lia.
Qed.

Lemma finished_quiz_records_the_choices_witness :
  exists st' pack,
    attempt 0 [0; 1; 2] (startQuiz sampleQuiz) = Ok st'
    /\ stage st' = "result"
    /\ correctness st'
       = zip_with (fun c x => bool_decide (c = a x)) [0; 1; 2] (questions sampleQuiz)
    /\ result st' = Some pack /\ lastPack st' = Some pack
    /\ p_total pack = 100%float
    /\ p_score pack = Math_round (score st')
    /\ p_streak pack = longestStreak (correctness st')
    /\ (p_streak pack <= length (questions sampleQuiz))%nat
    /\ p_at pack = 0.
Proof.
  apply (finished_quiz_records_the_choices 0 sampleQuiz [0; 1; 2]).
  - vm_compute. discriminate.
  - apply (bool_decide_unpack _). by vm_compute.
  - reflexivity.
Defined.

End QuizAttemptFacts.

(** ** The memory game *)

Module MemoryGameFacts.
Import MemoryGame.
Local Open Scope list_scope.
Local Open Scope nat_scope.

Lemma imap_emoji (f : nat -> Card -> Card) (l : list Card) :
  (forall i c, emoji (f i c) = emoji c) ->
  map emoji (imap f l) = map emoji l.
Proof.
  intros Hf. revert f Hf. induction l as [|c l IH]; intros f Hf; [done|].
  cbn. rewrite Hf. f_equal. apply IH. intros i c'. apply Hf.
Qed.

Lemma imap_matchedCount (f : nat -> Card -> Card) (l : list Card) :
  (forall i c, isMatched (f i c) = isMatched c) ->
  matchedCount (imap f l) = matchedCount l.
Proof.
  intros Hf. unfold matchedCount. revert f Hf.
  induction l as [|c l IH]; intros f Hf; [done|].
  cbn [imap]. rewrite !filter_cons, Hf.
  destruct (decide (isMatched c = true)); cbn [length];
    rewrite IH by (intros i c'; apply Hf); done.
Qed.

(** Marking the cards of one emoji matches at most as many more cards as
    have that emoji, and unmatches none. *)
Lemma mark_matchedCount (e : string) (l : list Card) :
  matchedCount l
  <= matchedCount (map (fun card => if decide (emoji card = e) then matched card else card) l)
  <= matchedCount l + length (filter (fun x => x = e) (map emoji l)).
Proof.
  unfold matchedCount. induction l as [|c l IH]; [cbn; lia|].
  cbn [map]. rewrite !filter_cons.
  destruct (decide (emoji c = e)) as [He|He]; cbn [isMatched matched].
  - rewrite (decide_True (P := true = true)) by done.
    destruct (decide (isMatched c = true)); cbn [length]; lia.
  - destruct (decide (isMatched c = true)); cbn [length]; lia.
Qed.

Lemma mark_emoji (e : string) (l : list Card) :
  map emoji (map (fun card => if decide (emoji card = e) then matched card else card) l)
  = map emoji l.
Proof.
  induction l as [|c l IH]; [done|]. cbn. rewrite IH. f_equal. by case_decide.
Qed.

Lemma filter_absent (e : string) (l : list string) :
  e ∉ l -> filter (fun x => x = e) l = [].
Proof.
  induction l as [|x l IH]; [done|]. intros Hx.
  apply not_elem_of_cons in Hx as [Hne Hx].
  rewrite filter_cons, decide_False by done. by apply IH.
Qed.

(** Every emoji is dealt at most twice. *)
Lemma emoji_at_most_twice (e : string) (l : list string) :
  l ≡ₚ map emoji unshuffledCards ->
  length (filter (fun x => x = e) l) <= 2.
Proof.
  intros Hl. rewrite Hl.
  change (map emoji unshuffledCards) with (EMOJIS ++ EMOJIS).
  rewrite filter_app, length_app.
  assert (length (filter (fun x => x = e) EMOJIS) <= 1); [|lia].
  assert (Hnd : NoDup EMOJIS) by (apply (bool_decide_unpack _); vm_compute; done).
  revert Hnd. generalize EMOJIS. intros l0. induction l0 as [|x l0 IH]; intros Hnd; [cbn; lia|].
  apply NoDup_cons in Hnd as [Hx Hnd]. rewrite filter_cons.
  destruct (decide (x = e)) as [->|]; [|by apply IH].
  cbn [length]. by rewrite filter_absent.
Qed.

Lemma gameOverEffect_same (st : State) :
  cards (gameOverEffect st) = cards st
  /\ flippedIndices (gameOverEffect st) = flippedIndices st
  /\ turns (gameOverEffect st) = turns st
  /\ isChecking (gameOverEffect st) = isChecking st
  /\ (isGameOver (gameOverEffect st) = true ->
      isGameOver st = true \/ matchedCount (cards st) = length (cards st)).
Proof.
  unfold gameOverEffect.
  destruct (matchedCount (cards st) =? length (cards st)) eqn:Heq; cbn [andb].
  - destruct (0 <? length (cards st)); cbn; repeat split; auto.
    intros _. right. by apply Nat.eqb_eq.
  - repeat split; auto.
Qed.

Lemma matchedCount_le (l : list Card) : matchedCount l <= length l.
Proof. unfold matchedCount. apply length_filter. Qed.

Lemma step_invariant (g : Game) (e : Event) :
  invariant g -> playable e ->
  exists g', step g e = Ok g' /\ invariant g'.
Proof.
  intros (Hemoji & Hidx & Hlen & Hmatched & Hover) Hplay.
  assert (Hcards : length (cards (state g)) = length unshuffledCards).
  { apply Permutation_length in Hemoji. by rewrite !length_map in Hemoji. }
  destruct e as [index | k | deck]; cbn [step playable] in *.
  - (* a click *)
    unfold handleCardClick.
    destruct (isChecking (state g)) eqn:Hchecking; cbn [mbind outcome_bind].
    { exists g. by repeat split. }
    destruct (lookup_lt_is_Some_2 (cards (state g)) index) as [card Hcard]; [lia|].
    rewrite Hcard.
    destruct (isFlipped card || (2 <=? length (flippedIndices (state g)))) eqn:Hguard;
      cbn [mbind outcome_bind].
    { exists g. by repeat split. }
    apply orb_false_iff in Hguard as [_ Hguard]. apply Nat.leb_gt in Hguard.
    set (turned := imap _ (cards (state g))).
    assert (Hturned_emoji : map emoji turned = map emoji (cards (state g))).
    { apply imap_emoji. intros i c. by destruct (i =? index). }
    assert (Hturned_count : matchedCount turned = matchedCount (cards (state g))).
    { apply imap_matchedCount. intros i c. by destruct (i =? index). }
    assert (Hturned_len : length turned = length (cards (state g))).
    { apply length_imap. }
    unfold checkEffect. cbn [flippedIndices cards].
    destruct (flippedIndices (state g)) as [|firstIndex [|secondIndex rest]] eqn:Hfl;
      cbn [app length] in *; [| |lia].
    + (* the first card of a turn *)
      cbn [mbind outcome_bind fst snd option_list].
      eexists. split; [reflexivity|].
      match goal with
      | |- context [gameOverEffect ?s] =>
          destruct (gameOverEffect_same s) as (Hc & Hf & Ht & _ & Ho)
      end.
      unfold invariant. cbn [state]. rewrite Hc, Hf, Ht.
      cbn [cards flippedIndices turns isGameOver] in *.
      rewrite Hturned_emoji, Hturned_count, Hturned_len.
      split; [done|]. split; [|split; [|split]].
      * apply Forall_cons. split; [lia|done].
      * cbn. lia.
      * done.
      * intros Hg. destruct (Ho Hg) as [Hg'|Hall]; [by apply Hover|].
        by rewrite Hturned_count, Hturned_len in Hall.
    + (* the second card *)
      apply Forall_cons in Hidx as [Hfirst _].
      destruct (lookup_lt_is_Some_2 turned firstIndex) as [firstCard HfirstCard]; [lia|].
      destruct (lookup_lt_is_Some_2 turned index) as [secondCard HsecondCard]; [lia|].
      rewrite HfirstCard, HsecondCard.
      destruct (decide (emoji firstCard = emoji secondCard)) as [Hsame|Hdiff];
        cbn [mbind outcome_bind fst snd option_list].
      * eexists. split; [reflexivity|].
        set (marked := map _ turned).
        pose proof (mark_matchedCount (emoji firstCard) turned) as Hmark.
        fold marked in Hmark.
        pose proof (emoji_at_most_twice (emoji firstCard) (map emoji turned)) as Htwice.
        rewrite Hturned_emoji in Htwice. specialize (Htwice Hemoji).
        rewrite Hturned_emoji, Hturned_count in Hmark.
        match goal with
        | |- context [gameOverEffect ?s] =>
            destruct (gameOverEffect_same s) as (Hc & Hf & Ht & _ & Ho)
        end.
        unfold invariant. cbn [state]. rewrite Hc, Hf, Ht.
        cbn [cards flippedIndices turns isGameOver] in *.
        assert (Hmarked_len : length marked = length (cards (state g))).
        { unfold marked. by rewrite length_map. }
        split; [|split; [|split; [|split]]].
        -- unfold marked. by rewrite mark_emoji, Hturned_emoji.
        -- done.
        -- cbn. lia.
        -- lia.
        -- intros Hg. destruct (Ho Hg) as [Hg'|Hall]; [|done].
           specialize (Hover Hg'). pose proof (matchedCount_le marked). lia.
      * eexists. split; [reflexivity|].
        match goal with
        | |- context [gameOverEffect ?s] =>
            destruct (gameOverEffect_same s) as (Hc & Hf & Ht & _ & Ho)
        end.
        unfold invariant. cbn [state]. rewrite Hc, Hf, Ht.
        cbn [cards flippedIndices turns isGameOver] in *.
        rewrite Hturned_emoji, Hturned_count, Hturned_len.
        split; [done|]. split; [|split; [|split]].
        -- repeat (apply Forall_cons; split; [lia|]). done.
        -- cbn. lia.
        -- lia.
        -- intros Hg. destruct (Ho Hg) as [Hg'|Hall]; [by apply Hover|].
           by rewrite Hturned_count, Hturned_len in Hall.
  - (* a timer *)
    destruct (timers g !! k) as [[firstIndex secondIndex]|]; [|exists g; by repeat split].
    eexists. split; [reflexivity|].
    set (turned := imap (fun i card => if (i =? firstIndex) || (i =? secondIndex)
                                       then withFlipped false card else card)
                        (cards (state g))).
    assert (Hturned_emoji : map emoji turned = map emoji (cards (state g))).
    { apply imap_emoji. intros i c. by destruct (_ || _). }
    assert (Hturned_count : matchedCount turned = matchedCount (cards (state g))).
    { apply imap_matchedCount. intros i c. by destruct (_ || _). }
    assert (Hturned_len : length turned = length (cards (state g))).
    { apply length_imap. }
    destruct (gameOverEffect_same (timerCallback firstIndex secondIndex (state g)))
      as (Hc & Hf & Ht & _ & Ho).
    unfold invariant. cbn [state]. rewrite Hc, Hf, Ht.
    unfold timerCallback in *. cbn [cards flippedIndices turns isGameOver] in *.
    fold turned in Ho |- *.
    rewrite Hturned_emoji, Hturned_count, Hturned_len.
    split; [done|]. split; [done|]. split; [cbn; lia|]. split; [done|].
    intros Hg. destruct (Ho Hg) as [Hg'|Hall]; [by apply Hover|].
    by rewrite Hturned_count, Hturned_len in Hall.
  - (* a new deck *)
    eexists. split; [reflexivity|].
    unfold invariant, resetGame. cbn [state cards flippedIndices turns isGameOver].
    assert (Hnone : matchedCount deck = 0).
    { unfold matchedCount. rewrite Hplay. by vm_compute. }
    split; [by rewrite Hplay|]. split; [done|]. split; [cbn; lia|]. split; [lia|done].
Qed.

Lemma run_invariant (events : list Event) :
  forall g, invariant g -> Forall playable events ->
            exists g', run g events = Ok g' /\ invariant g'.
Proof.
  induction events as [|e events IH]; intros g Hg Hplay; [by exists g|].
  apply Forall_cons in Hplay as [He Hplay].
  destruct (step_invariant g e Hg He) as (g1 & Hstep & Hg1).
  destruct (IH g1 Hg1 Hplay) as (g' & Hrun & Hg').
  exists g'. split; [|done]. cbn [run]. by rewrite Hstep.
Qed.

(** X26. The memory game, for every deck a shuffle can leave and every
    sequence of clicks on the board, of timers firing and of new games: no
    event ends in an exception; the board keeps its twelve cards; at most two
    cards are turned at a time; the cards matched are at most two for each
    turn counted; and a game that is over has its twelve cards matched, in
    six turns at least. *)
Theorem memory_game_invariants :
  forall (deck : list Card) (events : list Event),
    deck ≡ₚ unshuffledCards ->
    Forall playable events ->
    exists g,
      run (newGame deck) events = Ok g
      /\ length (cards (state g)) = 12
      /\ length (flippedIndices (state g)) <= 2
      /\ matchedCount (cards (state g)) <= 2 * turns (state g)
      /\ (isGameOver (state g) = true ->
          matchedCount (cards (state g)) = 12 /\ 6 <= turns (state g)).
Proof.
  intros deck events Hdeck Hplay.
  destruct (run_invariant events (newGame deck)) as (g & Hrun & Hg); [|done|].
  { destruct (step_invariant (newGame unshuffledCards) (Reset deck)) as (g0 & Hstep & Hg0).
    - unfold invariant, newGame, resetGame. cbn [state cards flippedIndices turns isGameOver].
      split; [done|]. split; [done|]. split; [cbn; lia|]. split; [|done].
      vm_compute. lia.
    - done.
    - cbn in Hstep. by injection Hstep as <-. }
  destruct Hg as (Hemoji & _ & Hlen & Hmatched & Hover).
  assert (Hcards : length (cards (state g)) = 12).
  { apply Permutation_length in Hemoji. by rewrite !length_map in Hemoji. }
  exists g. split; [done|]. split; [done|]. split; [done|]. split; [done|].
  intros Hg. specialize (Hover Hg). split; lia.
Qed.

Lemma memory_game_invariants_witness :
  exists g,
    run (newGame unshuffledCards) luckyEvents = Ok g
    /\ length (cards (state g)) = 12
    /\ length (flippedIndices (state g)) <= 2
    /\ matchedCount (cards (state g)) <= 2 * turns (state g)
    /\ (isGameOver (state g) = true ->
        matchedCount (cards (state g)) = 12 /\ 6 <= turns (state g)).
Proof.
  apply (memory_game_invariants unshuffledCards luckyEvents).
  - reflexivity.
  - unfold luckyEvents. cbn [map]. repeat (constructor; [cbn; lia|]). constructor.
Defined.

End MemoryGameFacts.

(** ** The texts a set can be shared with *)

Module SharingFacts.
Import QuizMaster Sharing.

Lemma append_cons (c : Ascii.ascii) (s t : string) :
  String c s +:+ t = String c (s +:+ t).
Proof. reflexivity. Qed.

Lemma append_nil (t : string) : "" +:+ t = t.
Proof. reflexivity. Qed.

Lemma asciiOnly_app (s t : string) :
  asciiOnly (s +:+ t) = asciiOnly s && asciiOnly t.
Proof.
  induction s as [|c s IH]; [done|].
  rewrite append_cons. cbn [asciiOnly]. by rewrite IH, andb_assoc.
Qed.

Lemma append_nil_r (t : string) : t +:+ "" = t.
Proof. induction t as [|x t IH]; [done|]. by rewrite append_cons, IH. Qed.

Lemma append_assoc (a b c : string) : (a +:+ b) +:+ c = a +:+ (b +:+ c).
Proof. induction a as [|x a IH]; [done|]. by rewrite !append_cons, IH. Qed.

Lemma latin1_of_ascii (s : string) : asciiOnly s = true -> is_Some (latin1 s).
Proof.
  induction s as [|c s IH]; cbn [asciiOnly latin1]; [by eexists|].
  rewrite andb_true_iff. intros [-> Hs]. destruct (IH Hs) as [bs ->]. by eexists.
Qed.

Lemma quote_char_ascii (c : Ascii.ascii) :
  (Z.of_N (Ascii.N_of_ascii c) <? 128) = true -> asciiOnly (quote_char c) = true.
Proof. destruct c as [[] [] [] [] [] [] [] []]; by vm_compute. Qed.

Lemma quote_chars_ascii (s : string) :
  asciiOnly s = true -> asciiOnly (quote_chars s) = true.
Proof.
  induction s as [|c s IH]; [done|]. cbn [asciiOnly quote_chars].
  rewrite andb_true_iff. intros [Hc Hs].
  by rewrite asciiOnly_app, quote_char_ascii, IH.
Qed.

Lemma asciiOnly_concat (sep : string) (l : list string) :
  asciiOnly sep = true -> Forall (fun x => asciiOnly x = true) l ->
  asciiOnly (String.concat sep l) = true.
Proof.
  intros Hsep. induction l as [|x l IH]; [done|]. intros Hl.
  apply Forall_cons in Hl as [Hx Hl]. cbn [String.concat].
  destruct l as [|y l]; [done|].
  rewrite !asciiOnly_app, Hx, Hsep. by apply IH.
Qed.

Lemma stringify_string_ascii (s : string) :
  asciiOnly s = true -> asciiOnly (stringify_string s) = true.
Proof.
  intros Hs. unfold stringify_string. by rewrite !asciiOnly_app, quote_chars_ascii.
Qed.

Lemma stringify_pairs_ascii (cards : list Card) :
  Forall (fun c => asciiOnly (front c) = true /\ asciiOnly (back c) = true) cards ->
  asciiOnly (stringify_pairs cards) = true.
Proof.
  intros Hcards. unfold stringify_pairs.
  rewrite !asciiOnly_app, asciiOnly_concat; [done|done|].
  apply Forall_forall. intros x Hx. apply list_elem_of_fmap in Hx as (c & -> & Hc).
  rewrite Forall_forall in Hcards. destruct (Hcards c Hc) as [Hf Hb].
  by rewrite !asciiOnly_app, !stringify_string_ascii.
Qed.

Lemma latin1_cons (c : Ascii.ascii) (rest : string) :
  latin1 (String c rest)
  = if Z.of_N (Ascii.N_of_ascii c) <? 128
    then cons (Z.of_N (Ascii.N_of_ascii c)) <$> latin1 rest
    else if (Z.of_N (Ascii.N_of_ascii c) =? 194) || (Z.of_N (Ascii.N_of_ascii c) =? 195)
         then match rest with
              | String d rest' =>
                  cons ((Z.of_N (Ascii.N_of_ascii c) - 192) * 64
                        + (Z.of_N (Ascii.N_of_ascii d) - 128)) <$> latin1 rest'
              | EmptyString => None
              end
         else None.
Proof. reflexivity. Qed.

Lemma latin1_high (b : Ascii.ascii) (R : string) :
  (196 <=? Z.of_N (Ascii.N_of_ascii b)) = true -> latin1 (String b R) = None.
Proof.
  intros Hb. apply Z.leb_le in Hb. rewrite latin1_cons.
  rewrite (proj2 (Z.ltb_ge _ _)) by lia.
  rewrite (proj2 (Z.eqb_neq _ _)) by lia.
  by rewrite (proj2 (Z.eqb_neq _ _)) by lia.
Qed.

(** A character above U+00FF that follows a character of ASCII stops
    [latin1], whatever comes before. *)
Lemma latin1_stops (n : nat) :
  forall (A : string) (x b : Ascii.ascii) (R : string),
    (String.length A <= n)%nat ->
    (Z.of_N (Ascii.N_of_ascii x) <? 128) = true ->
    (196 <=? Z.of_N (Ascii.N_of_ascii b)) = true ->
    latin1 (A +:+ String x (String b R)) = None.
Proof.
  induction n as [n IH] using lt_wf_ind.
  intros A x b R Hlen Hx Hb.
  destruct A as [|c A].
  - rewrite append_nil, latin1_cons, Hx. by rewrite latin1_high.
  - rewrite append_cons, latin1_cons. cbn [String.length] in Hlen.
    destruct (Z.of_N (Ascii.N_of_ascii c) <? 128).
    + rewrite (IH (String.length A)); [done|lia|lia|done|done].
    + destruct (_ || _); [|done].
      destruct A as [|d A].
      * rewrite append_nil. by rewrite latin1_high.
      * rewrite append_cons. cbn [String.length] in Hlen.
        rewrite (IH (String.length A)); [done|lia|lia|done|done].
Qed.

Lemma leavesLatin1_split (s : string) :
  leavesLatin1 s = true ->
  exists pre b rest,
    s = pre +:+ String b rest /\ asciiOnly pre = true
    /\ (196 <=? Z.of_N (Ascii.N_of_ascii b)) = true.
Proof.
  induction s as [|c s IH]; [done|]. cbn [leavesLatin1]. cbv zeta.
  destruct (Z.of_N (Ascii.N_of_ascii c) <? 128) eqn:Hc.
  - intros Hs. destruct (IH Hs) as (pre & b & rest & -> & Hpre & Hb).
    exists (String c pre), b, rest. rewrite append_cons. cbn [asciiOnly].
    by rewrite Hc, Hpre.
  - intros Hb. by exists "", c, s.
Qed.

Lemma quote_chars_app (s t : string) :
  quote_chars (s +:+ t) = quote_chars s +:+ quote_chars t.
Proof.
  induction s as [|c s IH]; [done|].
  rewrite append_cons. cbn [quote_chars]. by rewrite IH, append_assoc.
Qed.

Lemma quote_char_high (b : Ascii.ascii) :
  (196 <=? Z.of_N (Ascii.N_of_ascii b)) = true -> quote_char b = String b "".
Proof. destruct b as [[] [] [] [] [] [] [] []]; by vm_compute. Qed.

(** The last character of a text of ASCII. *)
Lemma ascii_last (t : string) :
  asciiOnly t = true -> t <> "" ->
  exists A x, t = A +:+ String x "" /\ (Z.of_N (Ascii.N_of_ascii x) <? 128) = true.
Proof.
  induction t as [|c t IH]; [done|]. cbn [asciiOnly].
  rewrite andb_true_iff. intros [Hc Ht] _.
  destruct t as [|d t].
  - by exists "", c.
  - destruct (IH Ht) as (A & x & Heq & Hx); [done|].
    exists (String c A), x. by rewrite append_cons, <- Heq.
Qed.

(** The quoted text of a field that leaves Latin-1 stops [latin1], whatever
    is before and after it. *)
Lemma stringify_string_stops (s before after : string) :
  leavesLatin1 s = true ->
  latin1 (before +:+ stringify_string s +:+ after) = None.
Proof.
  intros Hs. destruct (leavesLatin1_split s Hs) as (pre & b & rest & -> & Hpre & Hb).
  unfold stringify_string.
  rewrite quote_chars_app. cbn [quote_chars]. rewrite quote_char_high by done.
  destruct (ascii_last (dquote +:+ quote_chars pre)) as (A & x & Heq & Hx).
  { by rewrite asciiOnly_app, quote_chars_ascii. }
  { done. }
  rewrite !append_assoc. rewrite <- (append_assoc dquote (quote_chars pre)).
  rewrite Heq. rewrite <- !append_assoc. rewrite (append_assoc _ (String x "")).
  rewrite append_cons, append_nil. rewrite !append_assoc, append_cons.
  rewrite <- append_assoc.
  by eapply latin1_stops.
Qed.

Lemma concat_split (sep y : string) (l1 l2 : list string) :
  exists P Q, String.concat sep (l1 ++ y :: l2)%list = P +:+ y +:+ Q.
Proof.
  induction l1 as [|x l1 IH]; cbn [app String.concat].
  - exists "". destruct l2.
    + exists "". by rewrite append_nil, append_nil_r.
    + eexists. by rewrite append_nil.
  - destruct IH as (P & Q & IH).
    destruct (l1 ++ y :: l2)%list eqn:Hl; [by destruct l1|].
    exists (x +:+ sep +:+ P), Q. by rewrite IH, !append_assoc.
Qed.

(** X27. Which sets can be shared. A set in which every front and back is
    ASCII text gets its link; a set with a card whose front or back has, as
    its first character outside ASCII, a character above U+00FF (as every
    Vietnamese letter with a mark beyond Latin-1 is) gets none: [btoa]
    throws. *)
Theorem sharing_needs_latin1 :
  forall (origin pathname : string) (cards : list Card),
    (Forall (fun c => asciiOnly (front c) = true /\ asciiOnly (back c) = true) cards ->
     exists setData,
       shareSet origin pathname cards
       = Ok (origin +:+ pathname +:+ "?shared_set=" +:+ setData))
    /\ (Exists (fun c => leavesLatin1 (front c) = true \/ leavesLatin1 (back c) = true) cards ->
        shareSet origin pathname cards = Throw InvalidCharacterError).
Proof.
  intros origin pathname cards. unfold shareSet, btoa. split.
  - intros Hcards.
    destruct (latin1_of_ascii (stringify_pairs cards)) as [bs ->];
      [by apply stringify_pairs_ascii|].
    by eexists.
  - intros Hex. apply Exists_exists in Hex as (c & Hc & Hfield).
    apply list_elem_of_split in Hc as (l1 & l2 & ->).
    unfold stringify_pairs. rewrite map_app. cbn [map].
    destruct (concat_split ","
                ("{" +:+ stringify_string "front" +:+ ":" +:+ stringify_string (front c)
                 +:+ "," +:+ stringify_string "back" +:+ ":" +:+ stringify_string (back c)
                 +:+ "}")
                (map (fun c => "{" +:+ stringify_string "front" +:+ ":"
                                +:+ stringify_string (front c) +:+ ","
                                +:+ stringify_string "back" +:+ ":"
                                +:+ stringify_string (back c) +:+ "}") l1)
                (map (fun c => "{" +:+ stringify_string "front" +:+ ":"
                                +:+ stringify_string (front c) +:+ ","
                                +:+ stringify_string "back" +:+ ":"
                                +:+ stringify_string (back c) +:+ "}") l2))
      as (P & Q & ->).
    destruct Hfield as [Hf|Hb].
    + replace ("[" +:+ (P +:+ ("{" +:+ stringify_string "front" +:+ ":"
                 +:+ stringify_string (front c) +:+ "," +:+ stringify_string "back"
                 +:+ ":" +:+ stringify_string (back c) +:+ "}") +:+ Q) +:+ "]")
        with (("[" +:+ P +:+ "{" +:+ stringify_string "front" +:+ ":")
              +:+ stringify_string (front c)
              +:+ ("," +:+ stringify_string "back" +:+ ":"
                   +:+ stringify_string (back c) +:+ "}" +:+ Q +:+ "]"))
        by (by rewrite !append_assoc).
      by rewrite stringify_string_stops.
    + replace ("[" +:+ (P +:+ ("{" +:+ stringify_string "front" +:+ ":"
                 +:+ stringify_string (front c) +:+ "," +:+ stringify_string "back"
                 +:+ ":" +:+ stringify_string (back c) +:+ "}") +:+ Q) +:+ "]")
        with (("[" +:+ P +:+ "{" +:+ stringify_string "front" +:+ ":"
               +:+ stringify_string (front c) +:+ "," +:+ stringify_string "back" +:+ ":")
              +:+ stringify_string (back c)
              +:+ ("}" +:+ Q +:+ "]"))
        by (by rewrite !append_assoc).
      by rewrite stringify_string_stops.
Qed.

Lemma sharing_needs_latin1_witness :
  shareSet "https://example.org" "/" [addedCard] = Throw InvalidCharacterError.
Proof.
  apply (proj2 (sharing_needs_latin1 "https://example.org" "/" [addedCard])).
  apply Exists_cons_hd. left. by vm_compute.
Defined.

End SharingFacts.

(** ** The result screen and the export as CSV *)

Module ResultScreenFacts.
Import Unlock ResultScreen.

#[local] Arguments difficultyOrder : simpl never.
#[local] Arguments lt : simpl never.
#[local] Arguments gt : simpl never.
#[local] Arguments or_else : simpl never.

(** A difficulty of the list other than the last has a next one. *)
Lemma next_of_listed (d : string) (k : Z) :
  difficultyOrder d = Some k -> d <> "Khó" ->
  lt (Some k) (Some 3) = true
  /\ 1 <= k
  /\ exists next, findNext (Some k) = Some next /\ next <> ""
                  /\ difficultyOrder next = Some (k + 1).
Proof.
  unfold difficultyOrder. intros Hk Hd. repeat case_decide; simplify_eq.
  - split; [done|]. split; [done|]. exists "Trung bình". by vm_compute.
  - split; [done|]. split; [done|]. exists "Khó". by vm_compute.
Qed.

(** X28. The flag [showUnlockMessage] of the result screen and the tier the
    unlock effect stores. When the flag is set for a difficulty of the list
    and the tier stored for the grade and the subject of the settings is of
    the list (or none is stored, which reads as the first), the tier stored
    after the effect is the higher of the stored one and the one that
    follows the difficulty played. When the difficulty played or the tier
    stored is not of the list, the flag is set all the same and the effect
    leaves the stored progress as it was. *)
Theorem unlock_message_and_stored_tier :
  forall (st : Settings) (sc : Z) (p : Progress),
    showUnlockMessage false sc st = true ->
    (forall k i : Z,
        difficultyOrder (difficulty st) = Some k ->
        difficultyOrder (highestUnlocked p (grade st) (subject st)) = Some i ->
        difficultyOrder
          (highestUnlocked (policy (grade st) (subject st) (difficulty st) sc p)
             (grade st) (subject st))
        = Some (Z.max i (k + 1)))
    /\ (difficultyOrder (difficulty st) = None
        \/ difficultyOrder (highestUnlocked p (grade st) (subject st)) = None ->
        policy (grade st) (subject st) (difficulty st) sc p = p).
Proof.
  intros [g s d t] sc p. unfold showUnlockMessage. cbn [negb andb difficulty grade subject].
  rewrite andb_true_iff, negb_true_iff, bool_decide_eq_false. intros [Hsc Hd].
  rewrite UnlockFacts.policy_unfold, Hsc. cbn [andb]. split.
  - intros k i Hk Hi.
    destruct (next_of_listed d k Hk Hd) as (Hlt & Hk1 & next & Hnext & Hne & Hord).
    rewrite Hk, Hlt, Hnext.
    destruct (gt (difficultyOrder next) (difficultyOrder (highestUnlocked p g s))) eqn:Hgt.
    + rewrite (UnlockFacts.updater_written g s next p Hne Hgt). cbn [fst].
      unfold highestUnlocked at 1. rewrite lookup_insert_eq. cbn [mbind option_bind].
      rewrite lookup_insert_eq, UnlockFacts.or_else_nonempty by done.
      rewrite Hord. rewrite Hord, Hi in Hgt. unfold gt, lt in Hgt.
      apply Z.ltb_lt in Hgt. f_equal. lia.
    + destruct (p !! g) as [m|] eqn:Hg.
      * rewrite (UnlockFacts.updater_kept g s (Some next) p m Hg)
          by (rewrite Hgt; apply andb_false_r).
        cbn [fst]. rewrite Hi. rewrite Hord, Hi in Hgt. unfold gt, lt in Hgt.
        apply Z.ltb_ge in Hgt. f_equal. lia.
      * exfalso. unfold highestUnlocked in Hi, Hgt. rewrite Hg in Hi, Hgt.
        cbn [mbind option_bind] in Hi, Hgt.
        rewrite Hord, Hi in Hgt. unfold gt, lt in Hgt. apply Z.ltb_ge in Hgt.
        assert (i = 1) by (vm_compute in Hi; congruence). lia.
  - intros Hnone.
    destruct (lt (difficultyOrder d) (Some 3)) eqn:Hlt; [|done].
    destruct Hnone as [Hnone | Hnone]; [by rewrite Hnone in Hlt|].
    destruct (p !! g) as [m|] eqn:Hg.
    + rewrite (UnlockFacts.updater_kept g s _ p m Hg); [done|].
      destruct (findNext (difficultyOrder d)) as [n|]; [|done].
      rewrite Hnone. unfold gt, lt. destruct (difficultyOrder n); apply andb_false_r.
    + exfalso. unfold highestUnlocked in Hnone. rewrite Hg in Hnone.
      cbn [mbind option_bind] in Hnone. by vm_compute in Hnone.
Qed.

(** "Dễ" passed with 80 and nothing stored: "Trung bình" is stored. With a
    tier stored that is not of the list, nothing changes. *)
Lemma unlock_message_and_stored_tier_witness :
  difficultyOrder
    (highestUnlocked (policy "Lớp 6" "Toán" "Dễ" 80 ∅) "Lớp 6" "Toán") = Some 2
  /\ policy "Lớp 6" "Toán" "Dễ" 80 {[ "Lớp 6" := {[ "Toán" := "Giỏi" ]} ]}
     = {[ "Lớp 6" := {[ "Toán" := "Giỏi" ]} ]}.
Proof.
  split.
  - apply (proj1 (unlock_message_and_stored_tier
                    {| grade := "Lớp 6"; subject := "Toán"; difficulty := "Dễ"; topic := "" |}
                    80 ∅ eq_refl) 1 1); reflexivity.
  - apply (proj2 (unlock_message_and_stored_tier
                    {| grade := "Lớp 6"; subject := "Toán"; difficulty := "Dễ"; topic := "" |}
                    80 {[ "Lớp 6" := {[ "Toán" := "Giỏi" ]} ]} eq_refl)).
    right. vm_compute. reflexivity.
Defined.

End ResultScreenFacts.

Module CsvFacts.
Import QuizMaster Csv.

Lemma app_cons (c : Ascii.ascii) (s t : string) : String c s +:+ t = String c (s +:+ t).
Proof. reflexivity. Qed.

Lemma app_empty (t : string) : "" +:+ t = t.
Proof. reflexivity. Qed.

Lemma app_assoc_string (a b c : string) : (a +:+ b) +:+ c = a +:+ (b +:+ c).
Proof. induction a as [|x a IH]; [done|]. by rewrite !app_cons, IH. Qed.

(** A quoted field is read back in one way. *)
Lemma quoted_field_inj (s : string) :
  forall (t r r' : string),
    unquoted r -> unquoted r' ->
    doubleQuotes s +:+ dquote +:+ r = doubleQuotes t +:+ dquote +:+ r' ->
    s = t /\ r = r'.
Proof.
  induction s as [|c s IH]; intros t r r' Hr Hr' Heq.
  - destruct t as [|d t]; cbn [doubleQuotes] in Heq.
    + rewrite !app_empty in Heq. unfold dquote in Heq. rewrite !app_cons, !app_empty in Heq.
      by injection Heq as ->.
    + rewrite app_empty in Heq. unfold dquote in Heq at 1. rewrite app_cons, app_empty in Heq.
      destruct (Ascii.eqb d (Ascii.ascii_of_nat 34)) eqn:Hd.
      * rewrite !app_cons in Heq. injection Heq as _ Heq.
        destruct r as [|x r]; [done|]. injection Heq as -> _. cbn in Hr.
        apply Ascii.eqb_eq in Hd. congruence.
      * rewrite app_cons in Heq. injection Heq as <- _. by rewrite Ascii.eqb_refl in Hd.
  - destruct t as [|d t]; cbn [doubleQuotes] in Heq.
    + rewrite app_empty in Heq. unfold dquote in Heq at 2. rewrite app_cons, app_empty in Heq.
      destruct (Ascii.eqb c (Ascii.ascii_of_nat 34)) eqn:Hc.
      * rewrite !app_cons in Heq. injection Heq as _ Heq.
        destruct r' as [|x r']; [done|]. injection Heq as <- _. cbn in Hr'.
        apply Ascii.eqb_eq in Hc. congruence.
      * rewrite app_cons in Heq. injection Heq as -> _. by rewrite Ascii.eqb_refl in Hc.
    + destruct (Ascii.eqb c (Ascii.ascii_of_nat 34)) eqn:Hc;
        destruct (Ascii.eqb d (Ascii.ascii_of_nat 34)) eqn:Hd;
        rewrite !app_cons in Heq.
      * injection Heq as -> _ Heq. destruct (IH t r r' Hr Hr' Heq) as [-> ->]. done.
      * injection Heq as -> _. congruence.
      * injection Heq as -> _. congruence.
      * injection Heq as -> Heq. destruct (IH t r r' Hr Hr' Heq) as [-> ->]. done.
Qed.

Lemma String_tail (c : Ascii.ascii) (x y : string) : String c x = String c y -> x = y.
Proof. congruence. Qed.

Lemma quoted_inj (s t r r' : string) :
  unquoted r -> unquoted r' ->
  dquote +:+ doubleQuotes s +:+ dquote +:+ r = dquote +:+ doubleQuotes t +:+ dquote +:+ r' ->
  s = t /\ r = r'.
Proof.
  intros Hr Hr'. unfold dquote at 1 3. rewrite !app_cons, !app_empty. intros [= Heq].
  by apply quoted_field_inj in Heq.
Qed.

Lemma or_else_empty (s : string) : or_else (Some s) "" = s.
Proof. unfold or_else. by case_decide. Qed.

Lemma doubleQuotes_status (st : CardStatus) :
  doubleQuotes (status_text st) = status_text st.
Proof. by destruct st. Qed.

Lemma status_text_inj (st st' : CardStatus) : status_text st = status_text st' -> st = st'.
Proof. by destruct st, st'. Qed.

(** A line is read back in one way, whatever follows it. *)
Lemma csvLine_inj (c c' : Card) (rest rest' : string) :
  unquoted rest -> unquoted rest' ->
  csvLine c +:+ rest = csvLine c' +:+ rest' ->
  c = c' /\ rest = rest'.
Proof.
  intros Hr Hr'. unfold csvLine. rewrite !or_else_empty, !app_assoc_string.
  rewrite <- (doubleQuotes_status (status c)), <- (doubleQuotes_status (status c')).
  rewrite !app_cons, !app_empty. intros Heq.
  apply quoted_inj in Heq as [Hfront Heq]; [|done..]. apply String_tail in Heq.
  apply quoted_inj in Heq as [Hback Heq]; [|done..]. apply String_tail in Heq.
  apply quoted_inj in Heq as [Hstatus Heq]; [|done..].
  apply status_text_inj in Hstatus.
  split; [|done]. destruct c, c'. cbn in *. by subst.
Qed.

Lemma concat_cons (x : string) (l : list string) :
  String.concat newline (x :: l)
  = x +:+ match l with [] => "" | _ => newline +:+ String.concat newline l end.
Proof.
  destruct l; cbn [String.concat]; [|done].
  induction x as [|c x IH]; [done|]. by rewrite app_cons, <- IH.
Qed.

Lemma body_inj (l : list Card) :
  forall l', String.concat newline (map csvLine l) = String.concat newline (map csvLine l') ->
             l = l'.
Proof.
  induction l as [|c l IH]; intros l' Heq.
  - destruct l' as [|c' l']; [done|]. cbn [map] in Heq. rewrite concat_cons in Heq.
    unfold csvLine, dquote in Heq. by rewrite !app_cons in Heq.
  - destruct l' as [|c' l']; cbn [map] in Heq.
    + rewrite concat_cons in Heq. unfold csvLine, dquote in Heq. by rewrite !app_cons in Heq.
    + rewrite !concat_cons in Heq.
      apply csvLine_inj in Heq as [-> Heq].
      * f_equal. apply IH. destruct l as [|x l], l' as [|x' l']; cbn [map] in *; try done.
        unfold newline in Heq. rewrite !app_cons, !app_empty in Heq. by injection Heq.
      * by destruct (map csvLine l).
      * by destruct (map csvLine l').
Qed.

(** X29. The export as CSV loses nothing: two different sets of cards are
    never exported as the same text, whatever quotes, commas and line
    breaks the fronts and the backs hold. The text tells the cards apart
    one by one, with their fronts, their backs and their states. *)
Theorem csv_export_loses_nothing :
  forall cards cards' : list Card,
    cards <> cards' -> exportCSV cards <> exportCSV cards'.
Proof.
  intros cards cards' Hne Heq. apply Hne. revert Heq. unfold exportCSV. cbv zeta.
  unfold newline at 1 3. rewrite !app_assoc_string.
  intros Heq. apply body_inj.
  rewrite !app_cons, !app_empty in Heq. by repeat apply String_tail in Heq.
Qed.

Lemma csv_export_loses_nothing_witness :
  exportCSV [ {| front := "a" +:+ dquote +:+ "," +:+ dquote +:+ "b";
                 back := "c"; status := new |} ]
  <> exportCSV [ {| front := "a"; back := "b"; status := new |};
                 {| front := "c"; back := ""; status := new |} ].
Proof. apply csv_export_loses_nothing. vm_compute. discriminate. Defined.

End CsvFacts.
